(** * Field and weather data pipelines: a shallow embedding

    The development follows the three Python modules of the repository:
    [data_ingestion] (fetching a table from SQL or from a web CSV),
    [field_data_processor] (class [FieldDataProcessor]) and
    [weather_data_processor] (class [WeatherDataProcessor]).

    A pandas [DataFrame] is a list of column labels and a list of rows; the
    row index is the default positional one everywhere in this program.
    Methods of the two classes mutate [self] and write to the console through
    a [logging] logger, and they raise exceptions: they are embedded in a
    state-and-exception monad over the instance, its logger and the console
    stream.  What the repository calls but does not define (the SQL and HTTP
    sources, Python's [re] and [float], the grouped mean) is taken from an
    environment record. *)

From Stdlib Require Import ZArith String Ascii List Bool Lia.
From Stdlib Require Import Floats.SpecFloat.
From stdpp Require Import base option list strings gmap.

Open Scope string_scope.
Open Scope list_scope.
Open Scope nat_scope.

(** ** Python values and exceptions *)

Inductive exn : Type :=
| KeyError (key : string)
| IndexError
| AttributeError
| TypeError
| ValueError
| StopIteration
| ImportError
| UnboundLocalError
| EmptyDataError
| ReError
| SourceError (what : string)
| OutOfFuel.

Inductive result (A : Type) : Type :=
| Ok (a : A)
| Raise (e : exn).
Arguments Ok {A} a.
Arguments Raise {A} e.

Definition rbind {A B} (r : result A) (k : A -> result B) : result B :=
  match r with
  | Ok a => k a
  | Raise e => Raise e
  end.

Notation "x <-? r ;; k" := (rbind r (fun x => k))
  (at level 100, r at next level, right associativity).

Fixpoint rmapM {A B} (f : A -> result B) (l : list A) : result (list B) :=
  match l with
  | [] => Ok []
  | a :: l' => b <-? f a ;; bs <-? rmapM f l' ;; Ok (b :: bs)
  end.

(** A scalar held in a table cell: an [int64], a [float64] (IEEE binary64,
    NaN included), a [str], or [None]. *)
Inductive cell : Type :=
| CInt (z : Z)
| CFloat (f : spec_float)
| CStr (s : string)
| CNone.

Definition int64_min : Z := (- 2 ^ 63)%Z.
Definition int64_max : Z := (2 ^ 63 - 1)%Z.

Definition in_int64 (z : Z) : bool :=
  ((int64_min <=? z) && (z <=? int64_max))%Z.

(** Two's complement wrap-around of a 64-bit signed result. *)
Definition wrap64 (z : Z) : Z := ((z + 2 ^ 63) mod 2 ^ 64 - 2 ^ 63)%Z.

(** [int64 -> float64] conversion, round to nearest even. *)
Definition float_of_int (z : Z) : spec_float :=
  binary_normalize 53 1024 z 0 false.

Definition is_nan (f : spec_float) : bool :=
  match f with S754_nan => true | _ => false end.

(** [abs] of one element: numpy's [absolute] on [int64] wraps, on [float64]
    clears the sign; Python's [abs] on [str] or [None] raises [TypeError]. *)
Definition abs_cell (c : cell) : result cell :=
  match c with
  | CInt z => Ok (CInt (wrap64 (Z.abs z)))
  | CFloat f => Ok (CFloat (SFabs f))
  | CStr _ => Raise TypeError
  | CNone => Raise TypeError
  end.

(** pandas' null test. *)
Definition notna (c : cell) : bool :=
  match c with
  | CNone => false
  | CFloat f => negb (is_nan f)
  | _ => true
  end.

(** Equality of two key values as pandas' hash tables see it (join keys and
    group keys): by value, an integer against a float after conversion, and
    two nulls are the same key. *)
Definition key_eqb (a b : cell) : bool :=
  match a, b with
  | CInt x, CInt y => (x =? y)%Z
  | CStr s, CStr t => bool_decide (s = t)
  | CFloat f, CFloat g => SFeqb f g || (is_nan f && is_nan g)
  | CInt x, CFloat g => SFeqb (float_of_int x) g
  | CFloat f, CInt y => SFeqb f (float_of_int y)
  | CNone, CNone => true
  | CNone, CFloat g => is_nan g
  | CFloat f, CNone => is_nan f
  | _, _ => false
  end.

(** [str.upper], on ASCII letters. *)
Definition upper_ascii (a : ascii) : ascii :=
  let n := nat_of_ascii a in
  if (97 <=? n) && (n <=? 122) then ascii_of_nat (n - 32) else a.

Fixpoint upper (s : string) : string :=
  match s with
  | EmptyString => EmptyString
  | String a s' => String (upper_ascii a) (upper s')
  end.

(** ** pandas *)

Module Pandas.

(** Column labels, left to right, and the rows, top to bottom.  In the frames
    of this program a label occurs once ([read_csv] renames repeated labels,
    and the data model asks for unique names); a label is looked up by its
    first position. *)
Record DataFrame : Type := { columns : list string; rows : list (list cell) }.

(** [df.empty]: some axis has length zero. *)
Definition empty (d : DataFrame) : bool :=
  (length (columns d) =? 0) || (length (rows d) =? 0).

(** Position of a column label; [KeyError] when absent. *)
Definition get_loc (name : string) (d : DataFrame) : result nat :=
  match list_find (fun c => c = name) (columns d) with
  | Some (i, _) => Ok i
  | None => Raise (KeyError name)
  end.

(** The values of the column at position [i], top to bottom. *)
Definition iloc_col (i : nat) (d : DataFrame) : list cell :=
  (fun r => default CNone (r !! i)) <$> rows d.

(** [df[name]] *)
Definition getitem (name : string) (d : DataFrame) : result (list cell) :=
  i <-? get_loc name d ;; Ok (iloc_col i d).

(** [df[name] = values]: an existing column is overwritten where it stands, a
    new one is appended on the right; [ValueError] when the number of values
    is not the number of rows. *)
Definition setitem (name : string) (values : list cell) (d : DataFrame)
  : result DataFrame :=
  if length values =? length (rows d) then
    match list_find (fun c => c = name) (columns d) with
    | Some (i, _) =>
        Ok {| columns := columns d;
              rows := zip_with (fun r v => <[i:=v]> r) (rows d) values |}
    | None =>
        Ok {| columns := columns d ++ [name];
              rows := zip_with (fun r v => r ++ [v]) (rows d) values |}
    end
  else Raise ValueError.

(** [df.rename(columns=mapper)], with the default [errors='ignore']: every
    label that is a key of [mapper] is replaced, the others stay, and keys
    that are no label of the frame are skipped. *)
Definition rename (mapper : gmap string string) (d : DataFrame) : DataFrame :=
  {| columns := (fun c => default c (mapper !! c)) <$> columns d;
     rows := rows d |}.

(** [series.abs()] *)
Definition abs (s : list cell) : result (list cell) := rmapM abs_cell s.

(** Position of the join key: the label must exist ([KeyError]) and be
    unique ([ValueError]). *)
Definition key_loc (on : string) (d : DataFrame) : result nat :=
  i <-? get_loc on d ;;
  if 1 <? length (filter (fun c => c = on) (columns d))
  then Raise ValueError else Ok i.

Definition key_of (i : nat) (r : list cell) : cell := default CNone (r !! i).

(** The rows of [right] whose key equals that of the left row [l]. *)
Definition matches (li ri : nat) (right_rows : list (list cell)) (l : list cell)
  : list (list cell) :=
  List.filter (fun r => key_eqb (key_of li l) (key_of ri r)) right_rows.

(** The type pandas holds a key column in is read off its values: a column
    with a text value is held as objects, any other column as numbers, its
    nulls being NaN.  (A column of nulls only, or with no value at all, has
    no type of its own in this data model; it is taken for numeric here.) *)
Definition is_text (c : cell) : bool :=
  match c with CStr _ => true | _ => false end.

Definition is_int (c : cell) : bool :=
  match c with CInt _ => true | _ => false end.

Definition numeric_column (l : list cell) : bool :=
  negb (length l =? 0) && negb (existsb is_text l).

(** An object column that pandas infers to be "string" or "mixed": it holds
    text and no integer (with an integer it is inferred "mixed-integer",
    which is let through). *)
Definition text_column (l : list cell) : bool :=
  existsb is_text l && negb (existsb is_int l).

(** The key columns cannot be compared: both have values, one is numeric and
    the other is text-like. *)
Definition incompatible_keys (a b : list cell) : bool :=
  (numeric_column a && text_column b) || (text_column a && numeric_column b).

(** [Index.duplicated()]: every occurrence of a label after its first. *)
Fixpoint duplicated (seen l : list string) : list bool :=
  match l with
  | [] => []
  | c :: l' => bool_decide (c ∈ seen) :: duplicated (c :: seen) l'
  end.

(** A label is repeated among the suffixed labels and was not repeated
    before the suffixes were put on. *)
Definition suffix_clash (orig labels : list string) : bool :=
  existsb (fun b => b)
          (zip_with (fun now before => now && negb before)
                    (duplicated [] labels) (duplicated [] orig)).

(** [left.merge(right, on=on)]: inner join, one output row per pair of a left
    and a right row with equal keys, in the order of the left rows.  The key
    column appears once; a label other than the key that both frames carry is
    suffixed [_x] on the left and [_y] on the right.  pandas refuses, with
    [ValueError], to compare a numeric key column with a text-like one when
    both have values, and, with [MergeError] (a [ValueError]), suffixes that
    make two labels of one side the same. *)
Definition merge (left right : DataFrame) (on : string) : result DataFrame :=
  li <-? key_loc on left ;;
  ri <-? key_loc on right ;;
  if incompatible_keys (iloc_col li left) (iloc_col ri right)
  then Raise ValueError
  else
    let rcols := delete ri (columns right) in
    let llabels := (fun c => if bool_decide (c ∈ rcols) then c +:+ "_x" else c)
                     <$> columns left in
    let rlabels := (fun c => if bool_decide (c ∈ columns left) then c +:+ "_y" else c)
                     <$> rcols in
    if suffix_clash (columns left) llabels || suffix_clash rcols rlabels
    then Raise ValueError
    else
      Ok {| columns := llabels ++ rlabels;
            rows :=
              flat_map (fun l => (fun r => l ++ delete ri r)
                                   <$> matches li ri (rows right) l)
                       (rows left) |}.

(** One group of a two-key [groupby]: the two key values and the values of
    the aggregated column, in row order. *)
Definition group : Type := cell * cell * list cell.

Fixpoint group_add (k1 k2 v : cell) (gs : list group) : list group :=
  match gs with
  | [] => [(k1, k2, [v])]
  | (a, b, vs) :: gs' =>
      if key_eqb a k1 && key_eqb b k2
      then (a, b, vs ++ [v]) :: gs'
      else (a, b, vs) :: group_add k1 k2 v gs'
  end.

(** [df.groupby(by=[k1, k2])[v]] with the default [dropna=True]: a row in
    which either key is null belongs to no group. *)
Definition groupby_step (i j v : nat) (gs : list group) (r : list cell)
  : list group :=
  let k1 := key_of i r in
  let k2 := key_of j r in
  if notna k1 && notna k2 then group_add k1 k2 (key_of v r) gs else gs.

Definition groupby_rows (i j v : nat) (rs : list (list cell)) : list group :=
  fold_left (groupby_step i j v) rs [].

(** A group keyed by one label. *)
Definition label_group : Type := cell * list cell.

Fixpoint label_add (k v : cell) (gs : list label_group) : list label_group :=
  match gs with
  | [] => [(k, [v])]
  | (a, vs) :: gs' =>
      if key_eqb a k then (a, vs ++ [v]) :: gs' else (a, vs) :: label_add k v gs'
  end.

(** What [groupby] has grouped by: the two key columns (a two-level index),
    or one array of labels (a one-level index). *)
Inductive grouped : Type :=
| ByColumns (gs : list group)
| ByLabels (gs : list label_group).

(** [df.groupby(by=[k1, k2])[v]].  The names in [by] are column labels; the
    first that is no column raises [KeyError].  There is one exception in
    pandas: when [by] has as many entries as the frame has rows and not all
    of them are columns, the list itself is taken as the array of group
    labels, one per row.  Then [[v]] selects the aggregated column. *)
Definition groupby (k1 k2 v : string) (d : DataFrame) : result grouped :=
  if (length [k1; k2] =? length (rows d))
     && negb (bool_decide (k1 ∈ columns d) && bool_decide (k2 ∈ columns d))
  then
    vi <-? get_loc v d ;;
    Ok (ByLabels (fold_left (fun gs p => label_add (fst p) (snd p) gs)
                            (zip [CStr k1; CStr k2] (iloc_col vi d)) []))
  else
    i <-? get_loc k1 d ;;
    j <-? get_loc k2 d ;;
    vi <-? get_loc v d ;;
    Ok (ByColumns (groupby_rows i j vi (rows d))).

(** The numeric values a mean is taken over: nulls are skipped, integers are
    converted, a string makes the aggregation fail. *)
Fixpoint numeric_values (vs : list cell) : result (list spec_float) :=
  match vs with
  | [] => Ok []
  | CStr _ :: _ => Raise TypeError
  | CInt z :: vs' => fs <-? numeric_values vs' ;; Ok (float_of_int z :: fs)
  | CFloat f :: vs' =>
      fs <-? numeric_values vs' ;; Ok (if is_nan f then fs else f :: fs)
  | CNone :: vs' => numeric_values vs'
  end.

End Pandas.
Export Pandas.

(** ** What the program takes from outside *)

Record Env : Type := {
  (** [sqlalchemy.create_engine(db_path)] and the test connection *)
  create_engine : string -> result string;
  (** [pd.read_sql_query(text(sql_query), connection)] on an engine *)
  read_sql_query : string -> string -> result DataFrame;
  (** [pd.read_csv(URL)] *)
  read_csv : string -> result DataFrame;
  (** [re.search(pattern, message)]: no match, or the match's [groups()];
      [re.error] on a pattern that does not compile *)
  re_search : string -> string -> result (option (list (option string)));
  (** [float(text)], [ValueError] when the text is no number *)
  float_of_str : string -> result spec_float;
  (** the arithmetic mean pandas computes for a non-empty group *)
  np_mean : list spec_float -> spec_float
}.

(** ** logging *)

Module Logging.

Definition NOTSET : Z := 0.
Definition DEBUG : Z := 10.
Definition INFO : Z := 20.
Definition WARNING : Z := 30.
Definition ERROR : Z := 40.

(** One line written to the console. *)
Record LogRecord : Type := { rec_name : string; rec_level : Z; rec_msg : string }.

(** A logger object, as much of it as the program sets and reads. *)
Record Logger : Type := {
  name : string;
  propagate : bool;
  disabled : bool;
  level : Z;
  handlers : nat
}.

(** What [logging.getLogger name] creates on first use. *)
Definition fresh_logger (n : string) : Logger :=
  {| name := n; propagate := true; disabled := false; level := NOTSET;
     handlers := 0 |}.

(** [data_ingestion] configures the root logger with
    [basicConfig(level=logging.INFO)]. *)
Definition root_level : Z := INFO.

Definition getEffectiveLevel (lg : Logger) : Z :=
  if (level lg =? NOTSET)%Z then root_level else level lg.

Definition isEnabledFor (lg : Logger) (lvl : Z) : bool :=
  if disabled lg then false else (getEffectiveLevel lg <=? lvl)%Z.

(** The lines a call [lg.log(lvl, msg)] adds to the console: one per handler
    of the logger; with no handler, the root handler when the record
    propagates, else the last-resort handler for warnings and above. *)
Definition emit (lg : Logger) (lvl : Z) (msg : string) : list LogRecord :=
  let r := {| rec_name := name lg; rec_level := lvl; rec_msg := msg |} in
  if isEnabledFor lg lvl then
    if handlers lg =? 0 then
      if propagate lg then [r]
      else if (WARNING <=? lvl)%Z then [r] else []
    else replicate (handlers lg) r
  else [].

(** [initialize_logging], the same code in both classes, on the logger that
    [logging.getLogger] returns. *)
Definition initialize_logging (lg : Logger) (logging_level : string) : Logger :=
  let lg := {| name := name lg; propagate := false; disabled := disabled lg;
               level := level lg; handlers := handlers lg |} in
  let set_level (log_level : Z) :=
    {| name := name lg; propagate := propagate lg; disabled := disabled lg;
       level := log_level;
       handlers := if handlers lg =? 0 then 1 else handlers lg |} in
  if bool_decide (upper logging_level = "DEBUG") then set_level DEBUG
  else if bool_decide (upper logging_level = "INFO") then set_level INFO
  else if bool_decide (upper logging_level = "NONE") then
    {| name := name lg; propagate := propagate lg; disabled := true;
       level := level lg; handlers := handlers lg |}
  else set_level INFO.

End Logging.
Export Logging.

(** ** Methods: state of the instance, console output, exceptions *)

Record Self (D : Type) : Type := {
  attrs : D;                    (** the data attributes of [self] *)
  logger : Logger;              (** [self.logger] *)
  stderr : list LogRecord       (** what has been written to the console *)
}.
Arguments attrs {D} s.
Arguments logger {D} s.
Arguments stderr {D} s.
Arguments Build_Self {D} attrs logger stderr.

(** A method body: from the state before to the outcome (a value or a raised
    exception) and the state after. *)
Definition M (D A : Type) : Type := Self D -> result A * Self D.

Definition ret {D A} (a : A) : M D A := fun s => (Ok a, s).

Definition raise {D A} (e : exn) : M D A := fun s => (Raise e, s).

Definition bind {D A B} (m : M D A) (k : A -> M D B) : M D B :=
  fun s =>
    match m s with
    | (Ok a, s') => k a s'
    | (Raise e, s') => (Raise e, s')
    end.

Notation "x <- m ;; k" := (bind m (fun x => k))
  (at level 100, m at next level, right associativity).
Notation "m ;;; k" := (bind m (fun _ => k))
  (at level 100, right associativity).

(** A pure computation that may raise. *)
Definition liftR {D A} (r : result A) : M D A :=
  fun s => (r, s).

(** Reading and writing attributes of [self]. *)
Definition gets {D A} (f : D -> A) : M D A := fun s => (Ok (f (attrs s)), s).

Definition modify {D} (f : D -> D) : M D unit :=
  fun s => (Ok tt, {| attrs := f (attrs s); logger := logger s;
                      stderr := stderr s |}).

(** [self.logger.log(lvl, msg)] *)
Definition log {D} (lvl : Z) (msg : string) : M D unit :=
  fun s => (Ok tt, {| attrs := attrs s; logger := logger s;
                      stderr := stderr s ++ emit (logger s) lvl msg |}).

Fixpoint mapM {D A B} (f : A -> M D B) (l : list A) : M D (list B) :=
  match l with
  | [] => ret []
  | a :: l' => b <- f a ;; bs <- mapM f l' ;; ret (b :: bs)
  end.

(** The text of an exception inside a log message. *)
Definition str_exn (e : exn) : string :=
  match e with
  | KeyError k => k
  | SourceError w => w
  | ValueError => "The query returned an empty DataFrame."
  | _ => ""
  end.

(** ** data_ingestion *)

Module DataIngestion.

(** The module's logger, [logging.getLogger('data_ingestion')]: it has no
    level and no handler of its own, so the root logger's apply. *)
Definition module_logger : Logger := fresh_logger "data_ingestion".

Definition mlog {D} (lvl : Z) (msg : string) : M D unit :=
  fun s => (Ok tt, {| attrs := attrs s; logger := logger s;
                      stderr := stderr s ++ emit module_logger lvl msg |}).

Definition create_db_engine {D} (env : Env) (db_path : string) : M D string :=
  match create_engine env db_path with
  | Ok engine =>
      mlog INFO "Database engine created successfully." ;;;
      ret engine
  | Raise ImportError =>
      mlog ERROR "SQLAlchemy is required to use this function. Please install it first." ;;;
      (* [raise e] with no [e] bound in this handler *)
      raise UnboundLocalError
  | Raise e =>
      mlog ERROR ("Failed to create database engine. Error: " +:+ str_exn e) ;;;
      raise e
  end.

Definition query_data {D} (env : Env) (engine sql_query : string) : M D DataFrame :=
  let handler (e : exn) : M D DataFrame :=
    match e with
    | ValueError =>
        mlog ERROR ("SQL query failed. Error: " +:+ str_exn e) ;;; raise e
    | _ =>
        mlog ERROR ("An error occurred while querying the database. Error: "
                    +:+ str_exn e) ;;;
        raise e
    end in
  match read_sql_query env engine sql_query with
  | Ok df =>
      if empty df then
        mlog ERROR "The query returned an empty DataFrame." ;;;
        handler ValueError
      else
        mlog INFO "Query executed successfully." ;;;
        ret df
  | Raise e => handler e
  end.

Definition read_from_web_CSV {D} (env : Env) (URL : string) : M D DataFrame :=
  match read_csv env URL with
  | Ok df =>
      mlog INFO "CSV file read successfully from the web." ;;;
      ret df
  | Raise EmptyDataError =>
      mlog ERROR "The URL does not point to a valid CSV file. Please check the URL and try again." ;;;
      raise EmptyDataError
  | Raise e =>
      mlog ERROR ("Failed to read CSV from the web. Error: " +:+ str_exn e) ;;;
      raise e
  end.

End DataIngestion.
Export DataIngestion.

(** ** field_data_processor: class FieldDataProcessor *)

Module Field.

(** [config_params].  [columns_to_rename] is a dict read in insertion order;
    [values_to_rename] is a dict used for look-up only. *)
Record Config : Type := {
  cfg_db_path : string;
  cfg_sql_query : string;
  cfg_columns_to_rename : list (string * string);
  cfg_values_to_rename : gmap string string;
  cfg_weather_mapping_csv : string
}.

Record FieldDataProcessor : Type := {
  db_path : string;
  sql_query : string;
  columns_to_rename : list (string * string);
  values_to_rename : gmap string string;
  weather_map_data : string;
  df : option DataFrame;
  engine : option string
}.

Definition set_df (d : DataFrame) (o : FieldDataProcessor) : FieldDataProcessor :=
  {| db_path := db_path o; sql_query := sql_query o;
     columns_to_rename := columns_to_rename o;
     values_to_rename := values_to_rename o;
     weather_map_data := weather_map_data o;
     df := Some d; engine := engine o |}.

Definition set_engine (e : string) (o : FieldDataProcessor) : FieldDataProcessor :=
  {| db_path := db_path o; sql_query := sql_query o;
     columns_to_rename := columns_to_rename o;
     values_to_rename := values_to_rename o;
     weather_map_data := weather_map_data o;
     df := df o; engine := Some e |}.

Definition logger_name : string := "field_data_processor.FieldDataProcessor".

(** [FieldDataProcessor(config_params, logging_level)].  [lg] is the logger
    registered under the class's name (fresh, or as an earlier instance left
    it) and [err] the console so far. *)
Definition init (config_params : Config) (logging_level : string)
    (lg : Logger) (err : list LogRecord) : Self FieldDataProcessor :=
  {| attrs := {| db_path := cfg_db_path config_params;
                 sql_query := cfg_sql_query config_params;
                 columns_to_rename := cfg_columns_to_rename config_params;
                 values_to_rename := cfg_values_to_rename config_params;
                 weather_map_data := cfg_weather_mapping_csv config_params;
                 df := None; engine := None |};
     logger := initialize_logging lg logging_level;
     stderr := err |}.

(** [self.df] where a frame is needed; on [None] the attribute access or
    subscript raises [e]. *)
Definition the_df (e : exn) : M FieldDataProcessor DataFrame :=
  o <- gets df ;;
  match o with
  | Some d => ret d
  | None => raise e
  end.

Definition ingest_sql_data (env : Env) : M FieldDataProcessor DataFrame :=
  p <- gets db_path ;;
  e <- create_db_engine env p ;;
  modify (set_engine e) ;;;
  q <- gets sql_query ;;
  d <- query_data env e q ;;
  modify (set_df d) ;;;
  log INFO "Successfully loaded data." ;;;
  ret d.

(** The [while temp_name in self.df.columns: temp_name += "_"] loop. *)
Fixpoint temp_name_loop (fuel : nat) (temp_name : string) (cols : list string)
  : option string :=
  match fuel with
  | O => None
  | S fuel' =>
      if bool_decide (temp_name ∈ cols)
      then temp_name_loop fuel' (temp_name +:+ "_") cols
      else Some temp_name
  end.

(** The loop runs at most once per column: [S (length cols)] tests suffice
    (see [temp_name_loop_total]). *)
Definition fresh_temp_name (cols : list string) : M FieldDataProcessor string :=
  match temp_name_loop (S (length cols)) "__temp_name_for_swap__" cols with
  | Some t => ret t
  | None => raise OutOfFuel
  end.

Definition rename_columns : M FieldDataProcessor unit :=
  c <- gets columns_to_rename ;;
  (* list(keys())[0], list(values())[0] *)
  p <- match c with
       | (k, v) :: _ => ret (k, v)
       | [] => raise IndexError
       end ;;
  let column1 := fst p in
  let column2 := snd p in
  d <- the_df AttributeError ;;
  temp_name <- fresh_temp_name (columns d) ;;
  log INFO ("Swapped columns: " +:+ column1 +:+ " with " +:+ column2) ;;;
  (* the dict literal {column1: temp_name, column2: column1} *)
  modify (set_df (rename (<[column2 := column1]> {[column1 := temp_name]}) d)) ;;;
  d <- the_df AttributeError ;;
  modify (set_df (rename {[temp_name := column2]} d)).

(** [self.values_to_rename.get(crop, crop)]: the keys are strings, so only a
    string can be found. *)
Definition rename_value (m : gmap string string) (crop : cell) : cell :=
  match crop with
  | CStr s => match m !! s with Some v => CStr v | None => crop end
  | _ => crop
  end.

(** The first statement of [apply_corrections]:
    [self.df[abs_column] = self.df[abs_column].abs()]. *)
Definition correct_elevation (abs_column : string) : M FieldDataProcessor unit :=
  d <- the_df TypeError ;;
  col <- liftR (getitem abs_column d) ;;
  col' <- liftR (abs col) ;;
  d' <- liftR (setitem abs_column col' d) ;;
  modify (set_df d').

(** The second statement:
    [self.df[column_name] = self.df[column_name].apply(lambda crop: ...)]. *)
Definition correct_values (column_name : string) : M FieldDataProcessor unit :=
  d <- the_df TypeError ;;
  col <- liftR (getitem column_name d) ;;
  m <- gets values_to_rename ;;
  d' <- liftR (setitem column_name (rename_value m <$> col) d) ;;
  modify (set_df d').

Definition apply_corrections (column_name abs_column : string)
  : M FieldDataProcessor unit :=
  correct_elevation abs_column ;;;
  correct_values column_name.

Definition weather_station_mapping (env : Env) : M FieldDataProcessor DataFrame :=
  url <- gets weather_map_data ;;
  mapping_df <- read_from_web_CSV env url ;;
  d <- the_df AttributeError ;;
  d' <- liftR (merge d mapping_df "Field_ID") ;;
  modify (set_df d') ;;;
  ret d'.

Definition process (env : Env) : M FieldDataProcessor (option DataFrame) :=
  ingest_sql_data env ;;;
  rename_columns ;;;
  apply_corrections "Crop_type" "Elevation" ;;;
  weather_station_mapping env ;;;
  gets df.

End Field.

(** ** weather_data_processor: class WeatherDataProcessor *)

Module Weather.

(** [regex_patterns] is a dict iterated in insertion order: label, pattern. *)
Record Config : Type := {
  cfg_weather_csv_path : string;
  cfg_regex_patterns : list (string * string)
}.

Record WeatherDataProcessor : Type := {
  weather_station_data : string;
  patterns : list (string * string);
  weather_df : option DataFrame
}.

Definition set_weather_df (d : DataFrame) (o : WeatherDataProcessor)
  : WeatherDataProcessor :=
  {| weather_station_data := weather_station_data o;
     patterns := patterns o;
     weather_df := Some d |}.

Definition logger_name : string := "weather_data_processor.WeatherDataProcessor".

Definition init (config_params : Config) (logging_level : string)
    (lg : Logger) (err : list LogRecord) : Self WeatherDataProcessor :=
  {| attrs := {| weather_station_data := cfg_weather_csv_path config_params;
                 patterns := cfg_regex_patterns config_params;
                 weather_df := None |};
     logger := initialize_logging lg logging_level;
     stderr := err |}.

Definition weather_station_mapping (env : Env) : M WeatherDataProcessor unit :=
  url <- gets weather_station_data ;;
  d <- read_from_web_CSV env url ;;
  modify (set_weather_df d) ;;;
  log INFO "Successfully loaded weather station data from the web.".

(** [next((x for x in match.groups() if x is not None))] *)
Fixpoint first_not_none (groups : list (option string)) : option string :=
  match groups with
  | [] => None
  | Some x :: _ => Some x
  | None :: groups' => first_not_none groups'
  end.

(** The [for key, pattern in self.patterns.items()] loop of
    [extract_measurement], from the pattern list that is left. *)
Fixpoint extract_loop (env : Env) (pats : list (string * string)) (message : cell)
  : M WeatherDataProcessor (option string * option spec_float) :=
  match pats with
  | [] =>
      log DEBUG "No measurement match found." ;;;
      ret (None, None)
  | (key, pattern) :: pats' =>
      m <- liftR (match message with
                  | CStr text => re_search env pattern text
                  | _ => Raise TypeError
                  end) ;;
      match m with
      | Some groups =>
          log DEBUG ("Measurement extracted: " +:+ key) ;;;
          x <- liftR (match first_not_none groups with
                      | Some x => Ok x
                      | None => Raise StopIteration
                      end) ;;
          v <- liftR (float_of_str env x) ;;
          ret (Some key, Some v)
      | None => extract_loop env pats' message
      end
  end.

Definition extract_measurement (env : Env) (message : cell)
  : M WeatherDataProcessor (option string * option spec_float) :=
  pats <- gets patterns ;;
  extract_loop env pats message.

Definition label_cell (p : option string * option spec_float) : cell :=
  match fst p with Some k => CStr k | None => CNone end.

Definition value_cell (p : option string * option spec_float) : cell :=
  match snd p with Some v => CFloat v | None => CNone end.

Definition process_messages (env : Env) : M WeatherDataProcessor (option DataFrame) :=
  o <- gets weather_df ;;
  match o with
  | Some d =>
      msgs <- liftR (getitem "Message" d) ;;
      result <- mapM (extract_measurement env) msgs ;;
      (* zip( *result) unpacked into two targets: nothing to unpack when
         there is no row *)
      match result with
      | [] => raise ValueError
      | _ :: _ =>
          d1 <- liftR (setitem "Measurement" (label_cell <$> result) d) ;;
          modify (set_weather_df d1) ;;;
          d2 <- liftR (setitem "Value" (value_cell <$> result) d1) ;;
          modify (set_weather_df d2) ;;;
          log INFO "Messages processed and measurements extracted."
      end
  | None =>
      log WARNING "weather_df is not initialized, skipping message processing."
  end ;;;
  gets weather_df.

(** The table of means, one entry per (station, measurement) group; pandas
    lays the entries out sorted by key, and [unstack] turns the measurement
    labels into columns. The entry of a group is the mean of its values. *)
Definition Means : Type := list (cell * cell * spec_float).

Definition group_mean (env : Env) (g : group) : result (cell * cell * spec_float) :=
  let '(station, label, vs) := g in
  fs <-? numeric_values vs ;;
  Ok (station, label, match fs with [] => S754_nan | _ => np_mean env fs end).

Definition label_mean (env : Env) (g : label_group) : result (cell * spec_float) :=
  let '(label, vs) := g in
  fs <-? numeric_values vs ;;
  Ok (label, match fs with [] => S754_nan | _ => np_mean env fs end).

(** The series of means, indexed as the groups are. *)
Inductive mean_series : Type :=
| MeansByColumns (ms : list (cell * cell * spec_float))
| MeansByLabels (ms : list (cell * spec_float)).

(** [.mean()] *)
Definition mean (env : Env) (g : grouped) : result mean_series :=
  match g with
  | ByColumns gs => ms <-? rmapM (group_mean env) gs ;; Ok (MeansByColumns ms)
  | ByLabels gs => ms <-? rmapM (label_mean env) gs ;; Ok (MeansByLabels ms)
  end.

(** [means.unstack()]: the inner level of a two-level index becomes the
    columns; a one-level index cannot be unstacked ([ValueError]). *)
Definition unstack (m : mean_series) : result Means :=
  match m with
  | MeansByColumns ms => Ok ms
  | MeansByLabels _ => Raise ValueError
  end.

Definition calculate_means (env : Env) : M WeatherDataProcessor (option Means) :=
  o <- gets weather_df ;;
  match o with
  | Some d =>
      gs <- liftR (groupby "Weather_station_ID" "Measurement" "Value" d) ;;
      means <- liftR (mean env gs) ;;
      log INFO "Mean values calculated." ;;;
      table <- liftR (unstack means) ;;
      ret (Some table)
  | None =>
      log WARNING "weather_df is not initialized, cannot calculate means." ;;;
      ret None
  end.

Definition process (env : Env) : M WeatherDataProcessor (option DataFrame) :=
  weather_station_mapping env ;;;
  process_messages env ;;;
  log INFO "Data processing completed." ;;;
  gets weather_df.

(** The pipeline as the specification words it: load, then per-message
    extraction, then the means aggregation, returning the per-message
    dataset. *)
Definition process_as_specified (env : Env)
  : M WeatherDataProcessor (option DataFrame) :=
  weather_station_mapping env ;;;
  process_messages env ;;;
  calculate_means env ;;;
  log INFO "Data processing completed." ;;;
  gets weather_df.

End Weather.

(** * Auxiliary definitions for the statements *)

Section FieldAux.

Import Field.

(** The columns at least as long as the candidate name: each failed test of
    the loop takes one of them out of the count. *)
Definition n_long (t : string) (cols : list string) : nat :=
  length (filter (fun c => String.length t <= String.length c) cols).

(** Exchange of two labels. *)
Definition swap_label (a b c : string) : string :=
  if bool_decide (c = a) then b else if bool_decide (c = b) then a else c.

(** The two [rename] calls, on a label of the frame. *)
Definition relabel (a b t c : string) : string :=
  default (default c ((<[b := a]> {[a := t]} : gmap string string) !! c))
          (({[t := b]} : gmap string string)
             !! default c ((<[b := a]> {[a := t]} : gmap string string) !! c)).

(** Example data: a field table whose two yield/crop labels are swapped. *)
Definition fields_ex : DataFrame :=
  {| columns := ["Field_ID"; "Elevation"; "Annual_yield"; "Crop_type"];
     rows := [[CInt 1; CFloat (float_of_int (-5)); CStr "cassava"; CFloat (float_of_int 2)];
              [CInt 2; CFloat (float_of_int 10); CStr "wheatn"; CFloat (float_of_int 3)]] |}.

Definition field_config_ex : Config :=
  {| cfg_db_path := "sqlite:///Maji_Ndogo_farm_survey_small.db";
     cfg_sql_query := "SELECT * FROM geographic_features";
     cfg_columns_to_rename := [("Annual_yield", "Crop_type"); ("Crop_type", "Annual_yield")];
     cfg_values_to_rename := <["wheatn" := "wheat"]> {["cassaval" := "cassava"]};
     cfg_weather_mapping_csv := "https://example.org/Weather_data_field_mapping.csv" |}.

Definition holding (d : DataFrame) (s : Self FieldDataProcessor)
  : Self FieldDataProcessor :=
  {| attrs := set_df d (attrs s); logger := logger s; stderr := stderr s |}.

Definition field_ex : Self FieldDataProcessor :=
  holding fields_ex (init field_config_ex "INFO" (fresh_logger logger_name) []).

(** A table that lacks the configured column [Annual_yield]. *)
Definition no_yield_ex : DataFrame :=
  {| columns := ["Field_ID"; "Elevation"; "Crop_type"];
     rows := [[CInt 1; CInt (-5); CStr "cassava"]] |}.

(** Invariants of a frame the program can hold: labels are unique, every row
    has one cell per column, and an integer cell is an [int64]. *)
Definition wf_cell (c : cell) : bool :=
  match c with CInt z => in_int64 z | _ => true end.

Definition well_formed (d : DataFrame) : bool :=
  bool_decide (NoDup (columns d))
  && forallb (fun r => (length r =? length (columns d)) && forallb wf_cell r)
             (rows d).

(** The cell in row [i], column position [j]. *)
Definition cell_at (d : DataFrame) (i j : nat) : option cell :=
  match rows d !! i with
  | Some r => r !! j
  | None => None
  end.

(** [d'] differs from [d] at most in the columns whose label satisfies [P]:
    same labels in the same order, same number of rows, and the same cell at
    every row of every other column. *)
Definition unchanged_outside (P : string -> Prop) (d d' : DataFrame) : Prop :=
  columns d' = columns d /\
  length (rows d') = length (rows d) /\
  forall i j c, columns d !! j = Some c -> ~ P c ->
                cell_at d' i j = cell_at d i j.

(** Overwriting the column at position [i]. *)
Definition set_col (i : nat) (values : list cell) (d : DataFrame) : DataFrame :=
  {| columns := columns d;
     rows := zip_with (fun r v => <[i:=v]> r) (rows d) values |}.

(** The frame after both statements have run. *)
Definition corrected (m : gmap string string) (i j : nat) (v' : list cell)
    (d : DataFrame) : DataFrame :=
  set_col j (rename_value m <$> iloc_col j (set_col i v' d)) (set_col i v' d).

(** The field table once its labels are right. *)
Definition crops_ex : DataFrame :=
  {| columns := ["Field_ID"; "Elevation"; "Crop_type"; "Annual_yield"];
     rows := [[CInt 1; CFloat (float_of_int (-5)); CStr "cassaval"; CFloat (float_of_int 2)];
              [CInt 2; CFloat (float_of_int 10); CStr "wheatn"; CFloat (float_of_int 3)];
              [CInt 3; CFloat (float_of_int (-7)); CStr "maize"; CFloat (float_of_int 1)]] |}.

(** The join key of a row of [d]. *)
Definition key_cell (on : string) (d : DataFrame) (r : list cell) : cell :=
  match get_loc on d with
  | Ok i => key_of i r
  | Raise _ => CNone
  end.

(** The rows of [right] whose key equals that of the row [l] of [left]. *)
Definition partners (on : string) (left right : DataFrame) (l : list cell)
  : list (list cell) :=
  List.filter (fun r => key_eqb (key_cell on left l) (key_cell on right r))
              (rows right).

(** The key column of a frame. *)
Definition key_column (on : string) (d : DataFrame) : list cell :=
  match get_loc on d with
  | Ok i => iloc_col i d
  | Raise _ => []
  end.

#[global] Instance spec_float_eq_dec : EqDecision spec_float :=
  ltac:(solve_decision).

#[global] Instance cell_eq_dec : EqDecision cell := ltac:(solve_decision).

(** The key of the row [l] of [left] occurs in the key column of [right]. *)
Definition matched (on : string) (left right : DataFrame) (l : list cell) : bool :=
  bool_decide (key_cell on left l ∈ key_column on right).

(** How often the value [k] occurs in a column. *)
Definition occurrences (k : cell) (col : list cell) : nat :=
  length (List.filter (fun c => bool_decide (c = k)) col).

(** The keys of the two frames are of one type, all integers or all text,
    and the left frame has a row. *)
Definition keys_comparable (on : string) (left right : DataFrame) : bool :=
  negb (length (rows left) =? 0)
  && ((forallb is_int (key_column on left) && forallb is_int (key_column on right))
      || (forallb is_text (key_column on left)
          && forallb is_text (key_column on right))).

(** Station mappings: a complete one, one that lacks field 3, and one that
    lists field 1 twice. *)
Definition mapping_ex : DataFrame :=
  {| columns := ["Field_ID"; "Weather_station_ID"];
     rows := [[CInt 1; CInt 4]; [CInt 2; CInt 0]] |}.

Definition mapping_dup_ex : DataFrame :=
  {| columns := ["Field_ID"; "Weather_station_ID"];
     rows := [[CInt 1; CInt 4]; [CInt 1; CInt 0]; [CInt 2; CInt 0]] |}.

(** A plain float64 mean: the left-to-right sum divided by the count. *)
Definition naive_mean (fs : list spec_float) : spec_float :=
  SFdiv 53 1024 (fold_left (SFadd 53 1024) fs (float_of_int 0))
        (float_of_int (Z.of_nat (length fs))).

Definition env_ex (mapping : DataFrame) : Env :=
  {| create_engine := fun p => Ok p;
     read_sql_query := fun _ _ => Ok fields_ex;
     read_csv := fun _ => Ok mapping;
     re_search := fun _ _ => Ok None;
     float_of_str := fun _ => Raise ValueError;
     np_mean := naive_mean |}.

End FieldAux.

(** ** Properties of method bodies *)

(** Outcome and attributes after the run depend on the attributes before
    only: neither the logger nor the console is read. *)
Definition data_only {D A} (m : M D A) : Prop :=
  forall s1 s2, attrs s1 = attrs s2 ->
    fst (m s1) = fst (m s2) /\ attrs (snd (m s1)) = attrs (snd (m s2)).

(** The run leaves the attributes of [self] as they are. *)
Definition keeps_attrs {D A} (m : M D A) : Prop :=
  forall s, attrs (snd (m s)) = attrs s.

(** The run only appends to the console, lines that satisfy [P], and leaves
    the logger as it is. *)
Definition logs_only {D A} (P : LogRecord -> Prop) (m : M D A) : Prop :=
  forall s, logger (snd (m s)) = logger s /\
            exists new, stderr (snd (m s)) = stderr s ++ new /\ Forall P new.

(** A console line that is not the one [calculate_means] writes. *)
Definition not_means_line (r : LogRecord) : Prop :=
  rec_msg r <> "Mean values calculated.".

Section WeatherAux.

Import Weather.

(** The instance with row [k] of its dataset taken out. *)
Definition without_row (k : nat) (s : Self WeatherDataProcessor)
  : Self WeatherDataProcessor :=
  match weather_df (attrs s) with
  | Some d =>
      {| attrs := set_weather_df {| columns := columns d;
                                    rows := delete k (rows d) |} (attrs s);
         logger := logger s; stderr := stderr s |}
  | None => s
  end.

(** Example data: the patterns of the project's configuration, three
    station messages, and what [re.search] and [float] answer on them. The
    first message matches both the rainfall and the temperature pattern, the
    last one matches none. *)
Definition rainfall_re : string := "(\d+(\.\d+)?)\s?mm".
Definition temperature_re : string := "(\d+(\.\d+)?)\s?C".
Definition pollution_re : string :=
  "=\s*(-?\d+(\.\d+)?)|Pollution at \s*(-?\d+(\.\d+)?)".

Definition weather_config_ex : Config :=
  {| cfg_weather_csv_path := "https://example.org/Weather_station_data.csv";
     cfg_regex_patterns := [("Rainfall", rainfall_re);
                            ("Temperature", temperature_re);
                            ("Pollution_level", pollution_re)] |}.

Definition msg_both : string := "Rain 12.5mm fell while it was 21C".
Definition msg_pollution : string := "Air quality: Pollution at 0.4".
Definition msg_none : string := "Sensor offline".

Definition messages_ex : DataFrame :=
  {| columns := ["Weather_station_ID"; "Message"];
     rows := [[CInt 0; CStr msg_both];
              [CInt 0; CStr msg_pollution];
              [CInt 1; CStr msg_none]] |}.

(** Messages that come without a station column. *)
Definition messages_only_ex : DataFrame :=
  {| columns := ["Message"]; rows := [[CStr msg_both]; [CStr msg_none]] |}.

(** A fetched table with its header and no row. *)
Definition header_only_ex : DataFrame :=
  {| columns := ["Weather_station_ID"; "Message"]; rows := [] |}.

Definition re_search_ex (pattern text : string)
  : result (option (list (option string))) :=
  if bool_decide (text = msg_both) then
    if bool_decide (pattern = rainfall_re) then Ok (Some [Some "12.5"; Some ".5"])
    else if bool_decide (pattern = temperature_re) then Ok (Some [Some "21"; None])
    else Ok None
  else if bool_decide (text = msg_pollution) then
    if bool_decide (pattern = pollution_re)
    then Ok (Some [None; None; Some "0.4"; Some ".4"])
    else Ok None
  else Ok None.

Definition float_of_str_ex (text : string) : result spec_float :=
  if bool_decide (text = "12.5") then Ok (binary_normalize 53 1024 25 (-1) false)
  else if bool_decide (text = "21") then Ok (float_of_int 21)
  else if bool_decide (text = "0.4")
       then Ok (S754_finite false 7205759403792794 (-54))
  else Raise ValueError.

Definition weather_env_ex (fetched : DataFrame) : Env :=
  {| create_engine := fun p => Ok p;
     read_sql_query := fun _ _ => Raise (SourceError "no database");
     read_csv := fun _ => Ok fetched;
     re_search := re_search_ex;
     float_of_str := float_of_str_ex;
     np_mean := naive_mean |}.

Definition weather_ex : Self WeatherDataProcessor :=
  init weather_config_ex "INFO" (fresh_logger logger_name) [].

End WeatherAux.

(** ** Further example data *)

Section MoreExamples.

(** An environment given by what the database and the web answer. *)
Definition env_of (engine : result string) (queried fetched : result DataFrame)
  : Env :=
  {| create_engine := fun _ => engine;
     read_sql_query := fun _ _ => queried;
     read_csv := fun _ => fetched;
     re_search := re_search_ex;
     float_of_str := float_of_str_ex;
     np_mean := naive_mean |}.

(** A freshly constructed field processor. *)
Definition field_new_ex : Self Field.FieldDataProcessor :=
  Field.init field_config_ex "INFO" (fresh_logger Field.logger_name) [].

(** The configuration with another list of column pairs. *)
Definition with_columns_to_rename (c : list (string * string))
    (s : Self Field.FieldDataProcessor) : Self Field.FieldDataProcessor :=
  {| attrs := {| Field.db_path := Field.db_path (attrs s);
                 Field.sql_query := Field.sql_query (attrs s);
                 Field.columns_to_rename := c;
                 Field.values_to_rename := Field.values_to_rename (attrs s);
                 Field.weather_map_data := Field.weather_map_data (attrs s);
                 Field.df := Field.df (attrs s);
                 Field.engine := Field.engine (attrs s) |};
     logger := logger s; stderr := stderr s |}.

(** A field table whose elevation column holds text. *)
Definition bad_elevation_ex : DataFrame :=
  {| columns := ["Field_ID"; "Elevation"; "Crop_type"];
     rows := [[CInt 1; CStr "high"; CStr "cassaval"]] |}.

(** A mapping with one station for each of the three fields. *)
Definition mapping_full_ex : DataFrame :=
  {| columns := ["Field_ID"; "Weather_station_ID"];
     rows := [[CInt 3; CInt 2]; [CInt 1; CInt 4]; [CInt 2; CInt 0]] |}.

(** A weather processor holding a dataset. *)
Definition weather_holding (d : DataFrame) (s : Self Weather.WeatherDataProcessor)
  : Self Weather.WeatherDataProcessor :=
  {| attrs := Weather.set_weather_df d (attrs s);
     logger := logger s; stderr := stderr s |}.

(** A loose rainfall pattern, and a message whose reading it captures as
    text that is no number for [float]; the temperature pattern would match
    the same message. *)
Definition loose_re : string := "([0-9.]+)\s?mm".
Definition msg_malformed : string := "Rain 1.2.3mm at 21C".

Definition re_search_loose (pattern text : string)
  : result (option (list (option string))) :=
  if bool_decide (text = msg_malformed) then
    if bool_decide (pattern = loose_re) then Ok (Some [Some "1.2.3"])
    else if bool_decide (pattern = temperature_re) then Ok (Some [Some "21"; None])
    else Ok None
  else re_search_ex pattern text.

Definition weather_env_loose (fetched : DataFrame) : Env :=
  {| create_engine := fun p => Ok p;
     read_sql_query := fun _ _ => Raise (SourceError "no database");
     read_csv := fun _ => Ok fetched;
     re_search := re_search_loose;
     float_of_str := float_of_str_ex;
     np_mean := naive_mean |}.

Definition weather_loose_ex : Self Weather.WeatherDataProcessor :=
  Weather.init {| Weather.cfg_weather_csv_path := "https://example.org/w.csv";
                  Weather.cfg_regex_patterns := [("Rainfall", loose_re);
                                                 ("Temperature", temperature_re)] |}
               "DEBUG" (fresh_logger Weather.logger_name) [].

(** Two messages, the second with the malformed reading. *)
Definition messages_malformed_ex : DataFrame :=
  {| columns := ["Weather_station_ID"; "Message"];
     rows := [[CInt 0; CStr msg_none]; [CInt 1; CStr msg_malformed];
              [CInt 1; CStr msg_none]] |}.

(** Station messages, the station of the second one unknown. *)
Definition messages_null_station_ex : DataFrame :=
  {| columns := ["Weather_station_ID"; "Message"; "Measurement"; "Value"];
     rows := [[CInt 0; CStr msg_both; CStr "Rainfall";
               CFloat (binary_normalize 53 1024 25 (-1) false)];
              [CFloat S754_nan; CStr msg_both; CStr "Rainfall";
               CFloat (float_of_int 21)]] |}.

End MoreExamples.

(** ** Join keys of one type, and an ambiguous message *)

Section KeyTypes.

(** A message that the pollution pattern and the rainfall pattern both
    match; the pollution pattern matches through its second alternative, so
    its first two groups are [None]. *)
Definition msg_ambiguous : string := "Pollution at 0.4 after 3mm of rain".

Definition re_search_ambiguous (pattern text : string)
  : result (option (list (option string))) :=
  if bool_decide (text = msg_ambiguous) then
    if bool_decide (pattern = pollution_re)
    then Ok (Some [None; None; Some "0.4"; Some ".4"])
    else if bool_decide (pattern = rainfall_re) then Ok (Some [Some "3"; None])
    else Ok None
  else re_search_ex pattern text.

Definition weather_env_ambiguous : Env :=
  {| create_engine := fun p => Ok p;
     read_sql_query := fun _ _ => Raise (SourceError "no database");
     read_csv := fun _ => Ok messages_ex;
     re_search := re_search_ambiguous;
     float_of_str := float_of_str_ex;
     np_mean := naive_mean |}.

(** Pollution is listed before rainfall, temperature before both. *)
Definition weather_rainfall_last_ex : Self Weather.WeatherDataProcessor :=
  Weather.init {| Weather.cfg_weather_csv_path := "https://example.org/w.csv";
                  Weather.cfg_regex_patterns := [("Temperature", temperature_re);
                                                 ("Pollution_level", pollution_re);
                                                 ("Rainfall", rainfall_re)] |}
               "INFO" (fresh_logger Weather.logger_name) [].

(** Two readings of one station that have a value column and no
    [Measurement] column. *)
Definition two_rows_ex : DataFrame :=
  {| columns := ["Weather_station_ID"; "Message"; "Value"];
     rows := [[CInt 0; CStr msg_both; CFloat (float_of_int 10)];
              [CInt 0; CStr msg_none; CFloat (float_of_int 20)]] |}.

End KeyTypes.

(** * Properties *)

(** ** Running method bodies *)

Lemma bind_ok {D A B} (m : M D A) (k : A -> M D B) s a s' :
  m s = (Ok a, s') -> bind m k s = k a s'.
Proof. intros H. unfold bind. now rewrite H. Qed.

Lemma bind_raise {D A B} (m : M D A) (k : A -> M D B) s e s' :
  m s = (Raise e, s') -> bind m k s = (Raise e, s').
Proof. intros H. unfold bind. now rewrite H. Qed.

Lemma bind_inv_ok {D A B} (m : M D A) (k : A -> M D B) s b s'' :
  bind m k s = (Ok b, s'') ->
  exists a s', m s = (Ok a, s') /\ k a s' = (Ok b, s'').
Proof.
  unfold bind. destruct (m s) as [[a|e] s'] eqn:E; intros H.
  - now exists a, s'.
  - discriminate.
Qed.

(** ** The column swap *)

Section Swap.

Import Field.

Lemma string_length_append (s t : string) :
  String.length (s +:+ t) = String.length s + String.length t.
Proof. induction s as [|a s IH]; simpl; [reflexivity | now rewrite IH]. Qed.

Lemma n_long_step (t : string) (cols : list string) :
  t ∈ cols -> n_long (t +:+ "_") cols < n_long t cols.
Proof.
  unfold n_long. induction cols as [|c cols IH]; intros Hin.
  - inversion Hin.
  - rewrite !filter_cons, string_length_append. simpl.
    assert (Hmono : length (filter (fun c => String.length t + 1 <= String.length c) cols)
                    <= length (filter (fun c => String.length t <= String.length c) cols)).
    { clear. induction cols as [|c cols IH]; [reflexivity|].
      rewrite !filter_cons. repeat case_decide; simpl; lia. }
    apply elem_of_cons in Hin as [->|Hin].
    + repeat case_decide; simpl; lia.
    + specialize (IH Hin). rewrite string_length_append in IH. simpl in IH.
      repeat case_decide; simpl; lia.
Qed.

Lemma temp_name_loop_enough (cols : list string) (fuel : nat) (t : string) :
  n_long t cols < fuel ->
  exists r, temp_name_loop fuel t cols = Some r /\ (r ∉ cols).
Proof.
  revert t. induction fuel as [|fuel IH]; intros t Hlt; [lia|].
  simpl. case_bool_decide as Hin.
  - apply IH. pose proof (n_long_step t cols Hin). lia.
  - now exists t.
Qed.

(** The loop always finds a name that is no column of the frame. *)
Lemma temp_name_loop_total (cols : list string) (t : string) :
  exists r, temp_name_loop (S (length cols)) t cols = Some r /\ (r ∉ cols).
Proof.
  apply temp_name_loop_enough. unfold n_long.
  pose proof (length_filter (fun c => String.length t <= String.length c) cols).
  lia.
Qed.

Lemma relabel_swap (a b t c : string) :
  c <> t -> a <> t -> relabel a b t c = swap_label a b c.
Proof.
  intros Hc Ha. unfold relabel, swap_label.
  destruct (decide (c = b)) as [->|Hcb].
  - rewrite lookup_insert_eq. simpl.
    rewrite lookup_singleton_ne by congruence. simpl.
    repeat case_bool_decide; congruence.
  - rewrite lookup_insert_ne by congruence.
    destruct (decide (c = a)) as [->|Hca].
    + rewrite lookup_singleton_eq. simpl. rewrite lookup_singleton_eq. simpl.
      repeat case_bool_decide; congruence.
    + rewrite lookup_singleton_ne by congruence. simpl.
      rewrite lookup_singleton_ne by congruence. simpl.
      repeat case_bool_decide; congruence.
Qed.

Lemma relabel_other (a b t c : string) :
  c <> t -> c <> a -> c <> b -> relabel a b t c = c.
Proof.
  intros Hc Ha Hb. unfold relabel.
  rewrite lookup_insert_ne by congruence.
  rewrite lookup_singleton_ne by congruence. simpl.
  now rewrite lookup_singleton_ne by congruence.
Qed.

Lemma rename_rename_columns (a b t : string) (d : DataFrame) :
  rename {[t := b]} (rename (<[b := a]> {[a := t]}) d)
  = {| columns := relabel a b t <$> columns d; rows := rows d |}.
Proof.
  unfold rename. simpl. f_equal.
  rewrite <- list_fmap_compose. reflexivity.
Qed.

(** What one call of [rename_columns] does when the instance holds a frame
    and the configuration names a pair. *)
Lemma rename_columns_run (s : Self FieldDataProcessor) (d : DataFrame)
    (a b : string) (rest : list (string * string)) :
  df (attrs s) = Some d ->
  columns_to_rename (attrs s) = (a, b) :: rest ->
  exists t,
    (t ∉ columns d) /\
    rename_columns s =
      (Ok tt,
       {| attrs := set_df {| columns := relabel a b t <$> columns d;
                             rows := rows d |} (attrs s);
          logger := logger s;
          stderr := stderr s
                    ++ emit (logger s) INFO
                         ("Swapped columns: " +:+ a +:+ " with " +:+ b) |}).
Proof.
  intros Hdf Hcfg.
  destruct (temp_name_loop_total (columns d) "__temp_name_for_swap__")
    as (t & Ht & Hfresh).
  exists t. split; [exact Hfresh|].
  unfold rename_columns, bind, gets, the_df, bind, gets, fresh_temp_name.
  rewrite Hcfg. cbn [ret fst snd]. rewrite Hdf. cbn [ret].
  rewrite Ht. cbn [ret log modify attrs logger stderr set_df df].
  rewrite rename_rename_columns. destruct s as [o lg err]. simpl.
  reflexivity.
Qed.

Lemma swap_label_involutive (a b c : string) :
  swap_label a b (swap_label a b c) = c.
Proof. unfold swap_label. repeat case_bool_decide; congruence. Qed.

Lemma relabel_swap_columns (a b t : string) (cols : list string) :
  t ∉ cols -> a ∈ cols ->
  relabel a b t <$> cols = swap_label a b <$> cols.
Proof.
  intros Ht Ha. apply list_fmap_ext. intros i c Hc.
  apply relabel_swap.
  - intros ->. apply Ht. eapply list_elem_of_lookup_2; eauto.
  - intros ->. now apply Ht.
Qed.

(** C4: on a dataset that has both configured columns, [rename_columns]
    exchanges the two labels (data and column order stay), and a second call
    gives back the instance's attributes as they were: the swap is an
    involution. *)
Theorem rename_columns_involution (s : Self FieldDataProcessor) (d : DataFrame)
    (a b : string) (rest : list (string * string)) :
  df (attrs s) = Some d ->
  columns_to_rename (attrs s) = (a, b) :: rest ->
  a ∈ columns d ->
  b ∈ columns d ->
  exists s1 s2,
    rename_columns s = (Ok tt, s1) /\
    df (attrs s1) = Some {| columns := swap_label a b <$> columns d;
                            rows := rows d |} /\
    rename_columns s1 = (Ok tt, s2) /\
    attrs s2 = attrs s.
Proof.
  intros Hdf Hcfg Ha Hb.
  destruct (rename_columns_run s d a b rest Hdf Hcfg) as (t & Ht & Hrun).
  rewrite (relabel_swap_columns a b t (columns d) Ht Ha) in Hrun.
  eexists. 
  edestruct (rename_columns_run
               {| attrs := set_df {| columns := swap_label a b <$> columns d;
                                     rows := rows d |} (attrs s);
                  logger := logger s;
                  stderr := stderr s
                            ++ emit (logger s) INFO
                                 ("Swapped columns: " +:+ a +:+ " with " +:+ b) |}
               {| columns := swap_label a b <$> columns d; rows := rows d |}
               a b rest eq_refl Hcfg) as (t' & Ht' & Hrun').
  cbn [columns rows attrs logger stderr] in Ht', Hrun'.
  assert (Ha' : a ∈ swap_label a b <$> columns d).
  { apply list_elem_of_fmap. exists b. split; [|exact Hb].
    unfold swap_label. repeat case_bool_decide; congruence. }
  rewrite (relabel_swap_columns a b t' _ Ht' Ha') in Hrun'.
  eexists. split; [exact Hrun|]. split; [reflexivity|].
  split; [exact Hrun'|].
  cbn [attrs].
  assert (Hcols : swap_label a b <$> (swap_label a b <$> columns d) = columns d).
  { rewrite <- list_fmap_compose. rewrite <- (list_fmap_id (columns d)) at 2.
    apply list_fmap_ext. intros i c _. apply swap_label_involutive. }
  rewrite Hcols.
  destruct s as [[] lg err]. simpl in *. subst. destruct d. reflexivity.
Qed.

Lemma rename_columns_involution_witness :
  exists s1 s2,
    rename_columns field_ex = (Ok tt, s1) /\
    df (attrs s1) = Some {| columns := swap_label "Annual_yield" "Crop_type"
                                         <$> columns fields_ex;
                            rows := rows fields_ex |} /\
    rename_columns s1 = (Ok tt, s2) /\
    attrs s2 = attrs field_ex.
Proof.
  apply (rename_columns_involution field_ex fields_ex "Annual_yield" "Crop_type"
           [("Crop_type", "Annual_yield")]).
  - reflexivity.
  - reflexivity.
  - apply (bool_decide_unpack _). vm_compute. exact I.
  - apply (bool_decide_unpack _). vm_compute. exact I.
Defined.

(** C1, as stated, fails: with the configured column [Annual_yield] absent
    from the dataset, [rename_columns] raises nothing; it returns normally,
    having relabelled [Crop_type]. *)
Lemma rename_columns_missing_column_no_error :
  df (attrs (holding no_yield_ex field_ex)) = Some no_yield_ex /\
  columns_to_rename (attrs (holding no_yield_ex field_ex))
    = [("Annual_yield", "Crop_type"); ("Crop_type", "Annual_yield")] /\
  ("Annual_yield" ∉ columns no_yield_ex) /\
  fst (rename_columns (holding no_yield_ex field_ex)) = Ok tt /\
  df (attrs (snd (rename_columns (holding no_yield_ex field_ex))))
    = Some {| columns := ["Field_ID"; "Elevation"; "Annual_yield"];
              rows := rows no_yield_ex |}.
Proof.
  split; [reflexivity|]. split; [reflexivity|].
  split; [|split; vm_compute; reflexivity].
  apply (bool_decide_unpack _). vm_compute. exact I.
Qed.

(** C1, amended: when a configured swap column is absent from the dataset (as
    in every other case) [rename_columns] completes without raising; the
    rows, the number of columns, and every label other than the two
    configured names are left as they were. *)
Theorem rename_columns_absent_completes (s : Self FieldDataProcessor)
    (d : DataFrame) (a b : string) (rest : list (string * string)) :
  df (attrs s) = Some d ->
  columns_to_rename (attrs s) = (a, b) :: rest ->
  (a ∉ columns d) \/ (b ∉ columns d) ->
  exists s' d',
    rename_columns s = (Ok tt, s') /\
    df (attrs s') = Some d' /\
    rows d' = rows d /\
    length (columns d') = length (columns d) /\
    forall i c, columns d !! i = Some c -> c <> a -> c <> b ->
                columns d' !! i = Some c.
Proof.
  intros Hdf Hcfg _.
  destruct (rename_columns_run s d a b rest Hdf Hcfg) as (t & Ht & Hrun).
  eexists. eexists. split; [exact Hrun|]. cbn [attrs df set_df columns rows].
  split; [reflexivity|]. split; [reflexivity|].
  split; [cbn [columns]; now rewrite length_fmap|].
  intros i c Hi Hca Hcb. cbn [columns]. rewrite list_lookup_fmap, Hi. simpl. f_equal.
  apply relabel_other; [|assumption|assumption].
  intros ->. apply Ht. eapply list_elem_of_lookup_2; eauto.
Qed.

Lemma rename_columns_absent_completes_witness :
  exists s' d',
    rename_columns (holding no_yield_ex field_ex) = (Ok tt, s') /\
    df (attrs s') = Some d' /\
    rows d' = rows no_yield_ex /\
    length (columns d') = length (columns no_yield_ex) /\
    forall i c, columns no_yield_ex !! i = Some c ->
                c <> "Annual_yield" -> c <> "Crop_type" ->
                columns d' !! i = Some c.
Proof.
  apply (rename_columns_absent_completes (holding no_yield_ex field_ex)
           no_yield_ex "Annual_yield" "Crop_type"
           [("Crop_type", "Annual_yield")]).
  - reflexivity.
  - reflexivity.
  - left. apply (bool_decide_unpack _). vm_compute. exact I.
Defined.

End Swap.

(** ** Reading and writing columns *)

Section Columns.

Lemma get_loc_Ok (name : string) (d : DataFrame) (i : nat) :
  get_loc name d = Ok i <->
  list_find (fun c => c = name) (columns d) = Some (i, name).
Proof.
  unfold get_loc. destruct (list_find _ _) as [[j c]|] eqn:E.
  - apply list_find_Some in E as E'. destruct E' as (_ & -> & _).
    split; intros H; inversion H; subst; reflexivity.
  - split; intros H; discriminate.
Qed.

Lemma get_loc_lookup (name : string) (d : DataFrame) (i : nat) :
  get_loc name d = Ok i -> columns d !! i = Some name.
Proof. intros H. apply get_loc_Ok in H. now apply list_find_Some in H. Qed.

Lemma setitem_existing (name : string) (v : list cell) (d : DataFrame) (i : nat) :
  get_loc name d = Ok i ->
  setitem name v d = if length v =? length (rows d) then Ok (set_col i v d)
                     else Raise ValueError.
Proof.
  intros H. apply get_loc_Ok in H. unfold setitem. now rewrite H.
Qed.

Lemma length_zip_insert (i : nat) (rs : list (list cell)) (v : list cell) :
  length v = length rs ->
  length (zip_with (fun r x => <[i:=x]> r) rs v) = length rs.
Proof. intros H. rewrite length_zip_with. lia. Qed.

Lemma lookup_zip_insert (i k : nat) (rs : list (list cell)) (v : list cell) :
  length v = length rs ->
  zip_with (fun r x => <[i:=x]> r) rs v !! k
  = match rs !! k, v !! k with
    | Some r, Some x => Some (<[i:=x]> r)
    | _, _ => None
    end.
Proof.
  rewrite lookup_zip_with. intros _.
  destruct (rs !! k); simpl; [|reflexivity]. now destruct (v !! k).
Qed.

Lemma set_col_unchanged (name : string) (i : nat) (v : list cell) (d : DataFrame) :
  columns d !! i = Some name ->
  length v = length (rows d) ->
  unchanged_outside (fun c => c = name) d (set_col i v d).
Proof.
  intros Hi Hlen. unfold unchanged_outside, set_col, cell_at. simpl.
  split; [reflexivity|]. split; [now apply length_zip_insert|].
  intros k j c Hj Hc. rewrite lookup_zip_insert by assumption.
  destruct (rows d !! k) as [r|] eqn:Hr; [|reflexivity].
  destruct (v !! k) as [x|] eqn:Hx.
  - apply list_lookup_insert_ne. intros ->. congruence.
  - apply lookup_lt_Some in Hr. apply lookup_ge_None in Hx. lia.
Qed.

Lemma unchanged_outside_refl (P : string -> Prop) (d : DataFrame) :
  unchanged_outside P d d.
Proof. repeat split. Qed.

Lemma unchanged_outside_trans (P : string -> Prop) (d1 d2 d3 : DataFrame) :
  unchanged_outside P d1 d2 -> unchanged_outside P d2 d3 ->
  unchanged_outside P d1 d3.
Proof.
  intros (Hc1 & Hl1 & H1) (Hc2 & Hl2 & H2). repeat split.
  - congruence.
  - congruence.
  - intros i j c Hj HP. rewrite (H2 i j c); [now apply (H1 i j c)|congruence|assumption].
Qed.

Lemma unchanged_outside_weaken (P Q : string -> Prop) (d d' : DataFrame) :
  (forall c, P c -> Q c) -> unchanged_outside P d d' -> unchanged_outside Q d d'.
Proof.
  intros HPQ (Hc & Hl & H). repeat split; [assumption..|].
  intros i j c Hj HQ. apply (H i j c Hj). intros HP. apply HQ, HPQ, HP.
Qed.

(** Reading back the column that was just written. *)
Lemma iloc_col_set_col_same (i : nat) (v : list cell) (d : DataFrame) :
  length v = length (rows d) ->
  Forall (fun r => i < length r) (rows d) ->
  iloc_col i (set_col i v d) = v.
Proof.
  unfold iloc_col, set_col. simpl. destruct d as [cols rs]. simpl.
  revert v. induction rs as [|r rs IH]; intros [|x v] Hlen Hall;
    simpl in *; try discriminate; [reflexivity|].
  inversion Hall; subst. f_equal.
  - now rewrite list_lookup_insert_eq.
  - apply IH; [lia|assumption].
Qed.

Lemma iloc_col_set_col_other (i j : nat) (v : list cell) (d : DataFrame) :
  i <> j ->
  length v = length (rows d) ->
  iloc_col j (set_col i v d) = iloc_col j d.
Proof.
  unfold iloc_col, set_col. simpl. destruct d as [cols rs]. simpl.
  revert v. induction rs as [|r rs IH]; intros [|x v] Hne Hlen;
    simpl in *; try discriminate; [reflexivity|].
  f_equal.
  - now rewrite list_lookup_insert_ne.
  - apply IH; [assumption|lia].
Qed.

Lemma length_iloc_col (i : nat) (d : DataFrame) :
  length (iloc_col i d) = length (rows d).
Proof. unfold iloc_col. apply length_fmap. Qed.

Lemma get_loc_of_elem (name : string) (d : DataFrame) :
  name ∈ columns d -> exists i, get_loc name d = Ok i.
Proof.
  intros Hin. unfold get_loc.
  destruct (list_find (fun c => c = name) (columns d)) as [[i c]|] eqn:E.
  - now exists i.
  - exfalso. apply list_find_None in E. rewrite List.Forall_forall in E.
    apply (E name); [now apply list_elem_of_In|reflexivity].
Qed.

Lemma get_loc_not_elem (name : string) (d : DataFrame) :
  name ∉ columns d -> get_loc name d = Raise (KeyError name).
Proof.
  intros Hnotin. unfold get_loc.
  destruct (list_find (fun c => c = name) (columns d)) as [[j c]|] eqn:E;
    [|reflexivity].
  apply list_find_Some in E as (Hj & -> & _). exfalso. apply Hnotin.
  eapply list_elem_of_lookup_2; eauto.
Qed.

End Columns.

(** ** apply_corrections *)

Section Corrections.

Import Field.

Lemma rmapM_length {A B} (f : A -> result B) (l : list A) (l' : list B) :
  rmapM f l = Ok l' -> length l' = length l.
Proof.
  revert l'. induction l as [|a l IH]; intros l' H; simpl in H.
  - now inversion H.
  - destruct (f a) as [b|e]; simpl in H; [|discriminate].
    destruct (rmapM f l) as [bs|e]; simpl in H; [|discriminate].
    inversion H; subst. simpl. f_equal. now apply IH.
Qed.

Lemma abs_length (v v' : list cell) : abs v = Ok v' -> length v' = length v.
Proof. apply rmapM_length. Qed.

Lemma wrap64_small (z : Z) :
  (- 2 ^ 63 <= z < 2 ^ 63)%Z -> wrap64 z = z.
Proof.
  intros H. unfold wrap64. rewrite Z.mod_small; lia.
Qed.

(** [abs] of an [int64] is either non-negative or the minimum, which is its
    own absolute value. *)
Lemma abs_int64 (z : Z) :
  in_int64 z = true ->
  in_int64 (wrap64 (Z.abs z)) = true /\
  wrap64 (Z.abs (wrap64 (Z.abs z))) = wrap64 (Z.abs z).
Proof.
  unfold in_int64, int64_min, int64_max. intros H.
  apply andb_true_iff in H as [H1 H2].
  apply Z.leb_le in H1, H2.
  destruct (Z.eq_dec z (- 2 ^ 63)%Z) as [->|Hne].
  - split; reflexivity.
  - assert (Hs : wrap64 (Z.abs z) = Z.abs z) by (apply wrap64_small; lia).
    rewrite Hs. split.
    + apply andb_true_iff. split; apply Z.leb_le; lia.
    + rewrite Z.abs_idemp. exact Hs.
Qed.

Lemma SFabs_idempotent (f : spec_float) : SFabs (SFabs f) = SFabs f.
Proof. now destruct f. Qed.

Lemma abs_cell_idempotent (c c' : cell) :
  wf_cell c = true -> abs_cell c = Ok c' ->
  abs_cell c' = Ok c' /\ wf_cell c' = true.
Proof.
  destruct c as [z|f| |]; simpl; intros Hwf H; inversion H; subst; simpl.
  - destruct (abs_int64 z Hwf) as [Hr Hi]. now rewrite Hi.
  - now rewrite SFabs_idempotent.
Qed.

Lemma abs_idempotent (v v' : list cell) :
  forallb wf_cell v = true -> abs v = Ok v' ->
  abs v' = Ok v' /\ forallb wf_cell v' = true.
Proof.
  unfold abs. revert v'. induction v as [|c v IH]; intros v' Hwf H; simpl in *.
  - inversion H; subst. now split.
  - apply andb_true_iff in Hwf as [Hc Hv].
    destruct (abs_cell c) as [c'|e] eqn:Ec; simpl in H; [|discriminate].
    destruct (rmapM abs_cell v) as [w|e] eqn:Ev; simpl in H; [|discriminate].
    inversion H; subst. simpl.
    destruct (abs_cell_idempotent c c' Hc Ec) as [Ec' Hc'].
    destruct (IH w Hv eq_refl) as [Ew Hw].
    rewrite Ec'. simpl. rewrite Ew. simpl. split; [reflexivity|].
    now rewrite Hc', Hw.
Qed.

(** An absolute value is a number: the value map, keyed by strings, leaves
    it alone. *)
Lemma rename_value_abs (m : gmap string string) (v v' : list cell) :
  abs v = Ok v' -> rename_value m <$> v' = v'.
Proof.
  unfold abs. revert v'. induction v as [|c v IH]; intros v' H; simpl in H.
  - now inversion H.
  - destruct (abs_cell c) as [c'|e] eqn:Ec; simpl in H; [|discriminate].
    destruct (rmapM abs_cell v) as [w|e] eqn:Ev; simpl in H; [|discriminate].
    inversion H; subst. rewrite fmap_cons, (IH w eq_refl). f_equal.
    destruct c; simpl in Ec; inversion Ec; reflexivity.
Qed.

(** The two statements of [apply_corrections], outcome by outcome. *)
Lemma correct_elevation_cases (s : Self FieldDataProcessor) (d : DataFrame)
    (abs_column : string) :
  df (attrs s) = Some d ->
  (exists i v',
      get_loc abs_column d = Ok i /\
      abs (iloc_col i d) = Ok v' /\
      correct_elevation abs_column s
      = (Ok tt, {| attrs := set_df (set_col i v' d) (attrs s);
                   logger := logger s; stderr := stderr s |}))
  \/ (exists e, correct_elevation abs_column s = (Raise e, s)).
Proof.
  intros Hdf. unfold correct_elevation, the_df, bind, gets, liftR, modify, ret, getitem.
  rewrite Hdf. cbn [rbind].
  destruct (get_loc abs_column d) as [i|e] eqn:Ei; cbn [rbind]; [|right; eauto].
  destruct (abs (iloc_col i d)) as [v'|e] eqn:Ev; [|right; eauto].
  rewrite (setitem_existing _ _ _ _ Ei).
  assert (Hlen : length v' = length (rows d))
    by (rewrite (abs_length _ _ Ev); apply length_iloc_col).
  rewrite Hlen, Nat.eqb_refl.
  left. exists i, v'. split; [reflexivity|]. split; [exact Ev|reflexivity].
Qed.

Lemma correct_values_cases (s : Self FieldDataProcessor) (d : DataFrame)
    (column_name : string) :
  df (attrs s) = Some d ->
  (exists j,
      get_loc column_name d = Ok j /\
      correct_values column_name s
      = (Ok tt, {| attrs := set_df (set_col j (rename_value (values_to_rename (attrs s))
                                                <$> iloc_col j d) d) (attrs s);
                   logger := logger s; stderr := stderr s |}))
  \/ (exists e, correct_values column_name s = (Raise e, s)).
Proof.
  intros Hdf. unfold correct_values, the_df, bind, gets, liftR, modify, ret, getitem.
  rewrite Hdf. cbn [rbind].
  destruct (get_loc column_name d) as [j|e] eqn:Ej; cbn [rbind]; [|right; eauto].
  rewrite (setitem_existing _ _ _ _ Ej).
  assert (Hlen : length (rename_value (values_to_rename (attrs s)) <$> iloc_col j d)
                 = length (rows d))
    by (rewrite length_fmap; apply length_iloc_col).
  rewrite Hlen, Nat.eqb_refl.
  left. exists j. split; reflexivity.
Qed.

Lemma apply_corrections_run (s : Self FieldDataProcessor) (d : DataFrame)
    (column_name abs_column : string) (i j : nat) (v' : list cell) :
  df (attrs s) = Some d ->
  get_loc abs_column d = Ok i ->
  get_loc column_name d = Ok j ->
  abs (iloc_col i d) = Ok v' ->
  apply_corrections column_name abs_column s
  = (Ok tt, {| attrs := set_df (corrected (values_to_rename (attrs s)) i j v' d)
                               (attrs s);
               logger := logger s; stderr := stderr s |}).
Proof.
  intros Hdf Hi Hj Hv. unfold apply_corrections.
  destruct (correct_elevation_cases s d abs_column Hdf)
    as [(i' & w & Hi' & Hw & Hrun)|[e Hrun]].
  - rewrite Hi in Hi'. inversion Hi'; subst i'. rewrite Hv in Hw.
    inversion Hw; subst w. rewrite (bind_ok _ _ _ _ _ Hrun).
    match goal with |- correct_values _ ?s' = _ =>
      destruct (correct_values_cases s' (set_col i v' d) column_name eq_refl)
        as [(j' & Hj' & Hrun')|[e Hrun']]
    end.
    + unfold get_loc in Hj'. cbn [set_col columns] in Hj'.
      change (get_loc column_name d = Ok j') in Hj'.
      rewrite Hj in Hj'. inversion Hj'; subst j'.
      rewrite Hrun'. destruct s as [[] lg err]. reflexivity.
    + exfalso. revert Hrun'.
      unfold correct_values, the_df, bind, gets, liftR, modify, ret, getitem.
      cbn [attrs df set_df rbind].
      replace (get_loc column_name (set_col i v' d)) with (Ok (A:=nat) j)
        by (symmetry; exact Hj).
      cbn [rbind]. rewrite (setitem_existing _ _ _ j) by exact Hj.
      rewrite length_fmap, length_iloc_col, Nat.eqb_refl. discriminate.
  - exfalso. revert Hrun.
    unfold correct_elevation, the_df, bind, gets, liftR, modify, ret, getitem.
    rewrite Hdf, Hi. cbn [rbind]. rewrite Hv.
    rewrite (setitem_existing _ _ _ _ Hi).
    rewrite (abs_length _ _ Hv), length_iloc_col, Nat.eqb_refl. discriminate.
Qed.

Lemma apply_corrections_ok_inv (s s1 : Self FieldDataProcessor) (d : DataFrame)
    (column_name abs_column : string) :
  df (attrs s) = Some d ->
  apply_corrections column_name abs_column s = (Ok tt, s1) ->
  exists i j v',
    get_loc abs_column d = Ok i /\
    get_loc column_name d = Ok j /\
    abs (iloc_col i d) = Ok v'.
Proof.
  intros Hdf Hrun. unfold apply_corrections in Hrun.
  apply bind_inv_ok in Hrun as ([] & s' & He & Hv).
  destruct (correct_elevation_cases s d abs_column Hdf)
    as [(i & v' & Hi & Hw & He')|[e He']]; [|congruence].
  rewrite He' in He. inversion He; subst s'. clear He.
  match type of Hv with correct_values _ ?s' = _ =>
    destruct (correct_values_cases s' (set_col i v' d) column_name eq_refl)
      as [(j & Hj & Hrun')|[e Hrun']]; [|congruence]
  end.
  exists i, j, v'. repeat split; assumption.
Qed.

Lemma rows_wide_enough (d : DataFrame) (i : nat) (name : string) :
  well_formed d = true -> columns d !! i = Some name ->
  Forall (fun r => i < length r) (rows d).
Proof.
  unfold well_formed. intros Hwf Hi.
  apply andb_true_iff in Hwf as [_ Hrows].
  rewrite forallb_forall in Hrows. apply List.Forall_forall. intros r Hr.
  specialize (Hrows r Hr). apply andb_true_iff in Hrows as [Hlen _].
  apply Nat.eqb_eq in Hlen. apply lookup_lt_Some in Hi. lia.
Qed.

Lemma column_cells_wf (d : DataFrame) (i : nat) :
  well_formed d = true -> forallb wf_cell (iloc_col i d) = true.
Proof.
  unfold well_formed, iloc_col. intros Hwf.
  apply andb_true_iff in Hwf as [_ Hrows].
  rewrite forallb_forall in Hrows. apply forallb_forall. intros c Hc.
  apply list_elem_of_In, list_elem_of_fmap in Hc as (r & -> & Hr).
  apply list_elem_of_In in Hr. specialize (Hrows r Hr).
  apply andb_true_iff in Hrows as [_ Hcells].
  destruct (r !! i) as [x|] eqn:Hx; simpl; [|reflexivity].
  rewrite forallb_forall in Hcells. apply Hcells.
  apply list_elem_of_In. eapply list_elem_of_lookup_2; eauto.
Qed.

Lemma set_col_wide (d : DataFrame) (i k : nat) (v : list cell) :
  Forall (fun r => i < length r) (rows d) ->
  Forall (fun r => i < length r) (rows (set_col k v d)).
Proof.
  unfold set_col. simpl. generalize (rows d) as rs. intros rs. revert v.
  induction rs as [|r rs IH]; intros [|x v] Hall; simpl; try constructor.
  - rewrite length_insert. now inversion Hall.
  - apply IH. now inversion Hall.
Qed.

(** The elevation column of the corrected frame holds the absolute values. *)
Lemma corrected_elevation (m : gmap string string) (d : DataFrame) (i j : nat)
    (v v' : list cell) :
  Forall (fun r => i < length r) (rows d) ->
  abs v = Ok v' -> length v = length (rows d) ->
  iloc_col i (corrected m i j v' d) = v'.
Proof.
  intros Hwide Hv Hlen. unfold corrected.
  assert (Hlen' : length v' = length (rows d))
    by (rewrite (abs_length _ _ Hv); exact Hlen).
  assert (Hrows : length (rows (set_col i v' d)) = length (rows d))
    by (apply length_zip_insert; exact Hlen').
  destruct (decide (i = j)) as [<-|Hne].
  - rewrite iloc_col_set_col_same.
    + rewrite iloc_col_set_col_same by assumption.
      eapply rename_value_abs; eauto.
    + rewrite length_fmap, length_iloc_col. reflexivity.
    + now apply set_col_wide.
  - rewrite iloc_col_set_col_other.
    + now apply iloc_col_set_col_same.
    + congruence.
    + rewrite length_fmap, length_iloc_col. reflexivity.
Qed.

(** C8: after [apply_corrections] has run on a dataset, its elevation column
    holds the absolute values of the original ones, and running
    [apply_corrections] a second time succeeds and leaves that column as the
    first run made it. *)
Theorem apply_corrections_elevation_idempotent
    (s s1 : Self FieldDataProcessor) (d : DataFrame)
    (column_name abs_column : string) :
  df (attrs s) = Some d ->
  well_formed d = true ->
  apply_corrections column_name abs_column s = (Ok tt, s1) ->
  exists v d1 s2 d2,
    getitem abs_column d = Ok v /\
    df (attrs s1) = Some d1 /\
    getitem abs_column d1 = abs v /\
    apply_corrections column_name abs_column s1 = (Ok tt, s2) /\
    df (attrs s2) = Some d2 /\
    getitem abs_column d2 = getitem abs_column d1.
Proof.
  intros Hdf Hwf Hrun.
  destruct (apply_corrections_ok_inv s s1 d _ _ Hdf Hrun)
    as (i & j & v' & Hi & Hj & Hv).
  rewrite (apply_corrections_run s d _ _ i j v' Hdf Hi Hj Hv) in Hrun.
  inversion Hrun; subst s1; clear Hrun.
  set (m := values_to_rename (attrs s)).
  set (d1 := corrected m i j v' d).
  pose proof (rows_wide_enough d i _ Hwf (get_loc_lookup _ _ _ Hi)) as Hwide.
  assert (Hcol1 : iloc_col i d1 = v').
  { eapply corrected_elevation; eauto. apply length_iloc_col. }
  assert (Hwf' : forallb wf_cell (iloc_col i d) = true)
    by now apply column_cells_wf.
  destruct (abs_idempotent _ _ Hwf' Hv) as [Hv' _].
  assert (Hi1 : get_loc abs_column d1 = Ok i) by exact Hi.
  assert (Hj1 : get_loc column_name d1 = Ok j) by exact Hj.
  assert (Hwide1 : Forall (fun r => i < length r) (rows d1))
    by (unfold d1, corrected; now do 2 apply set_col_wide).
  exists (iloc_col i d), d1.
  eexists. exists (corrected m i j v' d1).
  split. { unfold getitem. now rewrite Hi. }
  split. { cbn [attrs df set_df]. reflexivity. }
  split. { unfold getitem. rewrite Hi1. cbn [rbind]. now rewrite Hcol1, Hv. }
  split.
  { apply apply_corrections_run with (d := d1);
      [reflexivity|exact Hi1|exact Hj1|rewrite Hcol1; exact Hv']. }
  split. { destruct s as [[] lg err]. reflexivity. }
  unfold getitem.
  assert (Hi2 : get_loc abs_column (corrected m i j v' d1) = Ok i) by exact Hi.
  rewrite Hi2, Hi1. cbn [rbind]. f_equal. rewrite Hcol1.
  eapply corrected_elevation with (v := v'); eauto.
  now rewrite <- Hcol1, length_iloc_col.
Qed.

Lemma apply_corrections_elevation_idempotent_witness :
  exists v d1 s2 d2,
    getitem "Elevation" crops_ex = Ok v /\
    df (attrs (snd (apply_corrections "Crop_type" "Elevation"
                      (holding crops_ex field_ex)))) = Some d1 /\
    getitem "Elevation" d1 = abs v /\
    apply_corrections "Crop_type" "Elevation"
      (snd (apply_corrections "Crop_type" "Elevation" (holding crops_ex field_ex)))
    = (Ok tt, s2) /\
    df (attrs s2) = Some d2 /\
    getitem "Elevation" d2 = getitem "Elevation" d1.
Proof.
  apply (apply_corrections_elevation_idempotent (holding crops_ex field_ex) _ crops_ex).
  - reflexivity.
  - vm_compute. reflexivity.
  - vm_compute. reflexivity.
Defined.

(** C10: whatever its outcome, [apply_corrections] leaves the column labels
    and their order, the number and order of the rows, and every cell of
    every column other than the elevation and the categorical one as they
    were. *)
Theorem apply_corrections_frame (s s1 : Self FieldDataProcessor) (d : DataFrame)
    (column_name abs_column : string) (r : result unit) :
  df (attrs s) = Some d ->
  well_formed d = true ->
  abs_column ∈ columns d ->
  column_name ∈ columns d ->
  apply_corrections column_name abs_column s = (r, s1) ->
  exists d1,
    df (attrs s1) = Some d1 /\
    unchanged_outside (fun c => c = abs_column \/ c = column_name) d d1.
Proof.
  intros Hdf _ _ _ Hrun. unfold apply_corrections in Hrun.
  destruct (correct_elevation_cases s d abs_column Hdf)
    as [(i & v' & Hi & Hv & He)|[e He]].
  - rewrite (bind_ok _ _ _ _ _ He) in Hrun.
    assert (Hstep : unchanged_outside (fun c => c = abs_column) d (set_col i v' d)).
    { apply set_col_unchanged; [now apply get_loc_lookup|].
      rewrite (abs_length _ _ Hv). apply length_iloc_col. }
    match type of Hrun with correct_values _ ?s' = _ =>
      destruct (correct_values_cases s' (set_col i v' d) column_name eq_refl)
        as [(j & Hj & Hc)|[e Hc]]
    end.
    + rewrite Hc in Hrun. inversion Hrun; subst. eexists.
      split. { destruct s as [[] lg err]. reflexivity. }
      eapply unchanged_outside_trans.
      * eapply unchanged_outside_weaken; [|exact Hstep]. intros c Hc'. now left.
      * eapply unchanged_outside_weaken;
          [|apply set_col_unchanged with (name := column_name)].
        -- intros c Hc'. now right.
        -- now apply get_loc_lookup.
        -- rewrite length_fmap. apply length_iloc_col.
    + rewrite Hc in Hrun. inversion Hrun; subst. eexists.
      split. { destruct s as [[] lg err]. reflexivity. }
      eapply unchanged_outside_weaken; [|exact Hstep]. intros c Hc'. now left.
  - rewrite (bind_raise _ _ _ _ _ He) in Hrun. inversion Hrun; subst.
    exists d. split; [assumption|apply unchanged_outside_refl].
Qed.

Lemma apply_corrections_frame_witness :
  exists d1,
    df (attrs (snd (apply_corrections "Crop_type" "Elevation"
                      (holding crops_ex field_ex)))) = Some d1 /\
    unchanged_outside (fun c => c = "Elevation" \/ c = "Crop_type") crops_ex d1.
Proof.
  apply (apply_corrections_frame (holding crops_ex field_ex) _ crops_ex
           "Crop_type" "Elevation"
           (fst (apply_corrections "Crop_type" "Elevation"
                   (holding crops_ex field_ex)))).
  - reflexivity.
  - vm_compute. reflexivity.
  - apply (bool_decide_unpack _). vm_compute. exact I.
  - apply (bool_decide_unpack _). vm_compute. exact I.
  - apply surjective_pairing.
Defined.

(** The sample run: elevations [-5; 10; -7] become [5; 10; 7], the misspelt
    crops are renamed, and the yields stay. *)
Example apply_corrections_ex :
  df (attrs (snd (apply_corrections "Crop_type" "Elevation"
                    (holding crops_ex field_ex))))
  = Some {| columns := ["Field_ID"; "Elevation"; "Crop_type"; "Annual_yield"];
            rows := [[CInt 1; CFloat (float_of_int 5); CStr "cassava"; CFloat (float_of_int 2)];
                     [CInt 2; CFloat (float_of_int 10); CStr "wheat"; CFloat (float_of_int 3)];
                     [CInt 3; CFloat (float_of_int 7); CStr "maize"; CFloat (float_of_int 1)]] |}.
Proof. vm_compute. reflexivity. Qed.

End Corrections.

(** ** The weather-station join *)

Section Join.

Import Field.

Lemma filter_eq_NoDup (on : string) (cols : list string) :
  NoDup cols -> length (filter (fun c => c = on) cols) <= 1.
Proof.
  induction 1 as [|c cols Hnotin Hnd IH]; [simpl; lia|].
  rewrite filter_cons. case_decide as Hc; [|exact IH].
  subst c. simpl.
  assert (Hnil : filter (fun c => c = on) cols = []).
  { clear -Hnotin. induction cols as [|c cols IH]; [reflexivity|].
    rewrite filter_cons. case_decide as Hc.
    - subst c. exfalso. apply Hnotin. left.
    - apply IH. intros Hin. apply Hnotin. now right. }
  rewrite Hnil. simpl. lia.
Qed.

(** With unique labels, a label of the frame is a usable join key. *)
Lemma key_loc_ok (on : string) (d : DataFrame) :
  well_formed d = true -> on ∈ columns d ->
  exists i, get_loc on d = Ok i /\ key_loc on d = Ok i.
Proof.
  unfold well_formed. intros Hwf Hin.
  apply andb_true_iff in Hwf as [Hnd _]. apply bool_decide_eq_true in Hnd.
  unfold key_loc, get_loc.
  destruct (list_find (fun c => c = on) (columns d)) as [[i c]|] eqn:E.
  - exists i. split; [reflexivity|]. cbn [rbind].
    pose proof (filter_eq_NoDup on (columns d) Hnd) as Hle.
    destruct (1 <? length (filter (fun c => c = on) (columns d))) eqn:Hlt;
      [apply Nat.ltb_lt in Hlt; lia | reflexivity].
  - exfalso. apply list_find_None in E.
    rewrite List.Forall_forall in E. apply (E on); [|reflexivity].
    now apply list_elem_of_In.
Qed.

(** The rows of the join, cut back to the columns of the left frame, when
    no left row has more than one partner. *)
Lemma join_rows_filter (n li ri : nat) (right_rows left_rows : list (list cell)) :
  Forall (fun l => length l = n) left_rows ->
  Forall (fun l => length (matches li ri right_rows l) <= 1) left_rows ->
  take n <$> flat_map (fun l => (fun r => l ++ delete ri r)
                                  <$> matches li ri right_rows l) left_rows
  = List.filter (fun l => negb (length (matches li ri right_rows l) =? 0))
                left_rows.
Proof.
  induction left_rows as [|l ls IH]; intros Hlen Hone; [reflexivity|].
  inversion Hlen as [|? ? Hl Hls]; subst.
  inversion Hone as [|? ? Ho Hos]; subst.
  simpl. rewrite fmap_app, (IH Hls Hos).
  destruct (matches li ri right_rows l) as [|r [|r' rs]] eqn:E; simpl.
  - reflexivity.
  - f_equal. now rewrite take_app_length.
  - simpl in Ho. lia.
Qed.

Lemma partners_matches (on : string) (left right : DataFrame) (li ri : nat)
    (l : list cell) :
  get_loc on left = Ok li -> get_loc on right = Ok ri ->
  partners on left right l = matches li ri (rows right) l.
Proof. intros Hl Hr. unfold partners, matches, key_cell. now rewrite Hl, Hr. Qed.

Lemma rows_rectangular (d : DataFrame) :
  well_formed d = true ->
  Forall (fun r => length r = length (columns d)) (rows d).
Proof.
  unfold well_formed. intros Hwf. apply andb_true_iff in Hwf as [_ Hrows].
  rewrite forallb_forall in Hrows. apply List.Forall_forall. intros r Hr.
  specialize (Hrows r Hr). apply andb_true_iff in Hrows as [Hlen _].
  now apply Nat.eqb_eq.
Qed.

(** C6, as stated, fails: against a mapping that lists field 1 twice, the
    join returns three rows although only two field rows have a Field_ID that
    occurs in the mapping; field 1 comes out twice. *)
Lemma join_duplicated_mapping_rows :
  exists d,
    fst (weather_station_mapping (env_ex mapping_dup_ex) (holding crops_ex field_ex))
    = Ok d /\
    length (rows d) = 3 /\
    length (List.filter (matched "Field_ID" crops_ex mapping_dup_ex) (rows crops_ex))
    = 2 /\
    take (length (columns crops_ex)) <$> rows d
    <> List.filter (matched "Field_ID" crops_ex mapping_dup_ex) (rows crops_ex).
Proof.
  eexists. split; [vm_compute; reflexivity|].
  split; [reflexivity|]. split; [reflexivity|].
  vm_compute. discriminate.
Qed.

Lemma filter_all {A} (f : A -> bool) (l : list A) :
  (forall x, In x l -> f x = true) -> List.filter f l = l.
Proof.
  induction l as [|a l IH]; intros H; simpl; [reflexivity|].
  rewrite (H a) by now left. f_equal. apply IH. intros x Hx. apply H. now right.
Qed.

(** Without the key column, the labels of a frame with unique labels. *)
Lemma delete_key_filter (on : string) (cols : list string) (ri : nat) :
  NoDup cols -> cols !! ri = Some on ->
  delete ri cols = List.filter (fun c => negb (bool_decide (c = on))) cols.
Proof.
  intros Hnd. revert ri. induction Hnd as [|c cols Hnotin Hnd IH]; intros ri Hri.
  - discriminate.
  - destruct ri as [|ri]; simpl in *.
    + inversion Hri; subst c. rewrite bool_decide_eq_true_2 by reflexivity.
      simpl. symmetry. apply filter_all. intros x Hx.
      apply negb_true_iff, bool_decide_eq_false. intros ->.
      apply Hnotin. now apply list_elem_of_In.
    + assert (Hc : c <> on).
      { intros ->. apply Hnotin. eapply list_elem_of_lookup_2; eauto. }
      rewrite bool_decide_eq_false_2 by exact Hc. simpl. f_equal.
      now apply IH.
Qed.

Lemma suffix_clash_same (l : list string) : suffix_clash l l = false.
Proof.
  unfold suffix_clash. generalize (duplicated [] l). intros bs.
  induction bs as [|b bs IH]; [reflexivity|].
  simpl. rewrite IH. now destruct b.
Qed.

Lemma well_formed_NoDup (d : DataFrame) : well_formed d = true -> NoDup (columns d).
Proof.
  unfold well_formed. intros H. apply andb_true_iff in H as [Hnd _].
  now apply bool_decide_eq_true in Hnd.
Qed.

(** The join of two frames that share the key label only, on keys that can
    be compared. *)
Lemma merge_disjoint (on : string) (left right : DataFrame) (li ri : nat) :
  key_loc on left = Ok li ->
  key_loc on right = Ok ri ->
  get_loc on right = Ok ri ->
  NoDup (columns right) ->
  incompatible_keys (iloc_col li left) (iloc_col ri right) = false ->
  (forall c, c ∈ columns right -> c <> on -> c ∉ columns left) ->
  merge left right on
  = Ok {| columns := columns left
                     ++ List.filter (fun c => negb (bool_decide (c = on)))
                                    (columns right);
          rows := flat_map (fun l => (fun r => l ++ delete ri r)
                                       <$> matches li ri (rows right) l)
                           (rows left) |}.
Proof.
  intros Hkl Hkr Hgr Hnd Hcomp Hdisj. unfold merge.
  rewrite Hkl, Hkr. cbn [rbind]. rewrite Hcomp. cbv zeta.
  pose proof (delete_key_filter on (columns right) ri Hnd
                (get_loc_lookup _ _ _ Hgr)) as Hrcols.
  assert (Hl : (fun c => if bool_decide (c ∈ delete ri (columns right))
                         then c +:+ "_x" else c) <$> columns left
               = columns left).
  { rewrite <- (list_fmap_id (columns left)) at 2.
    apply list_fmap_ext. intros i c Hc. simpl.
    rewrite bool_decide_eq_false_2; [reflexivity|].
    intros Hin. apply list_elem_of_lookup_2 in Hc.
    rewrite Hrcols in Hin.
    apply list_elem_of_In, List.filter_In in Hin as [Hcm Hf].
    apply (Hdisj c); [now apply list_elem_of_In| |exact Hc].
    intros ->. rewrite bool_decide_eq_true_2 in Hf by reflexivity. discriminate. }
  assert (Hr : (fun c => if bool_decide (c ∈ columns left) then c +:+ "_y" else c)
                 <$> delete ri (columns right)
               = delete ri (columns right)).
  { rewrite <- (list_fmap_id (delete ri (columns right))) at 2.
    apply list_fmap_ext. intros i c Hc. simpl.
    rewrite bool_decide_eq_false_2; [reflexivity|].
    intros Hin. apply list_elem_of_lookup_2 in Hc.
    rewrite Hrcols in Hc.
    apply list_elem_of_In, List.filter_In in Hc as [Hcm Hf].
    apply (Hdisj c); [now apply list_elem_of_In| |exact Hin].
    intros ->. rewrite bool_decide_eq_true_2 in Hf by reflexivity. discriminate. }
  rewrite Hl, Hr, !suffix_clash_same. cbn [orb]. now rewrite Hrcols.
Qed.

Lemma forallb_int_no_text (l : list cell) :
  forallb is_int l = true -> existsb is_text l = false.
Proof.
  induction l as [|c l IH]; [reflexivity|]. simpl. intros H.
  apply andb_true_iff in H as [Hc Hl]. rewrite (IH Hl).
  destruct c; simpl in *; try discriminate; reflexivity.
Qed.

Lemma forallb_text_not_numeric (l : list cell) :
  forallb is_text l = true -> numeric_column l = false.
Proof.
  unfold numeric_column. destruct l as [|c l]; [reflexivity|].
  simpl. intros H. apply andb_true_iff in H as [Hc _]. now rewrite Hc.
Qed.

Lemma keys_comparable_compatible (on : string) (left right : DataFrame)
    (li ri : nat) :
  get_loc on left = Ok li -> get_loc on right = Ok ri ->
  keys_comparable on left right = true ->
  incompatible_keys (iloc_col li left) (iloc_col ri right) = false.
Proof.
  intros Hl Hr. unfold keys_comparable, key_column. rewrite Hl, Hr.
  intros H. apply andb_true_iff in H as [_ H].
  unfold incompatible_keys, text_column.
  apply orb_true_iff in H as [H|H]; apply andb_true_iff in H as [Ha Hb].
  - rewrite (forallb_int_no_text _ Ha), (forallb_int_no_text _ Hb).
    now rewrite andb_false_r.
  - rewrite (forallb_text_not_numeric _ Ha), (forallb_text_not_numeric _ Hb).
    now rewrite andb_false_r.
Qed.

(** On integers, and on text, the keys the join takes for equal are the
    equal values. *)
Lemma key_eqb_int (a b : cell) :
  is_int a = true -> is_int b = true -> key_eqb a b = bool_decide (b = a).
Proof.
  destruct a as [x| | |], b as [y| | |]; simpl; try discriminate. intros _ _.
  destruct (Z.eqb_spec x y) as [->|Hne].
  - now rewrite bool_decide_eq_true_2.
  - rewrite bool_decide_eq_false_2; [reflexivity|]. intros E.
    inversion E; subst. now apply Hne.
Qed.

Lemma key_eqb_text (a b : cell) :
  is_text a = true -> is_text b = true -> key_eqb a b = bool_decide (b = a).
Proof.
  destruct a as [| |x|], b as [| |y|]; simpl; try discriminate. intros _ _.
  destruct (decide (x = y)) as [->|Hne].
  - now rewrite !bool_decide_eq_true_2.
  - rewrite !bool_decide_eq_false_2; [reflexivity| |exact Hne].
    intros E. inversion E; subst. now apply Hne.
Qed.

Lemma key_in_column (i : nat) (d : DataFrame) (r : list cell) :
  In r (rows d) -> In (key_of i r) (iloc_col i d).
Proof.
  intros H. unfold iloc_col. apply list_elem_of_In, list_elem_of_fmap.
  exists r. split; [reflexivity|now apply list_elem_of_In].
Qed.

Lemma comparable_key_eqb (on : string) (left right : DataFrame) (li ri : nat)
    (l r : list cell) :
  get_loc on left = Ok li -> get_loc on right = Ok ri ->
  keys_comparable on left right = true ->
  In l (rows left) -> In r (rows right) ->
  key_eqb (key_of li l) (key_of ri r) = bool_decide (key_of ri r = key_of li l).
Proof.
  intros Hl Hr. unfold keys_comparable, key_column. rewrite Hl, Hr.
  intros H Hinl Hinr. apply andb_true_iff in H as [_ H].
  apply (key_in_column li) in Hinl. apply (key_in_column ri) in Hinr.
  apply orb_true_iff in H as [H|H]; apply andb_true_iff in H as [Ha Hb];
    rewrite forallb_forall in Ha, Hb.
  - apply key_eqb_int; [apply Ha|apply Hb]; assumption.
  - apply key_eqb_text; [apply Ha|apply Hb]; assumption.
Qed.

Lemma occurrences_rows (i : nat) (k : cell) (rs : list (list cell)) :
  occurrences k ((fun r => default CNone (r !! i)) <$> rs)
  = length (List.filter (fun r => bool_decide (key_of i r = k)) rs).
Proof.
  unfold occurrences. induction rs as [|r rs IH]; [reflexivity|].
  cbn [fmap list_fmap List.filter]. unfold key_of at 1.
  destruct (bool_decide (default CNone (r !! i) = k)); simpl; [f_equal|];
    exact IH.
Qed.

Lemma elem_of_occurrences (k : cell) (col : list cell) :
  bool_decide (k ∈ col) = negb (occurrences k col =? 0).
Proof.
  unfold occurrences. induction col as [|c col IH]; [reflexivity|].
  cbn [List.filter]. destruct (decide (c = k)) as [->|Hne].
  - rewrite (bool_decide_eq_true_2 (k = k)) by reflexivity.
    apply bool_decide_eq_true_2. left.
  - rewrite (bool_decide_eq_false_2 (c = k)) by exact Hne.
    rewrite <- IH. apply bool_decide_ext. rewrite elem_of_cons.
    split; [intros [E|H]; [congruence|exact H]|now right].
Qed.

(** With comparable keys, the partners of a left row are counted by the
    occurrences of its key in the right key column. *)
Lemma matches_occurrences (on : string) (left right : DataFrame) (li ri : nat)
    (l : list cell) :
  get_loc on left = Ok li -> get_loc on right = Ok ri ->
  keys_comparable on left right = true ->
  In l (rows left) ->
  length (matches li ri (rows right) l)
  = occurrences (key_cell on left l) (key_column on right).
Proof.
  intros Hl Hr Hcomp Hin. unfold key_cell, key_column. rewrite Hl, Hr.
  unfold iloc_col. rewrite occurrences_rows. unfold matches. f_equal.
  apply List.filter_ext_in. intros r Hinr.
  now apply (comparable_key_eqb on left right).
Qed.

(** C6, amended: when both datasets carry a Field_ID column and no other
    label in common, the field dataset has a row, the Field_ID values of
    both are of one type (all integers, or all text), and no Field_ID of a
    field row occurs more than once in the mapping dataset, the join raises
    nothing and keeps exactly the field rows whose Field_ID occurs in the
    mapping dataset, in their order; the other rows are dropped and the
    result has as many rows as there are such field rows. *)
Theorem weather_station_mapping_keeps_matched (env : Env)
    (s : Self FieldDataProcessor) (left mapping : DataFrame) :
  df (attrs s) = Some left ->
  read_csv env (weather_map_data (attrs s)) = Ok mapping ->
  well_formed left = true ->
  well_formed mapping = true ->
  "Field_ID" ∈ columns left ->
  "Field_ID" ∈ columns mapping ->
  (forall c, c ∈ columns mapping -> c <> "Field_ID" -> c ∉ columns left) ->
  keys_comparable "Field_ID" left mapping = true ->
  (forall l, l ∈ rows left ->
             occurrences (key_cell "Field_ID" left l)
                         (key_column "Field_ID" mapping) <= 1) ->
  exists d s',
    weather_station_mapping env s = (Ok d, s') /\
    df (attrs s') = Some d /\
    take (length (columns left)) <$> rows d
    = List.filter (matched "Field_ID" left mapping) (rows left) /\
    length (rows d)
    = length (List.filter (matched "Field_ID" left mapping) (rows left)).
Proof.
  intros Hdf Hcsv Hwl Hwm Hinl Hinm Hdisj Hcomp Hone.
  destruct (key_loc_ok _ _ Hwl Hinl) as (li & Hgl & Hkl).
  destruct (key_loc_ok _ _ Hwm Hinm) as (ri & Hgr & Hkr).
  assert (Hrows :
    take (length (columns left))
      <$> flat_map (fun l => (fun r => l ++ delete ri r)
                               <$> matches li ri (rows mapping) l) (rows left)
    = List.filter (matched "Field_ID" left mapping) (rows left)).
  { rewrite join_rows_filter.
    - apply List.filter_ext_in. intros l Hl. unfold matched.
      rewrite elem_of_occurrences.
      now rewrite (matches_occurrences "Field_ID" left mapping li ri).
    - now apply rows_rectangular.
    - apply List.Forall_forall. intros l Hl.
      rewrite (matches_occurrences "Field_ID" left mapping li ri) by assumption.
      apply Hone. now apply list_elem_of_In. }
  pose proof (merge_disjoint "Field_ID" left mapping li ri Hkl Hkr Hgr
                (well_formed_NoDup _ Hwm)
                (keys_comparable_compatible _ _ _ _ _ Hgl Hgr Hcomp) Hdisj)
    as Hmerge.
  unfold weather_station_mapping, bind, gets, read_from_web_CSV, the_df, bind,
    gets, liftR, modify, ret.
  rewrite Hcsv. unfold bind, mlog, ret. cbn [attrs logger stderr].
  rewrite Hdf. cbv beta iota zeta. rewrite Hmerge. cbn [rbind attrs set_df df].
  eexists. eexists. split; [reflexivity|]. cbn [rows].
  split; [reflexivity|]. split; [exact Hrows|].
  rewrite <- Hrows. now rewrite length_fmap.
Qed.

Lemma weather_station_mapping_keeps_matched_witness :
  exists d s',
    weather_station_mapping (env_ex mapping_ex) (holding crops_ex field_ex)
    = (Ok d, s') /\
    df (attrs s') = Some d /\
    take (length (columns crops_ex)) <$> rows d
    = List.filter (matched "Field_ID" crops_ex mapping_ex) (rows crops_ex) /\
    length (rows d)
    = length (List.filter (matched "Field_ID" crops_ex mapping_ex) (rows crops_ex)).
Proof.
  apply (weather_station_mapping_keeps_matched (env_ex mapping_ex)
           (holding crops_ex field_ex) crops_ex mapping_ex).
  - reflexivity.
  - reflexivity.
  - vm_compute. reflexivity.
  - vm_compute. reflexivity.
  - apply (bool_decide_unpack _). vm_compute. exact I.
  - apply (bool_decide_unpack _). vm_compute. exact I.
  - intros c Hc Hne. apply list_elem_of_In in Hc. simpl in Hc.
    destruct Hc as [<-|[<-|[]]]; [congruence|].
    apply (bool_decide_unpack _). vm_compute. exact I.
  - vm_compute. reflexivity.
  - intros l Hl. apply list_elem_of_In in Hl. simpl in Hl.
    destruct Hl as [<-|[<-|[<-|[]]]]; vm_compute; lia.
Defined.

(** Keys of two types: an integer Field_ID against a mapping whose Field_ID
    is text is refused by pandas, whatever the values. *)
Example weather_station_mapping_mixed_types :
  fst (weather_station_mapping
         (env_ex {| columns := ["Field_ID"; "Weather_station_ID"];
                    rows := [[CStr "1"; CInt 4]; [CStr "2"; CInt 0]] |})
         (holding crops_ex field_ex))
  = Raise ValueError.
Proof. vm_compute. reflexivity. Qed.

(** The sample join: field 3 has no station in the mapping and is dropped;
    the station column is appended to the two rows that stay. *)
Example weather_station_mapping_ex :
  fst (weather_station_mapping (env_ex mapping_ex) (holding crops_ex field_ex))
  = Ok {| columns := ["Field_ID"; "Elevation"; "Crop_type"; "Annual_yield";
                      "Weather_station_ID"];
          rows := [[CInt 1; CFloat (float_of_int (-5)); CStr "cassaval";
                    CFloat (float_of_int 2); CInt 4];
                   [CInt 2; CFloat (float_of_int 10); CStr "wheatn";
                    CFloat (float_of_int 3); CInt 0]] |}.
Proof. vm_compute. reflexivity. Qed.

End Join.

(** ** Logging does not feed back into the data *)

Section DataOnly.

Context {D : Type}.

Lemma data_only_ret {A} (a : A) : data_only (ret (D:=D) a).
Proof. intros s1 s2 H. now split. Qed.

Lemma data_only_raise {A} (e : exn) : data_only (raise (D:=D) (A:=A) e).
Proof. intros s1 s2 H. now split. Qed.

Lemma data_only_liftR {A} (r : result A) : data_only (liftR (D:=D) r).
Proof. intros s1 s2 H. now split. Qed.

Lemma data_only_gets {A} (f : D -> A) : data_only (gets f).
Proof. intros s1 s2 H. unfold gets. simpl. now rewrite H. Qed.

Lemma data_only_modify (f : D -> D) : data_only (modify f).
Proof. intros s1 s2 H. unfold modify. simpl. now rewrite H. Qed.

Lemma data_only_log (lvl : Z) (msg : string) : data_only (log (D:=D) lvl msg).
Proof. intros s1 s2 H. now split. Qed.

Lemma data_only_mlog (lvl : Z) (msg : string) : data_only (mlog (D:=D) lvl msg).
Proof. intros s1 s2 H. now split. Qed.

Lemma data_only_bind {A B} (m : M D A) (k : A -> M D B) :
  data_only m -> (forall a, data_only (k a)) -> data_only (bind m k).
Proof.
  intros Hm Hk s1 s2 H. unfold bind.
  destruct (Hm s1 s2 H) as [Hr Ha].
  destruct (m s1) as [[a|e] s1'], (m s2) as [[a'|e'] s2']; simpl in *;
    try discriminate.
  - inversion Hr; subst. now apply Hk.
  - inversion Hr; subst. simpl. split; [reflexivity|assumption].
Qed.

Lemma data_only_mapM {A B} (f : A -> M D B) (l : list A) :
  (forall a, data_only (f a)) -> data_only (mapM f l).
Proof.
  intros Hf. induction l as [|a l IH]; simpl.
  - apply data_only_ret.
  - apply data_only_bind; [apply Hf|]. intros b.
    apply data_only_bind; [exact IH|]. intros bs. apply data_only_ret.
Qed.

Lemma keeps_attrs_ret {A} (a : A) : keeps_attrs (ret (D:=D) a).
Proof. intros s. reflexivity. Qed.

Lemma keeps_attrs_raise {A} (e : exn) : keeps_attrs (raise (D:=D) (A:=A) e).
Proof. intros s. reflexivity. Qed.

Lemma keeps_attrs_liftR {A} (r : result A) : keeps_attrs (liftR (D:=D) r).
Proof. intros s. reflexivity. Qed.

Lemma keeps_attrs_gets {A} (f : D -> A) : keeps_attrs (gets f).
Proof. intros s. reflexivity. Qed.

Lemma keeps_attrs_log (lvl : Z) (msg : string) : keeps_attrs (log (D:=D) lvl msg).
Proof. intros s. reflexivity. Qed.

Lemma keeps_attrs_bind {A B} (m : M D A) (k : A -> M D B) :
  keeps_attrs m -> (forall a, keeps_attrs (k a)) -> keeps_attrs (bind m k).
Proof.
  intros Hm Hk s. unfold bind. specialize (Hm s).
  destruct (m s) as [[a|e] s']; simpl in *; [|exact Hm].
  now rewrite Hk.
Qed.

Lemma logs_only_silent {A} (P : LogRecord -> Prop) (m : M D A) :
  (forall s, logger (snd (m s)) = logger s /\ stderr (snd (m s)) = stderr s) ->
  logs_only P m.
Proof.
  intros H s. destruct (H s) as [Hl He]. split; [exact Hl|].
  exists []. split; [now rewrite app_nil_r|constructor].
Qed.

Lemma logs_only_ret {A} P (a : A) : logs_only P (ret (D:=D) a).
Proof. apply logs_only_silent. now split. Qed.

Lemma logs_only_raise {A} P (e : exn) : logs_only P (raise (D:=D) (A:=A) e).
Proof. apply logs_only_silent. now split. Qed.

Lemma logs_only_liftR {A} P (r : result A) : logs_only P (liftR (D:=D) r).
Proof. apply logs_only_silent. now split. Qed.

Lemma logs_only_gets {A} P (f : D -> A) : logs_only P (gets f).
Proof. apply logs_only_silent. now split. Qed.

Lemma logs_only_modify P (f : D -> D) : logs_only P (modify f).
Proof. apply logs_only_silent. now split. Qed.

Lemma Forall_emit (P : LogRecord -> Prop) (lg : Logger) (lvl : Z) (msg : string) :
  P {| rec_name := name lg; rec_level := lvl; rec_msg := msg |} ->
  Forall P (emit lg lvl msg).
Proof.
  intros H. unfold emit.
  destruct (isEnabledFor lg lvl); [|constructor].
  destruct (handlers lg =? 0).
  - destruct (propagate lg); [now repeat constructor|].
    destruct (WARNING <=? lvl)%Z; now repeat constructor.
  - apply Forall_replicate. exact H.
Qed.

Lemma logs_only_log (P : LogRecord -> Prop) (lvl : Z) (msg : string) :
  (forall n, P {| rec_name := n; rec_level := lvl; rec_msg := msg |}) ->
  logs_only P (log (D:=D) lvl msg).
Proof.
  intros H s. split; [reflexivity|]. eexists. split; [reflexivity|].
  apply Forall_emit, H.
Qed.

Lemma logs_only_mlog (P : LogRecord -> Prop) (lvl : Z) (msg : string) :
  (forall n, P {| rec_name := n; rec_level := lvl; rec_msg := msg |}) ->
  logs_only P (mlog (D:=D) lvl msg).
Proof.
  intros H s. split; [reflexivity|]. eexists. split; [reflexivity|].
  apply Forall_emit, H.
Qed.

Lemma logs_only_bind {A B} P (m : M D A) (k : A -> M D B) :
  logs_only P m -> (forall a, logs_only P (k a)) -> logs_only P (bind m k).
Proof.
  intros Hm Hk s. unfold bind. destruct (Hm s) as (Hl & new & He & Hn).
  destruct (m s) as [[a|e] s']; simpl in *.
  - destruct (Hk a s') as (Hl' & new' & He' & Hn').
    split; [congruence|]. exists (new ++ new').
    split; [rewrite He', He; now rewrite app_assoc|].
    apply Forall_app. now split.
  - split; [exact Hl|]. now exists new.
Qed.

Lemma logs_only_mapM {A B} P (f : A -> M D B) (l : list A) :
  (forall a, logs_only P (f a)) -> logs_only P (mapM f l).
Proof.
  intros Hf. induction l as [|a l IH]; simpl.
  - apply logs_only_ret.
  - apply logs_only_bind; [apply Hf|]. intros b.
    apply logs_only_bind; [exact IH|]. intros bs. apply logs_only_ret.
Qed.

End DataOnly.

Create HintDb data_only_db.

#[export] Hint Resolve data_only_ret data_only_raise data_only_liftR
  data_only_gets data_only_modify data_only_log data_only_mlog
  data_only_mapM : data_only_db.

Create HintDb logs_db.

#[export] Hint Resolve logs_only_ret logs_only_raise logs_only_liftR
  logs_only_gets logs_only_modify logs_only_mapM : logs_db.

(** Goes through a method body statement by statement. *)
Ltac data_only_step :=
  repeat first
    [ solve [auto with data_only_db]
    | apply data_only_bind; [|intros ?]
    | match goal with
      | |- data_only (match ?x with _ => _ end) => destruct x
      | |- data_only (if ?x then _ else _) => destruct x
      end ].

Section LoggingLevel.

Lemma create_db_engine_data_only {D} (env : Env) (p : string) :
  data_only (create_db_engine (D:=D) env p).
Proof. unfold create_db_engine. data_only_step. Qed.

Lemma query_data_data_only {D} (env : Env) (e q : string) :
  data_only (query_data (D:=D) env e q).
Proof. unfold query_data. cbv zeta. data_only_step. Qed.

Lemma read_from_web_CSV_data_only {D} (env : Env) (url : string) :
  data_only (read_from_web_CSV (D:=D) env url).
Proof. unfold read_from_web_CSV. data_only_step. Qed.

Hint Resolve create_db_engine_data_only query_data_data_only
  read_from_web_CSV_data_only : data_only_db.

Lemma the_df_data_only (e : exn) : data_only (Field.the_df e).
Proof. unfold Field.the_df. data_only_step. Qed.

Hint Resolve the_df_data_only : data_only_db.

Lemma ingest_sql_data_data_only (env : Env) :
  data_only (Field.ingest_sql_data env).
Proof. unfold Field.ingest_sql_data. data_only_step. Qed.

Lemma rename_columns_data_only : data_only Field.rename_columns.
Proof.
  unfold Field.rename_columns, Field.fresh_temp_name. cbv zeta. data_only_step.
Qed.

Lemma apply_corrections_data_only (column_name abs_column : string) :
  data_only (Field.apply_corrections column_name abs_column).
Proof.
  unfold Field.apply_corrections, Field.correct_elevation, Field.correct_values.
  data_only_step.
Qed.

Lemma field_weather_station_mapping_data_only (env : Env) :
  data_only (Field.weather_station_mapping env).
Proof. unfold Field.weather_station_mapping. data_only_step. Qed.

Hint Resolve ingest_sql_data_data_only rename_columns_data_only
  apply_corrections_data_only field_weather_station_mapping_data_only
  : data_only_db.

Lemma field_process_data_only (env : Env) : data_only (Field.process env).
Proof. unfold Field.process. data_only_step. Qed.

Lemma extract_loop_data_only (env : Env) (pats : list (string * string))
    (message : cell) :
  data_only (Weather.extract_loop env pats message).
Proof.
  induction pats as [|[key pattern] pats IH]; simpl; data_only_step.
Qed.

Hint Resolve extract_loop_data_only : data_only_db.

Lemma extract_measurement_data_only (env : Env) (message : cell) :
  data_only (Weather.extract_measurement env message).
Proof. unfold Weather.extract_measurement. data_only_step. Qed.

Hint Resolve extract_measurement_data_only : data_only_db.

Lemma weather_station_mapping_data_only (env : Env) :
  data_only (Weather.weather_station_mapping env).
Proof. unfold Weather.weather_station_mapping. data_only_step. Qed.

Lemma process_messages_data_only (env : Env) :
  data_only (Weather.process_messages env).
Proof. unfold Weather.process_messages. data_only_step. Qed.

Lemma calculate_means_data_only (env : Env) :
  data_only (Weather.calculate_means env).
Proof. unfold Weather.calculate_means. data_only_step. Qed.

Hint Resolve weather_station_mapping_data_only process_messages_data_only
  calculate_means_data_only : data_only_db.

Lemma weather_process_data_only (env : Env) : data_only (Weather.process env).
Proof. unfold Weather.process. data_only_step. Qed.

(** C9: for either pipeline, two runs on the same configuration and the same
    sources that differ in the logging level given at construction (and, for
    that matter, in the state the logger and the console were found in) end
    with the same outcome -- the same dataset or the same exception -- and
    the same attributes of the instance.  The same holds for the means
    computed after the weather run. *)
Theorem logging_level_never_changes_result (env : Env)
    (fcfg : Field.Config) (wcfg : Weather.Config)
    (level1 level2 : string) (lg1 lg2 : Logger) (err1 err2 : list LogRecord) :
  let f1 := Field.process env (Field.init fcfg level1 lg1 err1) in
  let f2 := Field.process env (Field.init fcfg level2 lg2 err2) in
  let w1 := Weather.process env (Weather.init wcfg level1 lg1 err1) in
  let w2 := Weather.process env (Weather.init wcfg level2 lg2 err2) in
  (fst f1 = fst f2 /\ attrs (snd f1) = attrs (snd f2)) /\
  (fst w1 = fst w2 /\ attrs (snd w1) = attrs (snd w2)) /\
  fst (Weather.calculate_means env (snd w1))
  = fst (Weather.calculate_means env (snd w2)).
Proof.
  intros f1 f2 w1 w2.
  assert (Hf : fst f1 = fst f2 /\ attrs (snd f1) = attrs (snd f2))
    by (apply field_process_data_only; reflexivity).
  assert (Hw : fst w1 = fst w2 /\ attrs (snd w1) = attrs (snd w2))
    by (apply weather_process_data_only; reflexivity).
  split; [exact Hf|]. split; [exact Hw|].
  apply calculate_means_data_only. apply Hw.
Qed.

End LoggingLevel.

(** ** Writing a column that may be new *)

Section SetItem.

Lemma setitem_ok_inv (name : string) (v : list cell) (d d' : DataFrame) :
  setitem name v d = Ok d' ->
  length v = length (rows d) /\
  ((exists i, get_loc name d = Ok i /\ d' = set_col i v d)
   \/ (list_find (fun c => c = name) (columns d) = None /\
       d' = {| columns := columns d ++ [name];
               rows := zip_with (fun r x => r ++ [x]) (rows d) v |})).
Proof.
  unfold setitem. destruct (length v =? length (rows d)) eqn:Hlen; [|discriminate].
  apply Nat.eqb_eq in Hlen. intros H. split; [exact Hlen|].
  destruct (list_find (fun c => c = name) (columns d)) as [[i c]|] eqn:E.
  - left. exists i. inversion H; subst. split; [|reflexivity].
    unfold get_loc. now rewrite E.
  - right. inversion H; subst. now split.
Qed.

Lemma iloc_col_appended (cols : list string) (rs : list (list cell))
    (v : list cell) (name : string) :
  length v = length rs ->
  Forall (fun r => length r = length cols) rs ->
  iloc_col (length cols)
    {| columns := cols ++ [name]; rows := zip_with (fun r x => r ++ [x]) rs v |}
  = v.
Proof.
  unfold iloc_col. simpl. revert v.
  induction rs as [|r rs IH]; intros [|x v] Hlen Hall; simpl in *;
    try discriminate; [reflexivity|].
  inversion Hall as [|? ? Hr Hrs]; subst. f_equal.
  - rewrite lookup_app_r by lia. rewrite Hr, Nat.sub_diag. reflexivity.
  - apply IH; [lia|assumption].
Qed.

Lemma iloc_col_appended_other (cols : list string) (rs : list (list cell))
    (v : list cell) (name : string) (i : nat) :
  length v = length rs ->
  i < length cols ->
  Forall (fun r => length r = length cols) rs ->
  iloc_col i
    {| columns := cols ++ [name]; rows := zip_with (fun r x => r ++ [x]) rs v |}
  = iloc_col i {| columns := cols; rows := rs |}.
Proof.
  unfold iloc_col. simpl. revert v.
  induction rs as [|r rs IH]; intros [|x v] Hlen Hi Hall; simpl in *;
    try discriminate; [reflexivity|].
  inversion Hall as [|? ? Hr Hrs]; subst. f_equal.
  - rewrite lookup_app_l by lia. reflexivity.
  - apply IH; [lia|assumption|assumption].
Qed.

Lemma zip_append_rectangular (cols : list string) (rs : list (list cell))
    (v : list cell) (name : string) :
  Forall (fun r => length r = length cols) rs ->
  Forall (fun r => length r = length (cols ++ [name]))
         (zip_with (fun r x => r ++ [x]) rs v).
Proof.
  revert v. induction rs as [|r rs IH]; intros [|x v] Hall; simpl;
    try constructor.
  - inversion Hall; subst. rewrite !length_app. simpl. lia.
  - apply IH. now inversion Hall.
Qed.

Lemma zip_insert_rectangular (n i : nat) (rs : list (list cell)) (v : list cell) :
  Forall (fun r => length r = n) rs ->
  Forall (fun r => length r = n) (zip_with (fun r x => <[i:=x]> r) rs v).
Proof.
  revert v. induction rs as [|r rs IH]; intros [|x v] Hall; simpl;
    try constructor.
  - rewrite length_insert. now inversion Hall.
  - apply IH. now inversion Hall.
Qed.

(** Reading back a column just written, and the frame stays rectangular. *)
Lemma getitem_setitem_same (name : string) (v : list cell) (d d' : DataFrame) :
  setitem name v d = Ok d' ->
  Forall (fun r => length r = length (columns d)) (rows d) ->
  getitem name d' = Ok v /\
  Forall (fun r => length r = length (columns d')) (rows d').
Proof.
  intros Hset Hrect.
  destruct (setitem_ok_inv _ _ _ _ Hset) as [Hlen [(i & Hi & ->)|[Hnone ->]]].
  - split.
    + unfold getitem. change (get_loc name (set_col i v d)) with (get_loc name d).
      rewrite Hi. cbn [rbind]. f_equal.
      apply iloc_col_set_col_same; [exact Hlen|].
      apply get_loc_lookup, lookup_lt_Some in Hi.
      eapply Forall_impl; [exact Hrect|]. simpl. intros r Hr. lia.
    + unfold set_col. cbn [columns rows]. now apply zip_insert_rectangular.
  - split.
    + unfold getitem, get_loc. cbn [columns].
      assert (Hfind : list_find (fun c => c = name) (columns d ++ [name])
                      = Some (length (columns d), name)).
      { apply list_find_app_Some. right. split; [lia|]. split; [exact Hnone|].
        rewrite Nat.sub_diag. simpl. now rewrite decide_True. }
      rewrite Hfind. cbn [rbind]. f_equal. now apply iloc_col_appended.
    + cbn [columns rows]. now apply zip_append_rectangular.
Qed.

(** Writing one column leaves another as it is. *)
Lemma getitem_setitem_other (name other : string) (v w : list cell)
    (d d' : DataFrame) :
  name <> other ->
  setitem other v d = Ok d' ->
  Forall (fun r => length r = length (columns d)) (rows d) ->
  getitem name d = Ok w ->
  getitem name d' = Ok w.
Proof.
  intros Hne Hset Hrect Hget. unfold getitem in Hget.
  destruct (get_loc name d) as [i|e] eqn:Hi; [|discriminate].
  cbn [rbind] in Hget. inversion Hget; subst w. clear Hget.
  destruct (setitem_ok_inv _ _ _ _ Hset) as [Hlen [(j & Hj & ->)|[Hnone ->]]].
  - unfold getitem. change (get_loc name (set_col j v d)) with (get_loc name d).
    rewrite Hi. cbn [rbind]. f_equal.
    apply iloc_col_set_col_other; [|exact Hlen].
    intros ->. apply get_loc_lookup in Hi, Hj. congruence.
  - unfold getitem, get_loc. cbn [columns].
    apply get_loc_Ok in Hi as Hfind.
    assert (Hfind' : list_find (fun c => c = name) (columns d ++ [other])
                     = Some (i, name)).
    { apply list_find_app_Some. now left. }
    rewrite Hfind'. cbn [rbind]. f_equal. destruct d as [cols rs].
    apply iloc_col_appended_other; [exact Hlen| |exact Hrect].
    apply get_loc_lookup, lookup_lt_Some in Hi. exact Hi.
Qed.

End SetItem.

(** ** Measurement extraction *)

Section Extraction.

Import Weather.

Lemma extract_loop_keeps_attrs (env : Env) (pats : list (string * string))
    (message : cell) :
  keeps_attrs (extract_loop env pats message).
Proof.
  induction pats as [|[key pattern] pats IH]; simpl.
  - apply keeps_attrs_bind; [apply keeps_attrs_log|]. intros _.
    apply keeps_attrs_ret.
  - apply keeps_attrs_bind; [apply keeps_attrs_liftR|]. intros [groups|].
    + apply keeps_attrs_bind; [apply keeps_attrs_log|]. intros _.
      apply keeps_attrs_bind; [apply keeps_attrs_liftR|]. intros x.
      apply keeps_attrs_bind; [apply keeps_attrs_liftR|]. intros v.
      apply keeps_attrs_ret.
    + exact IH.
Qed.

Lemma extract_measurement_keeps_attrs (env : Env) (message : cell) :
  keeps_attrs (extract_measurement env message).
Proof.
  unfold extract_measurement.
  apply keeps_attrs_bind; [apply keeps_attrs_gets|]. intros pats.
  apply extract_loop_keeps_attrs.
Qed.

(** No pattern of the list matches the text. *)
Lemma extract_loop_no_match (env : Env) (pats : list (string * string))
    (text : string) (s : Self WeatherDataProcessor) :
  Forall (fun p => re_search env (snd p) text = Ok None) pats ->
  fst (extract_loop env pats (CStr text) s) = Ok (None, None).
Proof.
  revert s. induction pats as [|[key pattern] pats IH]; intros s Hno.
  - reflexivity.
  - inversion Hno as [|? ? Hp Hps]; subst. simpl in Hp. simpl.
    unfold bind, liftR. rewrite Hp. apply IH, Hps.
Qed.

(** The patterns before the first that matches are passed over. *)
Lemma extract_loop_first_match (env : Env) (pre post : list (string * string))
    (key pattern text x : string) (groups : list (option string))
    (v : spec_float) (s : Self WeatherDataProcessor) :
  Forall (fun p => re_search env (snd p) text = Ok None) pre ->
  re_search env pattern text = Ok (Some groups) ->
  first_not_none groups = Some x ->
  float_of_str env x = Ok v ->
  fst (extract_loop env (pre ++ (key, pattern) :: post) (CStr text) s)
  = Ok (Some key, Some v).
Proof.
  intros Hpre Hm Hx Hv. revert s.
  induction pre as [|[k p] pre IH]; intros s.
  - simpl. unfold bind, liftR, log, ret. now rewrite Hm, Hx, Hv.
  - inversion Hpre as [|? ? Hp Hps]; subst. simpl in Hp. simpl.
    unfold bind at 1. unfold liftR at 1. rewrite Hp. apply IH, Hps.
Qed.

(** The first group that is not [None] comes after the leading [None]s. *)
Lemma first_not_none_skip (n : nat) (x : string) (rest : list (option string)) :
  first_not_none (replicate n None ++ Some x :: rest) = Some x.
Proof. induction n as [|n IH]; simpl; [reflexivity|exact IH]. Qed.

(** C5: when the patterns listed before [(key, pattern)] do not match the
    message and [pattern] does, its capturing groups being [n] times [None],
    then [x], then any others, [extract_measurement] returns [key] with the
    float value of [x], the first group that is not [None] -- whatever the
    patterns listed after it would match. *)
Theorem extract_measurement_first_match (env : Env)
    (s : Self WeatherDataProcessor) (pre post : list (string * string))
    (key pattern text x : string) (n : nat) (rest : list (option string))
    (v : spec_float) :
  patterns (attrs s) = pre ++ (key, pattern) :: post ->
  Forall (fun p => re_search env (snd p) text = Ok None) pre ->
  re_search env pattern text = Ok (Some (replicate n None ++ Some x :: rest)) ->
  float_of_str env x = Ok v ->
  fst (extract_measurement env (CStr text) s) = Ok (Some key, Some v).
Proof.
  intros Hpats Hpre Hm Hv. unfold extract_measurement, bind, gets.
  rewrite Hpats.
  apply (extract_loop_first_match env pre post key pattern text x
           (replicate n None ++ Some x :: rest) v s Hpre Hm
           (first_not_none_skip n x rest) Hv).
Qed.

(** A message that the pollution pattern matches through its second
    alternative (its first two groups are [None]) and that the rainfall
    pattern, listed after it, matches as well: the label is that of
    pollution and the value is the third group, not the [3] of rainfall. *)
Lemma extract_measurement_first_match_witness :
  re_search weather_env_ambiguous pollution_re msg_ambiguous
    = Ok (Some [None; None; Some "0.4"; Some ".4"]) /\
  re_search weather_env_ambiguous rainfall_re msg_ambiguous
    = Ok (Some [Some "3"; None]) /\
  fst (extract_measurement weather_env_ambiguous (CStr msg_ambiguous)
         weather_rainfall_last_ex)
  = Ok (Some "Pollution_level", Some (S754_finite false 7205759403792794 (-54))).
Proof.
  split; [reflexivity|]. split; [reflexivity|].
  apply (extract_measurement_first_match weather_env_ambiguous
           weather_rainfall_last_ex
           [("Temperature", temperature_re)] [("Rainfall", rainfall_re)]
           "Pollution_level" pollution_re msg_ambiguous "0.4" 2 [Some ".4"]).
  - reflexivity.
  - repeat constructor.
  - reflexivity.
  - reflexivity.
Defined.

(** With the two patterns listed the other way round, the same message is
    labelled as a temperature. *)
Example extract_measurement_reversed_order :
  fst (extract_measurement (weather_env_ex messages_ex) (CStr msg_both)
         (init {| cfg_weather_csv_path := "";
                  cfg_regex_patterns := [("Temperature", temperature_re);
                                         ("Rainfall", rainfall_re)] |}
               "DEBUG" (fresh_logger logger_name) []))
  = Ok (Some "Temperature", Some (float_of_int 21)).
Proof. vm_compute. reflexivity. Qed.

End Extraction.

(** ** process_messages and calculate_means *)

Section Messages.

Import Weather.

Lemma mapM_ok_inv {D A B} (f : A -> M D B) (l : list A) (s s' : Self D)
    (res : list B) :
  (forall a, data_only (f a)) ->
  (forall a, keeps_attrs (f a)) ->
  mapM f l s = (Ok res, s') ->
  Forall2 (fun a b => fst (f a s) = Ok b) l res /\ attrs s' = attrs s.
Proof.
  intros Hdata Hkeep. revert s s' res.
  induction l as [|a l IH]; intros s s' res H; simpl in H.
  - inversion H; subst. split; constructor.
  - apply bind_inv_ok in H as (b & s1 & Hb & H).
    apply bind_inv_ok in H as (bs & s2 & Hbs & H).
    inversion H; subst. clear H.
    destruct (IH _ _ _ Hbs) as [Hall Hattrs].
    assert (Hs1 : attrs s1 = attrs s).
    { pose proof (Hkeep a s) as Hk. now rewrite Hb in Hk. }
    split; [|congruence]. constructor.
    + now rewrite Hb.
    + eapply Forall2_impl; [exact Hall|]. intros x y Hxy.
      destruct (Hdata x s s1 (eq_sym Hs1)) as [Hr _]. congruence.
Qed.

(** What a successful [process_messages] has done. *)
Lemma process_messages_ok_inv (env : Env) (s s' : Self WeatherDataProcessor)
    (d : DataFrame) (r : option DataFrame) :
  weather_df (attrs s) = Some d ->
  process_messages env s = (Ok r, s') ->
  exists msgs res d1 d2,
    getitem "Message" d = Ok msgs /\
    Forall2 (fun m p => fst (extract_measurement env m s) = Ok p) msgs res /\
    setitem "Measurement" (label_cell <$> res) d = Ok d1 /\
    setitem "Value" (value_cell <$> res) d1 = Ok d2 /\
    r = Some d2 /\
    weather_df (attrs s') = Some d2.
Proof.
  intros Hdf H. unfold process_messages in H.
  apply bind_inv_ok in H as (o & s0 & Ho & H).
  unfold gets in Ho. inversion Ho; subst o s0. clear Ho. rewrite Hdf in H.
  apply bind_inv_ok in H as ([] & s1 & H & Hret).
  apply bind_inv_ok in H as (msgs & s0 & Hmsgs & H).
  unfold liftR in Hmsgs. inversion Hmsgs as [[Hg Hs0]]. subst s0. clear Hmsgs.
  apply bind_inv_ok in H as (res & s2 & Hres & H).
  destruct (mapM_ok_inv _ _ _ _ _ (extract_measurement_data_only env)
              (extract_measurement_keeps_attrs env) Hres) as [Hall Hattrs].
  destruct res as [|p res]; [discriminate|].
  apply bind_inv_ok in H as (d1 & s3 & Hd1 & H).
  unfold liftR in Hd1. inversion Hd1 as [[Hset1 Hs3]]. subst s3. clear Hd1.
  apply bind_inv_ok in H as ([] & s4 & Hm1 & H).
  unfold modify in Hm1. inversion Hm1; subst s4. clear Hm1.
  apply bind_inv_ok in H as (d2 & s5 & Hd2 & H).
  unfold liftR in Hd2. inversion Hd2 as [[Hset2 Hs5]]. subst s5. clear Hd2.
  apply bind_inv_ok in H as ([] & s6 & Hm2 & H).
  unfold modify in Hm2. inversion Hm2; subst s6. clear Hm2.
  unfold log in H. inversion H; subst s1. clear H.
  unfold gets in Hret. cbn [attrs set_weather_df weather_df] in Hret.
  inversion Hret; subst. clear Hret.
  exists msgs, (p :: res), d1, d2. repeat split; assumption || reflexivity.
Qed.

(** A row with a null key is passed over by the grouping. *)
Lemma groupby_rows_skip (i j v : nat) (pre post : list (list cell))
    (r : list cell) :
  notna (key_of i r) && notna (key_of j r) = false ->
  groupby_rows i j v (pre ++ r :: post) = groupby_rows i j v (pre ++ post).
Proof.
  intros Hnull. unfold groupby_rows. rewrite !fold_left_app. simpl.
  unfold groupby_step at 2. now rewrite Hnull.
Qed.

(** With both key columns in the frame, the grouping is by these columns. *)
Lemma groupby_by_columns (k1 k2 v : string) (d : DataFrame) :
  k1 ∈ columns d -> k2 ∈ columns d ->
  groupby k1 k2 v d
  = (i <-? get_loc k1 d ;;
     j <-? get_loc k2 d ;;
     vi <-? get_loc v d ;;
     Ok (ByColumns (groupby_rows i j vi (rows d)))).
Proof.
  intros H1 H2. unfold groupby.
  rewrite (bool_decide_eq_true_2 _ H1), (bool_decide_eq_true_2 _ H2).
  now rewrite andb_false_r.
Qed.

(** A row with a null key can be taken out of a frame that has both key
    columns. *)
Lemma calculate_means_drop_null_row (env : Env) (s : Self WeatherDataProcessor)
    (d : DataFrame) (k i j : nat) (r : list cell) :
  weather_df (attrs s) = Some d ->
  rows d !! k = Some r ->
  get_loc "Weather_station_ID" d = Ok i ->
  get_loc "Measurement" d = Ok j ->
  notna (key_of i r) && notna (key_of j r) = false ->
  fst (calculate_means env s) = fst (calculate_means env (without_row k s)).
Proof.
  intros Hdf Hr Hi Hj Hnull.
  assert (Hin1 : "Weather_station_ID" ∈ columns d)
    by (apply get_loc_lookup in Hi; eapply list_elem_of_lookup_2; eauto).
  assert (Hin2 : "Measurement" ∈ columns d)
    by (apply get_loc_lookup in Hj; eapply list_elem_of_lookup_2; eauto).
  unfold without_row. rewrite Hdf.
  unfold calculate_means, bind, gets.
  cbn [attrs set_weather_df weather_df]. rewrite Hdf.
  unfold liftR.
  rewrite (groupby_by_columns _ _ "Value" d Hin1 Hin2).
  rewrite (groupby_by_columns _ _ "Value"
             {| columns := columns d; rows := delete k (rows d) |} Hin1 Hin2).
  change (get_loc "Weather_station_ID" {| columns := columns d; rows := delete k (rows d) |})
    with (get_loc "Weather_station_ID" d).
  change (get_loc "Measurement" {| columns := columns d; rows := delete k (rows d) |})
    with (get_loc "Measurement" d).
  change (get_loc "Value" {| columns := columns d; rows := delete k (rows d) |})
    with (get_loc "Value" d).
  rewrite Hi, Hj.
  destruct (get_loc "Value" d) as [v|e]; [|reflexivity].
  cbn [rbind rows].
  rewrite delete_take_drop. rewrite <- (take_drop_middle (rows d) k r Hr) at 1.
  rewrite (groupby_rows_skip _ _ _ _ _ _ Hnull).
  unfold mean.
  destruct (rmapM (group_mean env) _) as [means|e]; reflexivity.
Qed.

(** C7: a message that no configured pattern matches makes
    [extract_measurement] return [(None, None)], with no exception; and once
    [process_messages] has run on a dataset that has its station column,
    the row of such a message carries a null label and belongs to no group:
    [calculate_means] gives the same result with that row taken out of the
    dataset. *)
Theorem unmatched_message_in_no_group (env : Env)
    (s : Self WeatherDataProcessor) (text : string) :
  Forall (fun p => re_search env (snd p) text = Ok None) (patterns (attrs s)) ->
  fst (extract_measurement env (CStr text) s) = Ok (None, None) /\
  forall (d : DataFrame) (msgs : list cell) (k : nat)
         (r : option DataFrame) (s1 : Self WeatherDataProcessor),
    weather_df (attrs s) = Some d ->
    well_formed d = true ->
    "Weather_station_ID" ∈ columns d ->
    getitem "Message" d = Ok msgs ->
    msgs !! k = Some (CStr text) ->
    process_messages env s = (Ok r, s1) ->
    exists d2 labels,
      weather_df (attrs s1) = Some d2 /\
      "Weather_station_ID" ∈ columns d2 /\
      "Measurement" ∈ columns d2 /\
      "Value" ∈ columns d2 /\
      getitem "Measurement" d2 = Ok labels /\
      labels !! k = Some CNone /\
      fst (calculate_means env s1)
      = fst (calculate_means env (without_row k s1)).
Proof.
  intros Hno.
  assert (Ha : fst (extract_measurement env (CStr text) s) = Ok (None, None)).
  { unfold extract_measurement, bind, gets. now apply extract_loop_no_match. }
  split; [exact Ha|].
  intros d msgs k r s1 Hdf Hwf Hst Hmsgs Hk Hrun.
  destruct (process_messages_ok_inv env s s1 d r Hdf Hrun)
    as (msgs' & res & d1 & d2 & Hmsgs' & Hall & Hset1 & Hset2 & -> & Hdf2).
  rewrite Hmsgs in Hmsgs'. inversion Hmsgs'; subst msgs'. clear Hmsgs'.
  destruct (Forall2_lookup_l _ _ _ _ _ Hall Hk) as (p & Hp & Hext).
  rewrite Ha in Hext. inversion Hext; subst p. clear Hext.
  pose proof (rows_rectangular d Hwf) as Hrect.
  destruct (getitem_setitem_same _ _ _ _ Hset1 Hrect) as [Hget1 Hrect1].
  pose proof (getitem_setitem_other "Measurement" "Value" _ _ _ _
                ltac:(discriminate) Hset2 Hrect1 Hget1) as Hget2.
  destruct (getitem_setitem_same _ _ _ _ Hset2 Hrect1) as [Hgetv _].
  destruct (get_loc_of_elem _ _ Hst) as [i0 Hi0].
  assert (Hgs : getitem "Weather_station_ID" d = Ok (iloc_col i0 d))
    by (unfold getitem; now rewrite Hi0).
  pose proof (getitem_setitem_other "Weather_station_ID" "Measurement" _ _ _ _
                ltac:(discriminate) Hset1 Hrect Hgs) as Hgs1.
  pose proof (getitem_setitem_other "Weather_station_ID" "Value" _ _ _ _
                ltac:(discriminate) Hset2 Hrect1 Hgs1) as Hgs2.
  assert (Hlab : (label_cell <$> res) !! k = Some CNone)
    by (rewrite list_lookup_fmap, Hp; reflexivity).
  unfold getitem in Hgs2, Hgetv.
  destruct (get_loc "Weather_station_ID" d2) as [i|e] eqn:Hi; [|discriminate].
  destruct (get_loc "Value" d2) as [vi|e] eqn:Hvi; [|discriminate].
  exists d2, (label_cell <$> res).
  split; [exact Hdf2|].
  split. { apply get_loc_lookup in Hi. eapply list_elem_of_lookup_2; eauto. }
  assert (Hget2' := Hget2). unfold getitem in Hget2'.
  destruct (get_loc "Measurement" d2) as [j|e] eqn:Hj; [|discriminate].
  split. { apply get_loc_lookup in Hj. eapply list_elem_of_lookup_2; eauto. }
  split. { apply get_loc_lookup in Hvi. eapply list_elem_of_lookup_2; eauto. }
  split; [exact Hget2|]. split; [exact Hlab|].
  cbn [rbind] in Hget2'. inversion Hget2' as [Hcol]. clear Hget2'.
  rewrite <- Hcol in Hlab. unfold iloc_col in Hlab.
  rewrite list_lookup_fmap in Hlab.
  destruct (rows d2 !! k) as [row|] eqn:Hrow; [|discriminate].
  simpl in Hlab. inversion Hlab as [Hcell].
  apply (calculate_means_drop_null_row env s1 d2 k i j row Hdf2 Hrow Hi Hj).
  unfold key_of at 2. rewrite Hcell. apply andb_false_r.
Qed.

Lemma unmatched_message_in_no_group_witness :
  let env := weather_env_ex messages_ex in
  let s := snd (weather_station_mapping env weather_ex) in
  fst (extract_measurement env (CStr msg_none) s) = Ok (None, None) /\
  exists d2 labels,
    weather_df (attrs (snd (process_messages env s))) = Some d2 /\
    "Weather_station_ID" ∈ columns d2 /\
    "Measurement" ∈ columns d2 /\
    "Value" ∈ columns d2 /\
    getitem "Measurement" d2 = Ok labels /\
    labels !! 2 = Some CNone /\
    fst (calculate_means env (snd (process_messages env s)))
    = fst (calculate_means env (without_row 2 (snd (process_messages env s)))).
Proof.
  intros env s.
  destruct (unmatched_message_in_no_group env s msg_none) as [Ha Hb].
  - vm_compute. repeat constructor.
  - split; [exact Ha|].
    apply (Hb messages_ex [CStr msg_both; CStr msg_pollution; CStr msg_none] 2
              (Some {| columns := ["Weather_station_ID"; "Message";
                                   "Measurement"; "Value"];
                       rows := [[CInt 0; CStr msg_both; CStr "Rainfall";
                                 CFloat (binary_normalize 53 1024 25 (-1) false)];
                                [CInt 0; CStr msg_pollution; CStr "Pollution_level";
                                 CFloat (S754_finite false 7205759403792794 (-54))];
                                [CInt 1; CStr msg_none; CNone; CNone]] |})).
    + reflexivity.
    + vm_compute. reflexivity.
    + apply (bool_decide_unpack _). vm_compute. exact I.
    + reflexivity.
    + reflexivity.
    + vm_compute. reflexivity.
Defined.

(** Two rainfall readings of one station, 10.0 and 20.0, average to 15.0. *)
Example calculate_means_two_readings :
  fst (calculate_means (weather_env_ex messages_ex)
         {| attrs := set_weather_df
                       {| columns := ["Weather_station_ID"; "Measurement"; "Value"];
                          rows := [[CInt 0; CStr "Rainfall"; CFloat (float_of_int 10)];
                                   [CInt 0; CStr "Rainfall"; CFloat (float_of_int 20)]] |}
                       (attrs weather_ex);
            logger := logger weather_ex; stderr := [] |})
  = Ok (Some [(CInt 0, CStr "Rainfall", float_of_int 15)]).
Proof. vm_compute. reflexivity. Qed.

(** The means of the sample: station 0 has a rainfall and a pollution group,
    station 1, whose only message matched nothing, has none. *)
Example calculate_means_ex :
  let env := weather_env_ex messages_ex in
  fst (calculate_means env (snd (process env weather_ex)))
  = Ok (Some [(CInt 0, CStr "Rainfall", binary_normalize 53 1024 25 (-1) false);
              (CInt 0, CStr "Pollution_level",
               S754_finite false 7205759403792794 (-54))]).
Proof. vm_compute. reflexivity. Qed.

End Messages.

(** ** The weather pipeline *)

Section WeatherProcess.

Import Weather.

(** Goes through a method body and checks each line it may log. *)
Ltac logs_only_step :=
  repeat first
    [ solve [auto with logs_db]
    | apply logs_only_bind; [|intros ?]
    | apply logs_only_log; intros ?; unfold not_means_line; simpl; discriminate
    | apply logs_only_mlog; intros ?; unfold not_means_line; simpl; discriminate
    | match goal with
      | |- logs_only _ (match ?x with _ => _ end) => destruct x
      | |- logs_only _ (if ?x then _ else _) => destruct x
      end ].

Lemma read_from_web_CSV_logs {D} (env : Env) (url : string) :
  logs_only not_means_line (read_from_web_CSV (D:=D) env url).
Proof. unfold read_from_web_CSV. logs_only_step. Qed.

Lemma weather_station_mapping_logs (env : Env) :
  logs_only not_means_line (weather_station_mapping env).
Proof.
  pose proof (@read_from_web_CSV_logs WeatherDataProcessor env) as Hcsv.
  unfold weather_station_mapping. logs_only_step.
Qed.

Lemma extract_loop_logs (env : Env) (pats : list (string * string))
    (message : cell) :
  logs_only not_means_line (extract_loop env pats message).
Proof.
  induction pats as [|[key pattern] pats IH]; simpl; logs_only_step.
Qed.

Lemma extract_measurement_logs (env : Env) (message : cell) :
  logs_only not_means_line (extract_measurement env message).
Proof.
  unfold extract_measurement. apply logs_only_bind; [apply logs_only_gets|].
  intros pats. apply extract_loop_logs.
Qed.

Lemma process_messages_logs (env : Env) :
  logs_only not_means_line (process_messages env).
Proof.
  pose proof (extract_measurement_logs env) as Hext.
  unfold process_messages. logs_only_step.
Qed.

Lemma process_logs (env : Env) : logs_only not_means_line (process env).
Proof.
  pose proof (weather_station_mapping_logs env) as Hload.
  pose proof (process_messages_logs env) as Hmsg.
  unfold process. logs_only_step.
Qed.

(** The outcome of an extraction is read off the pattern list alone. *)
Lemma extract_loop_any_state (env : Env) (pats : list (string * string))
    (message : cell) (s s' : Self WeatherDataProcessor) :
  fst (extract_loop env pats message s) = fst (extract_loop env pats message s').
Proof.
  revert s s'. induction pats as [|[key pattern] pats IH]; intros s s'.
  - reflexivity.
  - simpl. unfold bind at 1 3. unfold liftR at 1 3.
    destruct (match message with CStr text => re_search env pattern text
                               | _ => Raise TypeError end) as [[groups|]|e];
      [|apply IH|reflexivity].
    unfold bind, log, liftR, ret.
    destruct (first_not_none groups) as [x|]; [|reflexivity].
    destruct (float_of_str env x); reflexivity.
Qed.

Lemma extract_measurement_same_patterns (env : Env) (message : cell)
    (s s' : Self WeatherDataProcessor) :
  patterns (attrs s) = patterns (attrs s') ->
  fst (extract_measurement env message s) = fst (extract_measurement env message s').
Proof.
  intros H. unfold extract_measurement, bind, gets. rewrite H.
  apply extract_loop_any_state.
Qed.

(** The load step, outcome by outcome. *)
Lemma weather_station_mapping_run (env : Env) (s : Self WeatherDataProcessor) :
  fst (weather_station_mapping env s)
  = match read_csv env (weather_station_data (attrs s)) with
    | Ok _ => Ok tt
    | Raise e => Raise e
    end /\
  attrs (snd (weather_station_mapping env s))
  = match read_csv env (weather_station_data (attrs s)) with
    | Ok d => set_weather_df d (attrs s)
    | Raise _ => attrs s
    end.
Proof.
  unfold weather_station_mapping, bind, gets, read_from_web_CSV.
  destruct (read_csv env (weather_station_data (attrs s))) as [d|e].
  - split; reflexivity.
  - destruct e; split; reflexivity.
Qed.

(** C3, as stated, fails: the fetch returns a table with a header and no
    row, and the load step returns normally and stores that empty table. *)
Lemma load_keeps_empty_dataset :
  rows header_only_ex = [] /\
  read_csv (weather_env_ex header_only_ex) (weather_station_data (attrs weather_ex))
    = Ok header_only_ex /\
  fst (weather_station_mapping (weather_env_ex header_only_ex) weather_ex) = Ok tt /\
  weather_df (attrs (snd (weather_station_mapping (weather_env_ex header_only_ex)
                            weather_ex)))
    = Some header_only_ex.
Proof. repeat split. Qed.

(** C3, amended: the load step fails exactly when the fetch itself raises,
    and then with the exception of the fetch; whenever the fetch returns a
    dataset, with or without rows, the load step succeeds and stores it. *)
Theorem load_fails_only_with_fetch (env : Env) (s : Self WeatherDataProcessor) :
  fst (weather_station_mapping env s)
  = match read_csv env (weather_station_data (attrs s)) with
    | Ok _ => Ok tt
    | Raise e => Raise e
    end /\
  weather_df (attrs (snd (weather_station_mapping env s)))
  = match read_csv env (weather_station_data (attrs s)) with
    | Ok d => Some d
    | Raise _ => weather_df (attrs s)
    end.
Proof.
  destruct (weather_station_mapping_run env s) as [Hr Ha].
  split; [exact Hr|]. rewrite Ha.
  now destruct (read_csv env (weather_station_data (attrs s))).
Qed.

(** The field pipeline's ingest, for comparison, does refuse an empty query
    result. *)
Lemma ingest_sql_data_empty (env : Env) (s : Self Field.FieldDataProcessor)
    (e : string) (d : DataFrame) :
  create_engine env (Field.db_path (attrs s)) = Ok e ->
  read_sql_query env e (Field.sql_query (attrs s)) = Ok d ->
  empty d = true ->
  fst (Field.ingest_sql_data env s) = Raise ValueError.
Proof.
  intros He Hd Hempty.
  unfold Field.ingest_sql_data, bind, gets, create_db_engine, query_data.
  rewrite He. unfold bind, mlog, ret, modify. cbn [attrs Field.set_engine Field.sql_query].
  rewrite Hd, Hempty. reflexivity.
Qed.

(** C2, as stated, fails: [process] is not the sequence load, extraction,
    means aggregation.  On the sample messages that sequence writes the line
    of [calculate_means] to the console and [process] does not; and on
    messages that come without a station column the sequence fails in the
    aggregation (here, with two rows, by the [ValueError] of [unstack])
    while [process] returns the dataset. *)
Lemma process_skips_calculate_means :
  let env := weather_env_ex messages_ex in
  let env' := weather_env_ex messages_only_ex in
  process env weather_ex <> process_as_specified env weather_ex /\
  Exists (fun r => rec_msg r = "Mean values calculated.")
         (stderr (snd (process_as_specified env weather_ex))) /\
  Forall not_means_line (stderr (snd (process env weather_ex))) /\
  fst (process_as_specified env' weather_ex) = Raise ValueError /\
  fst (process env' weather_ex)
  = Ok (Some {| columns := ["Message"; "Measurement"; "Value"];
                rows := [[CStr msg_both; CStr "Rainfall";
                          CFloat (binary_normalize 53 1024 25 (-1) false)];
                         [CStr msg_none; CNone; CNone]] |}).
Proof.
  intros env env'. split; [|split; [|split; [|split]]].
  - intros H.
    apply (f_equal (fun x => length (stderr (snd x)))) in H.
    vm_compute in H. discriminate.
  - vm_compute. do 3 apply Exists_cons_tl. apply Exists_cons_hd. reflexivity.
  - vm_compute. repeat constructor; discriminate.
  - vm_compute. reflexivity.
  - vm_compute. reflexivity.
Qed.

(** C2, amended: a successful [process] has run the load step and then the
    per-message extraction step, and nothing else: it returns (and keeps in
    [weather_df]) the fetched dataset with the two extracted columns, row
    for row what [extract_measurement] gives on the messages, and the means
    aggregation has not run -- its line is not on the console. *)
Theorem process_returns_message_dataset (env : Env)
    (s s' : Self WeatherDataProcessor) (r : option DataFrame) :
  process env s = (Ok r, s') ->
  exists d0 msgs res d1 d2,
    read_csv env (weather_station_data (attrs s)) = Ok d0 /\
    getitem "Message" d0 = Ok msgs /\
    Forall2 (fun m p => fst (extract_measurement env m s) = Ok p) msgs res /\
    setitem "Measurement" (label_cell <$> res) d0 = Ok d1 /\
    setitem "Value" (value_cell <$> res) d1 = Ok d2 /\
    r = Some d2 /\
    weather_df (attrs s') = Some d2 /\
    exists new, stderr s' = stderr s ++ new /\ Forall not_means_line new.
Proof.
  intros Hrun.
  destruct (process_logs env s) as (_ & new & Hnew & Hquiet).
  rewrite Hrun in Hnew. cbn [snd] in Hnew.
  unfold process in Hrun.
  apply bind_inv_ok in Hrun as ([] & s1 & Hload & Hrun).
  apply bind_inv_ok in Hrun as (r1 & s2 & Hmsg & Hrun).
  apply bind_inv_ok in Hrun as ([] & s3 & Hlog & Hrun).
  unfold log in Hlog. inversion Hlog; subst s3. clear Hlog.
  unfold gets in Hrun. cbn [attrs] in Hrun. inversion Hrun; subst. clear Hrun.
  destruct (weather_station_mapping_run env s) as [Hr Ha].
  rewrite Hload in Hr, Ha. cbn [fst snd] in Hr, Ha.
  destruct (read_csv env (weather_station_data (attrs s))) as [d0|e] eqn:Hcsv;
    [|discriminate].
  assert (Hdf1 : weather_df (attrs s1) = Some d0) by now rewrite Ha.
  destruct (process_messages_ok_inv env s1 s2 d0 r1 Hdf1 Hmsg)
    as (msgs & res & d1 & d2 & Hmsgs & Hall & Hset1 & Hset2 & -> & Hdf2).
  exists d0, msgs, res, d1, d2.
  split; [reflexivity|]. split; [exact Hmsgs|].
  split.
  { eapply Forall2_impl; [exact Hall|]. intros m p Hp.
    rewrite <- Hp. apply extract_measurement_same_patterns.
    rewrite Ha. reflexivity. }
  split; [exact Hset1|]. split; [exact Hset2|].
  split; [exact Hdf2|]. split; [exact Hdf2|].
  exists new. now split.
Qed.

Lemma process_returns_message_dataset_witness :
  let env := weather_env_ex messages_ex in
  exists d0 msgs res d1 d2,
    read_csv env (weather_station_data (attrs weather_ex)) = Ok d0 /\
    getitem "Message" d0 = Ok msgs /\
    Forall2 (fun m p => fst (extract_measurement env m weather_ex) = Ok p) msgs res /\
    setitem "Measurement" (label_cell <$> res) d0 = Ok d1 /\
    setitem "Value" (value_cell <$> res) d1 = Ok d2 /\
    fst (process env weather_ex) = Ok (Some d2) /\
    weather_df (attrs (snd (process env weather_ex))) = Some d2 /\
    exists new, stderr (snd (process env weather_ex)) = stderr weather_ex ++ new
                /\ Forall not_means_line new.
Proof.
  intros env.
  destruct (process_returns_message_dataset env weather_ex
              (snd (process env weather_ex))
              (Some {| columns := ["Weather_station_ID"; "Message";
                                   "Measurement"; "Value"];
                       rows := [[CInt 0; CStr msg_both; CStr "Rainfall";
                                 CFloat (binary_normalize 53 1024 25 (-1) false)];
                                [CInt 0; CStr msg_pollution; CStr "Pollution_level";
                                 CFloat (S754_finite false 7205759403792794 (-54))];
                                [CInt 1; CStr msg_none; CNone; CNone]] |}))
    as (d0 & msgs & res & d1 & d2 & H1 & H2 & H3 & H4 & H5 & H6 & H7 & H8).
  - vm_compute. reflexivity.
  - exists d0, msgs, res, d1, d2. repeat (split; [assumption|]).
    split; [|split; assumption].
    rewrite <- H6. vm_compute. reflexivity.
Defined.

End WeatherProcess.

(** * Further properties of the two pipelines *)

(** ** data_ingestion and the ingest step *)

Section Ingest.

Import Field.

(** X1: when the query succeeds with an empty table, [ingest_sql_data] raises
    [ValueError]; the engine has been stored, [self.df] is as before, and
    [data_ingestion] has reported the failure twice at ERROR level (once where
    it is detected, once in the handler that re-raises it). *)
Theorem ingest_sql_data_rejects_empty (env : Env) (s : Self FieldDataProcessor)
    (e : string) (d : DataFrame) :
  create_engine env (db_path (attrs s)) = Ok e ->
  read_sql_query env e (sql_query (attrs s)) = Ok d ->
  empty d = true ->
  fst (ingest_sql_data env s) = Raise ValueError /\
  df (attrs (snd (ingest_sql_data env s))) = df (attrs s) /\
  engine (attrs (snd (ingest_sql_data env s))) = Some e /\
  stderr (snd (ingest_sql_data env s))
  = stderr s
    ++ [ {| rec_name := "data_ingestion"; rec_level := INFO;
            rec_msg := "Database engine created successfully." |};
         {| rec_name := "data_ingestion"; rec_level := ERROR;
            rec_msg := "The query returned an empty DataFrame." |};
         {| rec_name := "data_ingestion"; rec_level := ERROR;
            rec_msg := "SQL query failed. Error: The query returned an empty DataFrame." |} ].
Proof.
  intros He Hd Hempty.
  unfold ingest_sql_data, bind, gets, create_db_engine, query_data.
  rewrite He. unfold bind, mlog, ret, modify, raise.
  cbn [attrs set_engine sql_query logger stderr].
  rewrite Hd, Hempty. cbn [fst snd attrs df engine set_engine stderr].
  repeat split. rewrite <- !app_assoc. reflexivity.
Qed.

Lemma ingest_sql_data_rejects_empty_witness :
  let env := env_of (Ok "engine") (Ok header_only_ex) (Ok mapping_ex) in
  fst (ingest_sql_data env field_new_ex) = Raise ValueError /\
  df (attrs (snd (ingest_sql_data env field_new_ex))) = df (attrs field_new_ex) /\
  engine (attrs (snd (ingest_sql_data env field_new_ex))) = Some "engine" /\
  stderr (snd (ingest_sql_data env field_new_ex))
  = stderr field_new_ex
    ++ [ {| rec_name := "data_ingestion"; rec_level := INFO;
            rec_msg := "Database engine created successfully." |};
         {| rec_name := "data_ingestion"; rec_level := ERROR;
            rec_msg := "The query returned an empty DataFrame." |};
         {| rec_name := "data_ingestion"; rec_level := ERROR;
            rec_msg := "SQL query failed. Error: The query returned an empty DataFrame." |} ].
Proof.
  intros env.
  apply (ingest_sql_data_rejects_empty env field_new_ex "engine" header_only_ex);
    reflexivity.
Defined.

(** X2: when creating the engine fails with [ImportError], the handler's
    [raise e] finds no [e] bound: [ingest_sql_data] raises [UnboundLocalError]
    instead, and neither [self.engine] nor [self.df] is set. *)
Theorem ingest_sql_data_import_error (env : Env) (s : Self FieldDataProcessor) :
  create_engine env (db_path (attrs s)) = Raise ImportError ->
  fst (ingest_sql_data env s) = Raise UnboundLocalError /\
  attrs (snd (ingest_sql_data env s)) = attrs s.
Proof.
  intros He. unfold ingest_sql_data, bind, gets, create_db_engine.
  rewrite He. unfold bind, mlog, raise. split; reflexivity.
Qed.

Lemma ingest_sql_data_import_error_witness :
  let env := env_of (Raise ImportError) (Ok fields_ex) (Ok mapping_ex) in
  fst (ingest_sql_data env field_new_ex) = Raise UnboundLocalError /\
  attrs (snd (ingest_sql_data env field_new_ex)) = attrs field_new_ex.
Proof.
  intros env. apply (ingest_sql_data_import_error env field_new_ex). reflexivity.
Defined.

(** What a successful [ingest_sql_data] has done. *)
Lemma ingest_sql_data_ok_inv (env : Env) (s s' : Self FieldDataProcessor)
    (d : DataFrame) :
  ingest_sql_data env s = (Ok d, s') ->
  exists e,
    create_engine env (db_path (attrs s)) = Ok e /\
    read_sql_query env e (sql_query (attrs s)) = Ok d /\
    empty d = false /\
    attrs s' = set_df d (set_engine e (attrs s)).
Proof.
  unfold ingest_sql_data, bind, gets, create_db_engine, query_data.
  destruct (create_engine env (db_path (attrs s))) as [e|e0] eqn:He.
  - unfold bind, mlog, ret, modify, raise.
    cbn [attrs set_engine sql_query logger stderr].
    destruct (read_sql_query env e (sql_query (attrs s))) as [d0|e0] eqn:Hd.
    + destruct (empty d0) eqn:Hempty; [discriminate|].
      cbn [attrs set_engine set_df logger stderr log].
      intros H. inversion H; subst. cbn [attrs].
      exists e. repeat split; assumption || reflexivity.
    + destruct e0; discriminate.
  - destruct e0; unfold bind, mlog, raise; discriminate.
Qed.

(** X3: whenever [ingest_sql_data] returns, the dataset it returns is not
    empty, it is the one the query gave, and it is the one now held in
    [self.df]. *)
Theorem ingest_sql_data_returns_nonempty (env : Env)
    (s s' : Self FieldDataProcessor) (d : DataFrame) :
  ingest_sql_data env s = (Ok d, s') ->
  empty d = false /\
  df (attrs s') = Some d /\
  exists e, engine (attrs s') = Some e /\
            create_engine env (db_path (attrs s)) = Ok e /\
            read_sql_query env e (sql_query (attrs s)) = Ok d.
Proof.
  intros H. destruct (ingest_sql_data_ok_inv env s s' d H) as (e & He & Hq & Hne & Ha).
  split; [exact Hne|]. rewrite Ha. split; [reflexivity|].
  exists e. repeat split; assumption.
Qed.

Lemma ingest_sql_data_returns_nonempty_witness :
  let env := env_of (Ok "engine") (Ok fields_ex) (Ok mapping_ex) in
  empty fields_ex = false /\
  df (attrs (snd (ingest_sql_data env field_new_ex))) = Some fields_ex /\
  exists e, engine (attrs (snd (ingest_sql_data env field_new_ex))) = Some e /\
            create_engine env (db_path (attrs field_new_ex)) = Ok e /\
            read_sql_query env e (sql_query (attrs field_new_ex)) = Ok fields_ex.
Proof.
  intros env.
  apply (ingest_sql_data_returns_nonempty env field_new_ex
           (snd (ingest_sql_data env field_new_ex)) fields_ex).
  vm_compute. reflexivity.
Defined.

End Ingest.

(** ** rename_columns and apply_corrections *)

Section FieldSteps.

Import Field.

(** X4: [rename_columns] can fail in two ways only -- [IndexError] when the
    configuration names no pair, [AttributeError] when no dataset has been
    ingested -- and then it leaves the instance, console included, as it was.
    The search for a placeholder name never fails. *)
Theorem rename_columns_failures (s s' : Self FieldDataProcessor) (e : exn) :
  rename_columns s = (Raise e, s') ->
  s' = s /\
  ((e = IndexError /\ columns_to_rename (attrs s) = [])
   \/ (e = AttributeError /\ df (attrs s) = None)).
Proof.
  intros H.
  destruct (columns_to_rename (attrs s)) as [|[a b] rest] eqn:Hcfg.
  - unfold rename_columns, bind, gets in H. rewrite Hcfg in H.
    unfold raise in H. inversion H; subst. split; [reflexivity|]. now left.
  - destruct (df (attrs s)) as [d|] eqn:Hdf.
    + destruct (rename_columns_run s d a b rest Hdf Hcfg) as (t & _ & Hrun).
      rewrite Hrun in H. discriminate.
    + unfold rename_columns, bind, gets, the_df, bind, gets in H.
      rewrite Hcfg in H. cbn [ret fst snd] in H. rewrite Hdf in H.
      unfold raise in H. inversion H; subst. split; [reflexivity|]. now right.
Qed.

Lemma rename_columns_failures_witness :
  snd (rename_columns field_new_ex) = field_new_ex /\
  ((AttributeError = IndexError /\ columns_to_rename (attrs field_new_ex) = [])
   \/ (AttributeError = AttributeError /\ df (attrs field_new_ex) = None)).
Proof.
  apply (rename_columns_failures field_new_ex _ AttributeError).
  vm_compute. reflexivity.
Defined.

(** One call of [rename_columns], with the placeholder the loop finds. *)
Lemma rename_columns_run_loop (s : Self FieldDataProcessor) (d : DataFrame)
    (a b : string) (rest : list (string * string)) :
  df (attrs s) = Some d ->
  columns_to_rename (attrs s) = (a, b) :: rest ->
  exists t,
    temp_name_loop (S (length (columns d))) "__temp_name_for_swap__" (columns d)
    = Some t /\
    rename_columns s =
      (Ok tt,
       {| attrs := set_df {| columns := relabel a b t <$> columns d;
                             rows := rows d |} (attrs s);
          logger := logger s;
          stderr := stderr s
                    ++ emit (logger s) INFO
                         ("Swapped columns: " +:+ a +:+ " with " +:+ b) |}).
Proof.
  intros Hdf Hcfg.
  destruct (temp_name_loop_total (columns d) "__temp_name_for_swap__")
    as (t & Ht & Hfresh).
  exists t. split; [exact Ht|].
  unfold rename_columns, bind, gets, the_df, bind, gets, fresh_temp_name.
  rewrite Hcfg. cbn [ret fst snd]. rewrite Hdf. cbn [ret].
  rewrite Ht. cbn [ret log modify attrs logger stderr set_df df].
  rewrite rename_rename_columns. destruct s as [o lg err]. simpl.
  reflexivity.
Qed.

(** X5: only the first pair of [columns_to_rename] is used: with any other
    pairs after it, or none, the outcome and the dataset are the same. *)
Theorem rename_columns_first_pair_only (s : Self FieldDataProcessor)
    (a b : string) (rest : list (string * string)) :
  columns_to_rename (attrs s) = (a, b) :: rest ->
  fst (rename_columns s) = fst (rename_columns (with_columns_to_rename [(a, b)] s)) /\
  df (attrs (snd (rename_columns s)))
  = df (attrs (snd (rename_columns (with_columns_to_rename [(a, b)] s)))).
Proof.
  intros Hcfg. destruct (df (attrs s)) as [d|] eqn:Hdf.
  - destruct (rename_columns_run_loop s d a b rest Hdf Hcfg) as (t & Ht & Hrun).
    destruct (rename_columns_run_loop (with_columns_to_rename [(a, b)] s) d a b []
                Hdf eq_refl) as (t' & Ht' & Hrun').
    rewrite Ht in Ht'. inversion Ht'; subst t'.
    rewrite Hrun, Hrun'. split; reflexivity.
  - unfold rename_columns, bind, gets, the_df, bind, gets.
    rewrite Hcfg. cbn [ret fst snd with_columns_to_rename attrs columns_to_rename df].
    rewrite Hdf. split; reflexivity.
Qed.

Lemma rename_columns_first_pair_only_witness :
  fst (rename_columns field_ex)
  = fst (rename_columns (with_columns_to_rename [("Annual_yield", "Crop_type")] field_ex)) /\
  df (attrs (snd (rename_columns field_ex)))
  = df (attrs (snd (rename_columns
                      (with_columns_to_rename [("Annual_yield", "Crop_type")] field_ex)))).
Proof.
  apply (rename_columns_first_pair_only field_ex "Annual_yield" "Crop_type"
           [("Crop_type", "Annual_yield")]).
  reflexivity.
Defined.

End FieldSteps.

Section CorrectionExtras.

Import Field.

(** X6: after [apply_corrections], the categorical column holds the old
    values sent through the value map: a string that is a key of
    [values_to_rename] is replaced by its entry, and every other value --
    a string that is no key, a number, a null -- is left as it was. *)
Theorem apply_corrections_renames_values (s s1 : Self FieldDataProcessor)
    (d : DataFrame) (column_name abs_column : string) (col : list cell) :
  df (attrs s) = Some d ->
  well_formed d = true ->
  column_name <> abs_column ->
  getitem column_name d = Ok col ->
  apply_corrections column_name abs_column s = (Ok tt, s1) ->
  exists d1 col1,
    df (attrs s1) = Some d1 /\
    getitem column_name d1 = Ok col1 /\
    length col1 = length col /\
    forall k c, col !! k = Some c ->
      col1 !! k
      = Some match c with
             | CStr x => match values_to_rename (attrs s) !! x with
                         | Some y => CStr y
                         | None => c
                         end
             | _ => c
             end.
Proof.
  intros Hdf Hwf Hne Hcol Hrun.
  destruct (apply_corrections_ok_inv s s1 d _ _ Hdf Hrun)
    as (i & j & v' & Hi & Hj & Hv).
  rewrite (apply_corrections_run s d _ _ i j v' Hdf Hi Hj Hv) in Hrun.
  inversion Hrun; subst s1; clear Hrun.
  unfold getitem in Hcol. rewrite Hj in Hcol. cbn [rbind] in Hcol.
  inversion Hcol; subst col; clear Hcol.
  set (m := values_to_rename (attrs s)).
  assert (Hij : i <> j).
  { intros ->. apply get_loc_lookup in Hi, Hj. congruence. }
  assert (Hlen : length v' = length (rows d))
    by (rewrite (abs_length _ _ Hv); apply length_iloc_col).
  pose proof (rows_wide_enough d j _ Hwf (get_loc_lookup _ _ _ Hj)) as Hwide.
  assert (Hnew : iloc_col j (corrected m i j v' d) = rename_value m <$> iloc_col j d).
  { unfold corrected. rewrite iloc_col_set_col_same.
    - now rewrite iloc_col_set_col_other.
    - rewrite length_fmap, length_iloc_col. reflexivity.
    - now apply set_col_wide. }
  exists (corrected m i j v' d), (rename_value m <$> iloc_col j d).
  split. { destruct s as [[] lg err]. reflexivity. }
  split.
  { unfold getitem.
    change (get_loc column_name (corrected m i j v' d)) with (get_loc column_name d).
    rewrite Hj. cbn [rbind]. now rewrite Hnew. }
  split; [apply length_fmap|].
  intros k c Hk. rewrite list_lookup_fmap, Hk. reflexivity.
Qed.

Lemma apply_corrections_renames_values_witness :
  exists d1 col1,
    df (attrs (snd (apply_corrections "Crop_type" "Elevation"
                      (holding crops_ex field_ex)))) = Some d1 /\
    getitem "Crop_type" d1 = Ok col1 /\
    length col1 = length [CStr "cassaval"; CStr "wheatn"; CStr "maize"] /\
    forall k c, [CStr "cassaval"; CStr "wheatn"; CStr "maize"] !! k = Some c ->
      col1 !! k
      = Some match c with
             | CStr x => match values_to_rename (attrs (holding crops_ex field_ex)) !! x with
                         | Some y => CStr y
                         | None => c
                         end
             | _ => c
             end.
Proof.
  apply (apply_corrections_renames_values (holding crops_ex field_ex) _ crops_ex
           "Crop_type" "Elevation").
  - reflexivity.
  - vm_compute. reflexivity.
  - discriminate.
  - reflexivity.
  - vm_compute. reflexivity.
Defined.

(** X7: [apply_corrections] is not all-or-nothing.  When the elevation
    column can be corrected and the categorical column does not exist, it
    raises [KeyError] for the categorical column after the elevation column
    has already been overwritten with its absolute values. *)
Theorem apply_corrections_partial (s : Self FieldDataProcessor) (d : DataFrame)
    (column_name abs_column : string) (v v' : list cell) :
  df (attrs s) = Some d ->
  well_formed d = true ->
  getitem abs_column d = Ok v ->
  abs v = Ok v' ->
  (column_name ∉ columns d) ->
  exists s1 d1,
    apply_corrections column_name abs_column s = (Raise (KeyError column_name), s1) /\
    df (attrs s1) = Some d1 /\
    getitem abs_column d1 = Ok v'.
Proof.
  intros Hdf Hwf Hget Hv Hnotin.
  unfold getitem in Hget.
  destruct (get_loc abs_column d) as [i|e] eqn:Hi; [|discriminate].
  cbn [rbind] in Hget. inversion Hget; subst v; clear Hget.
  assert (Hnone : get_loc column_name d = Raise (KeyError column_name)).
  { unfold get_loc.
    destruct (list_find (fun c => c = column_name) (columns d)) as [[j c]|] eqn:E;
      [|reflexivity].
    apply list_find_Some in E as (Hj & -> & _). exfalso. apply Hnotin.
    eapply list_elem_of_lookup_2; eauto. }
  unfold apply_corrections.
  destruct (correct_elevation_cases s d abs_column Hdf)
    as [(i' & w & Hi' & Hw & Hrun)|[e Hrun]].
  - rewrite Hi in Hi'. inversion Hi'; subst i'. rewrite Hv in Hw.
    inversion Hw; subst w. rewrite (bind_ok _ _ _ _ _ Hrun).
    eexists. exists (set_col i v' d). split; [|split].
    + unfold correct_values, the_df, bind, gets, liftR, getitem, ret.
      cbn [attrs df set_df].
      change (get_loc column_name (set_col i v' d)) with (get_loc column_name d).
      rewrite Hnone. reflexivity.
    + destruct s as [[] lg err]. reflexivity.
    + unfold getitem.
      change (get_loc abs_column (set_col i v' d)) with (get_loc abs_column d).
      rewrite Hi. cbn [rbind]. f_equal. apply iloc_col_set_col_same.
      * rewrite (abs_length _ _ Hv). apply length_iloc_col.
      * apply (rows_wide_enough d i abs_column Hwf). now apply get_loc_lookup.
  - exfalso. revert Hrun.
    unfold correct_elevation, the_df, bind, gets, liftR, modify, ret, getitem.
    rewrite Hdf, Hi. cbn [rbind]. rewrite Hv.
    rewrite (setitem_existing _ _ _ _ Hi).
    rewrite (abs_length _ _ Hv), length_iloc_col, Nat.eqb_refl. discriminate.
Qed.

Lemma apply_corrections_partial_witness :
  exists s1 d1,
    apply_corrections "Crop" "Elevation" (holding crops_ex field_ex)
    = (Raise (KeyError "Crop"), s1) /\
    df (attrs s1) = Some d1 /\
    getitem "Elevation" d1
    = Ok [CFloat (float_of_int 5); CFloat (float_of_int 10); CFloat (float_of_int 7)].
Proof.
  apply (apply_corrections_partial (holding crops_ex field_ex) crops_ex
           "Crop" "Elevation"
           [CFloat (float_of_int (-5)); CFloat (float_of_int 10);
            CFloat (float_of_int (-7))]).
  - reflexivity.
  - vm_compute. reflexivity.
  - reflexivity.
  - vm_compute. reflexivity.
  - apply (bool_decide_unpack _). vm_compute. exact I.
Defined.

(** X8: when the elevation step fails -- the column is missing ([KeyError])
    or holds a value that has no absolute value, such as a string
    ([TypeError]) -- [apply_corrections] raises that exception and leaves
    the instance exactly as it was; the categorical step is not run. *)
Theorem apply_corrections_elevation_failure (s : Self FieldDataProcessor)
    (d : DataFrame) (column_name abs_column : string) (e : exn) :
  df (attrs s) = Some d ->
  rbind (getitem abs_column d) abs = Raise e ->
  apply_corrections column_name abs_column s = (Raise e, s).
Proof.
  intros Hdf Hfail.
  unfold apply_corrections, correct_elevation, the_df, bind, gets, liftR, ret.
  rewrite Hdf. cbv beta iota zeta.
  destruct (getitem abs_column d) as [v|e0]; cbn [rbind] in Hfail.
  - rewrite Hfail. reflexivity.
  - inversion Hfail; subst. reflexivity.
Qed.

Lemma apply_corrections_elevation_failure_witness :
  apply_corrections "Crop_type" "Elevation" (holding bad_elevation_ex field_ex)
  = (Raise TypeError, holding bad_elevation_ex field_ex).
Proof.
  apply (apply_corrections_elevation_failure (holding bad_elevation_ex field_ex)
           bad_elevation_ex "Crop_type" "Elevation" TypeError).
  - reflexivity.
  - reflexivity.
Defined.

End CorrectionExtras.

(** ** The join step and the field pipeline as a whole *)

Section JoinExtras.

Import Field.

(** X9: the join step is all-or-nothing.  Either it returns the merged
    dataset, which is then the one held in [self.df], or it raises -- the
    fetch failed, no dataset was ingested, or a frame lacks a usable
    [Field_ID] column -- and the attributes of the instance are untouched. *)
Theorem weather_station_mapping_all_or_nothing (env : Env)
    (s s' : Self FieldDataProcessor) (r : result DataFrame) :
  weather_station_mapping env s = (r, s') ->
  match r with
  | Ok d' => df (attrs s') = Some d'
  | Raise _ => attrs s' = attrs s
  end.
Proof.
  unfold weather_station_mapping, bind, gets, read_from_web_CSV.
  destruct (read_csv env (weather_map_data (attrs s))) as [m|e].
  - unfold bind, mlog, ret, the_df, bind, gets, liftR, modify, raise, ret.
    cbn [attrs logger stderr].
    destruct (df (attrs s)) as [d|].
    + destruct (merge d m "Field_ID") as [d'|e];
        intros H; inversion H; subst; reflexivity.
    + intros H; inversion H; subst; reflexivity.
  - destruct e; unfold bind, mlog, raise; intros H; inversion H; subst; reflexivity.
Qed.

Lemma weather_station_mapping_all_or_nothing_witness :
  match fst (weather_station_mapping (env_ex mapping_ex) (holding crops_ex field_ex)) with
  | Ok d' =>
      df (attrs (snd (weather_station_mapping (env_ex mapping_ex)
                        (holding crops_ex field_ex)))) = Some d'
  | Raise _ =>
      attrs (snd (weather_station_mapping (env_ex mapping_ex)
                    (holding crops_ex field_ex)))
      = attrs (holding crops_ex field_ex)
  end.
Proof.
  apply (weather_station_mapping_all_or_nothing (env_ex mapping_ex)
           (holding crops_ex field_ex)).
  apply surjective_pairing.
Defined.

(** X10: against a mapping that has exactly one row for the Field_ID of every
    field row, whose Field_ID values are of the type of the field data's
    (all integers, or all text), and that shares no other label with the
    field data, the join loses and repeats nothing: the result has the field
    columns followed by the mapping's other columns, under their own names,
    and its rows, cut back to the field columns, are the field rows in their
    order. *)
Theorem weather_station_mapping_complete (env : Env)
    (s : Self FieldDataProcessor) (left mapping : DataFrame) :
  df (attrs s) = Some left ->
  read_csv env (weather_map_data (attrs s)) = Ok mapping ->
  well_formed left = true ->
  well_formed mapping = true ->
  "Field_ID" ∈ columns left ->
  "Field_ID" ∈ columns mapping ->
  (forall c, c ∈ columns mapping -> c <> "Field_ID" -> c ∉ columns left) ->
  keys_comparable "Field_ID" left mapping = true ->
  (forall l, l ∈ rows left -> length (partners "Field_ID" left mapping l) = 1) ->
  exists d s',
    weather_station_mapping env s = (Ok d, s') /\
    columns d = columns left
                ++ List.filter (fun c => negb (bool_decide (c = "Field_ID")))
                               (columns mapping) /\
    take (length (columns left)) <$> rows d = rows left /\
    length (rows d) = length (rows left).
Proof.
  intros Hdf Hcsv Hwl Hwm Hinl Hinm Hdisj Hcomp Hone.
  destruct (key_loc_ok _ _ Hwl Hinl) as (li & Hgl & Hkl).
  destruct (key_loc_ok _ _ Hwm Hinm) as (ri & Hgr & Hkr).
  assert (Hone' : forall l, In l (rows left) ->
                            length (matches li ri (rows mapping) l) = 1).
  { intros l Hl.
    rewrite <- (partners_matches "Field_ID" left mapping li ri) by assumption.
    apply Hone. now apply list_elem_of_In. }
  assert (Hrows :
    take (length (columns left))
      <$> flat_map (fun l => (fun r => l ++ delete ri r)
                               <$> matches li ri (rows mapping) l) (rows left)
    = rows left).
  { rewrite join_rows_filter.
    - apply filter_all. intros l Hl. now rewrite Hone'.
    - now apply rows_rectangular.
    - apply List.Forall_forall. intros l Hl. rewrite Hone' by assumption. lia. }
  pose proof (merge_disjoint "Field_ID" left mapping li ri Hkl Hkr Hgr
                (well_formed_NoDup _ Hwm)
                (keys_comparable_compatible _ _ _ _ _ Hgl Hgr Hcomp) Hdisj)
    as Hmerge.
  unfold weather_station_mapping, bind, gets, read_from_web_CSV, the_df, bind,
    gets, liftR, modify, ret.
  rewrite Hcsv. unfold bind, mlog, ret. cbn [attrs logger stderr].
  rewrite Hdf. cbv beta iota zeta. rewrite Hmerge. cbn [rbind attrs set_df df].
  eexists. eexists. split; [reflexivity|]. cbn [rows columns].
  split; [reflexivity|]. split; [exact Hrows|].
  rewrite <- Hrows at 2. now rewrite length_fmap.
Qed.

Lemma weather_station_mapping_complete_witness :
  exists d s',
    weather_station_mapping (env_ex mapping_full_ex) (holding crops_ex field_ex)
    = (Ok d, s') /\
    columns d = columns crops_ex
                ++ List.filter (fun c => negb (bool_decide (c = "Field_ID")))
                               (columns mapping_full_ex) /\
    take (length (columns crops_ex)) <$> rows d = rows crops_ex /\
    length (rows d) = length (rows crops_ex).
Proof.
  apply (weather_station_mapping_complete (env_ex mapping_full_ex)
           (holding crops_ex field_ex) crops_ex mapping_full_ex).
  - reflexivity.
  - reflexivity.
  - vm_compute. reflexivity.
  - vm_compute. reflexivity.
  - apply (bool_decide_unpack _). vm_compute. exact I.
  - apply (bool_decide_unpack _). vm_compute. exact I.
  - intros c Hc Hne. apply list_elem_of_In in Hc. simpl in Hc.
    destruct Hc as [<-|[<-|[]]]; [congruence|].
    apply (bool_decide_unpack _). vm_compute. exact I.
  - vm_compute. reflexivity.
  - intros l Hl. apply list_elem_of_In in Hl. simpl in Hl.
    destruct Hl as [<-|[<-|[<-|[]]]]; vm_compute; reflexivity.
Defined.

(** The type of the keys matters: a field row whose Field_ID is null (a NaN
    in a numeric column) has exactly one partner in a mapping that has one
    blank Field_ID besides its text ones, and pandas refuses the join of the
    numeric column with the text-like one. *)
Example weather_station_mapping_null_key :
  let left := {| columns := ["Field_ID"; "Elevation"];
                 rows := [[CFloat S754_nan; CInt 5]] |} in
  let mapping := {| columns := ["Field_ID"; "Weather_station_ID"];
                    rows := [[CFloat S754_nan; CInt 4]; [CStr "a"; CInt 0]] |} in
  length (partners "Field_ID" left mapping [CFloat S754_nan; CInt 5]) = 1 /\
  fst (weather_station_mapping (env_ex mapping) (holding left field_ex))
  = Raise ValueError.
Proof. split; vm_compute; reflexivity. Qed.

(** X11: a successful [process] is the four steps in their order: the
    dataset it returns, and keeps in [self.df], is the non-empty query result
    with the first configured pair of labels exchanged through a placeholder
    that is no column, then the [Elevation] column made absolute and the
    [Crop_type] column sent through the value map, then joined on [Field_ID]
    with the fetched mapping. *)
Theorem process_is_the_four_steps (env : Env)
    (s s' : Self FieldDataProcessor) (r : option DataFrame) :
  process env s = (Ok r, s') ->
  exists e d0 a b rest t i j v' mapping d3,
    create_engine env (db_path (attrs s)) = Ok e /\
    read_sql_query env e (sql_query (attrs s)) = Ok d0 /\
    empty d0 = false /\
    columns_to_rename (attrs s) = (a, b) :: rest /\
    (t ∉ columns d0) /\
    get_loc "Elevation" {| columns := relabel a b t <$> columns d0; rows := rows d0 |}
    = Ok i /\
    get_loc "Crop_type" {| columns := relabel a b t <$> columns d0; rows := rows d0 |}
    = Ok j /\
    abs (iloc_col i {| columns := relabel a b t <$> columns d0; rows := rows d0 |})
    = Ok v' /\
    read_csv env (weather_map_data (attrs s)) = Ok mapping /\
    merge (corrected (values_to_rename (attrs s)) i j v'
             {| columns := relabel a b t <$> columns d0; rows := rows d0 |})
          mapping "Field_ID" = Ok d3 /\
    r = Some d3 /\
    df (attrs s') = Some d3.
Proof.
  intros H. unfold process in H.
  apply bind_inv_ok in H as (d0 & s1 & Hing & H).
  apply bind_inv_ok in H as ([] & s2 & Hren & H).
  apply bind_inv_ok in H as ([] & s3 & Hcor & H).
  apply bind_inv_ok in H as (d3 & s4 & Hjoin & H).
  unfold gets in H. inversion H; subst r s4. clear H.
  destruct (ingest_sql_data_ok_inv env s s1 d0 Hing)
    as (e & Hce & Hq & Hne & Hattrs1).
  assert (Hdf1 : df (attrs s1) = Some d0) by now rewrite Hattrs1.
  destruct (columns_to_rename (attrs s1)) as [|[a b] rest] eqn:Hcfg.
  { unfold rename_columns, bind, gets in Hren. rewrite Hcfg in Hren. discriminate. }
  destruct (rename_columns_run s1 d0 a b rest Hdf1 Hcfg) as (t & Ht & Hrun).
  rewrite Hrun in Hren. inversion Hren; subst s2. clear Hren.
  set (d1 := {| columns := relabel a b t <$> columns d0; rows := rows d0 |}) in *.
  match type of Hcor with apply_corrections _ _ ?x = _ => set (s2 := x) in * end.
  assert (Hdf2 : df (attrs s2) = Some d1) by reflexivity.
  destruct (apply_corrections_ok_inv s2 s3 d1 _ _ Hdf2 Hcor)
    as (i & j & v' & Hi & Hj & Hv).
  rewrite (apply_corrections_run s2 d1 _ _ i j v' Hdf2 Hi Hj Hv) in Hcor.
  inversion Hcor; subst s3. clear Hcor. subst s2.
  cbn [attrs logger stderr set_df values_to_rename] in Hjoin.
  revert Hjoin.
  unfold weather_station_mapping, bind, gets, read_from_web_CSV.
  cbn [attrs set_df weather_map_data].
  destruct (read_csv env (weather_map_data (attrs s1))) as [m|e0] eqn:Hcsv.
  - unfold bind, mlog, ret, the_df, bind, gets, liftR, modify, raise, ret.
    cbn [attrs logger stderr set_df df].
    destruct (merge _ m "Field_ID") as [d'|e0] eqn:Hm; [|discriminate].
    intros Hx. inversion Hx; subst d'. clear Hx.
    rewrite Hattrs1 in Hcfg, Hcsv, Hm.
    cbn [set_df set_engine columns_to_rename weather_map_data values_to_rename]
      in Hcfg, Hcsv, Hm.
    exists e, d0, a, b, rest, t, i, j, v', m, d3.
    repeat (split; [assumption || reflexivity|]). reflexivity.
  - destruct e0; unfold bind, mlog, raise; discriminate.
Qed.

Lemma process_is_the_four_steps_witness :
  let env := env_of (Ok "engine") (Ok fields_ex) (Ok mapping_ex) in
  exists e d0 a b rest t i j v' mapping d3,
    create_engine env (db_path (attrs field_new_ex)) = Ok e /\
    read_sql_query env e (sql_query (attrs field_new_ex)) = Ok d0 /\
    empty d0 = false /\
    columns_to_rename (attrs field_new_ex) = (a, b) :: rest /\
    (t ∉ columns d0) /\
    get_loc "Elevation" {| columns := relabel a b t <$> columns d0; rows := rows d0 |}
    = Ok i /\
    get_loc "Crop_type" {| columns := relabel a b t <$> columns d0; rows := rows d0 |}
    = Ok j /\
    abs (iloc_col i {| columns := relabel a b t <$> columns d0; rows := rows d0 |})
    = Ok v' /\
    read_csv env (weather_map_data (attrs field_new_ex)) = Ok mapping /\
    merge (corrected (values_to_rename (attrs field_new_ex)) i j v'
             {| columns := relabel a b t <$> columns d0; rows := rows d0 |})
          mapping "Field_ID" = Ok d3 /\
    fst (process env field_new_ex) = Ok (Some d3) /\
    df (attrs (snd (process env field_new_ex))) = Some d3.
Proof.
  intros env.
  destruct (process_is_the_four_steps env field_new_ex
              (snd (process env field_new_ex))
              (Some {| columns := ["Field_ID"; "Elevation"; "Crop_type";
                                   "Annual_yield"; "Weather_station_ID"];
                       rows := [[CInt 1; CFloat (float_of_int 5); CStr "cassava";
                                 CFloat (float_of_int 2); CInt 4];
                                [CInt 2; CFloat (float_of_int 10); CStr "wheat";
                                 CFloat (float_of_int 3); CInt 0]] |}))
    as (e & d0 & a & b & rest & t & i & j & v' & m & d3 & H).
  - vm_compute. reflexivity.
  - exists e, d0, a, b, rest, t, i, j, v', m, d3.
    destruct H as (H1 & H2 & H3 & H4 & H5 & H6 & H7 & H8 & H9 & H10 & H11 & H12).
    repeat (split; [assumption|]). split; [|assumption].
    rewrite <- H11. vm_compute. reflexivity.
Defined.

End JoinExtras.

(** ** extract_measurement and process_messages *)

Section MessageExtras.

Import Weather.

Lemma bind_inv_raise {D A B} (m : M D A) (k : A -> M D B) s e s'' :
  bind m k s = (Raise e, s'') ->
  m s = (Raise e, s'') \/
  exists a s', m s = (Ok a, s') /\ k a s' = (Raise e, s'').
Proof.
  unfold bind. destruct (m s) as [[a|e0] s'] eqn:E; intros H.
  - right. now exists a, s'.
  - left. inversion H; subst. reflexivity.
Qed.




Lemma keeps_attrs_mapM {D A B} (f : A -> M D B) (l : list A) :
  (forall a, keeps_attrs (f a)) -> keeps_attrs (mapM f l).
Proof.
  intros Hf. induction l as [|a l IH]; simpl.
  - apply keeps_attrs_ret.
  - apply keeps_attrs_bind; [apply Hf|]. intros b.
    apply keeps_attrs_bind; [exact IH|]. intros bs. apply keeps_attrs_ret.
Qed.

Lemma mapM_length {D A B} (f : A -> M D B) (l : list A) (s s' : Self D)
    (res : list B) :
  mapM f l s = (Ok res, s') -> length res = length l.
Proof.
  revert s s' res. induction l as [|a l IH]; intros s s' res H; simpl in H.
  - inversion H; subst. reflexivity.
  - apply bind_inv_ok in H as (b & s1 & Hb & H).
    apply bind_inv_ok in H as (bs & s2 & Hbs & H).
    inversion H; subst. simpl. f_equal. eapply IH; eauto.
Qed.

(** When [process_messages] raises, the attributes are as before. *)
Lemma process_messages_raise_keeps (env : Env)
    (s s' : Self WeatherDataProcessor) (e : exn) :
  process_messages env s = (Raise e, s') -> attrs s' = attrs s.
Proof.
  intros H. unfold process_messages in H.
  apply bind_inv_raise in H as [H|(o & s0 & Ho & H)]; [discriminate|].
  unfold gets in Ho. inversion Ho; subst o s0. clear Ho.
  apply bind_inv_raise in H as [H|(u & s1 & H & Hret)]; [|discriminate].
  destruct (weather_df (attrs s)) as [d|] eqn:Hdf; [|discriminate].
  apply bind_inv_raise in H as [H|(msgs & s0 & Hmsgs & H)].
  { unfold liftR in H. now inversion H. }
  unfold liftR in Hmsgs. inversion Hmsgs as [[Hg Hs0]]. subst s0. clear Hmsgs.
  assert (Hlen : length msgs = length (rows d)).
  { unfold getitem in Hg. destruct (get_loc "Message" d); [|discriminate].
    cbn [rbind] in Hg. inversion Hg. apply length_iloc_col. }
  pose proof (keeps_attrs_mapM (extract_measurement env) msgs
                (extract_measurement_keeps_attrs env) s) as Hkeep.
  apply bind_inv_raise in H as [H|(res & s2 & Hres & H)].
  { rewrite H in Hkeep. exact Hkeep. }
  rewrite Hres in Hkeep. cbn [snd] in Hkeep.
  pose proof (mapM_length _ _ _ _ _ Hres) as Hreslen.
  destruct res as [|p res]; [unfold raise in H; inversion H; subst; exact Hkeep|].
  apply bind_inv_raise in H as [H|(d1 & s3 & Hd1 & H)].
  { unfold liftR in H. inversion H; subst. exact Hkeep. }
  unfold liftR in Hd1. inversion Hd1 as [[Hset1 Hs3]]. subst s3. clear Hd1.
  apply bind_inv_raise in H as [H|(u1 & s4 & Hm1 & H)]; [discriminate|].
  unfold modify in Hm1. inversion Hm1; subst s4. clear Hm1.
  exfalso.
  apply bind_inv_raise in H as [H|(d2 & s5 & Hd2 & H)].
  - unfold liftR in H. inversion H as [[Hset2 _]]. clear H.
    unfold setitem in Hset2.
    assert (Hrows1 : length (rows d1) = length (rows d)).
    { destruct (setitem_ok_inv _ _ _ _ Hset1) as [Hl [(i & _ & ->)|[_ ->]]];
        cbn [set_col rows]; rewrite length_zip_with; lia. }
    rewrite length_fmap, Hrows1, Hreslen, Hlen, Nat.eqb_refl in Hset2.
    destruct (list_find _ _) as [[? ?]|]; discriminate.
  - apply bind_inv_raise in H as [H|(u2 & s6 & Hm2 & H)]; discriminate.
Qed.



Lemma mapM_raise {D A B} (f : A -> M D B) (pre post : list A) (a : A)
    (s : Self D) (e : exn) :
  (forall x, data_only (f x)) ->
  (forall x, keeps_attrs (f x)) ->
  Forall (fun x => exists b, fst (f x s) = Ok b) pre ->
  fst (f a s) = Raise e ->
  forall s1, attrs s1 = attrs s ->
    fst (mapM f (pre ++ a :: post) s1) = Raise e.
Proof.
  intros Hdata Hkeep Hpre Ha.
  induction pre as [|x pre IH]; intros s1 Hs1; simpl.
  - unfold bind. destruct (Hdata a s1 s Hs1) as [Hr _].
    rewrite Ha in Hr. destruct (f a s1) as [[b|e0] s2]; simpl in Hr;
      [discriminate|]. now inversion Hr.
  - inversion Hpre as [|? ? [b Hb] Hps]; subst.
    unfold bind at 1. destruct (Hdata x s1 s Hs1) as [Hr _].
    rewrite Hb in Hr. pose proof (Hkeep x s1) as Hk.
    destruct (f x s1) as [[b'|e0] s2]; simpl in Hr, Hk; [|discriminate].
    unfold bind at 1. specialize (IH Hps s2 ltac:(congruence)).
    destruct (mapM f (pre ++ a :: post) s2) as [[bs|e0] s3]; simpl in IH;
      [discriminate|]. now inversion IH.
Qed.

(** X14: one row aborts the batch.  When the extraction raises on some
    message -- a reading that is no number, a cell that is no text -- and
    succeeds on the messages above it, [process_messages] raises that
    exception, no column is added, and the rows above and below are lost to
    the caller with it. *)
Theorem process_messages_aborts_on_bad_row (env : Env)
    (s : Self WeatherDataProcessor) (d : DataFrame)
    (pre post : list cell) (m : cell) (e : exn) :
  weather_df (attrs s) = Some d ->
  getitem "Message" d = Ok (pre ++ m :: post) ->
  Forall (fun x => exists p, fst (extract_measurement env x s) = Ok p) pre ->
  fst (extract_measurement env m s) = Raise e ->
  fst (process_messages env s) = Raise e /\
  attrs (snd (process_messages env s)) = attrs s.
Proof.
  intros Hdf Hmsgs Hpre Hm.
  assert (Hfst : fst (process_messages env s) = Raise e).
  { unfold process_messages, bind at 1. unfold gets at 1. rewrite Hdf.
    unfold bind at 1. unfold bind at 1. unfold liftR at 1. rewrite Hmsgs.
    unfold bind at 1.
    pose proof (mapM_raise (extract_measurement env) pre post m s e
                  (extract_measurement_data_only env)
                  (extract_measurement_keeps_attrs env) Hpre Hm s eq_refl) as Hr.
    destruct (mapM (extract_measurement env) (pre ++ m :: post) s)
      as [[res|e0] s2]; simpl in Hr; [discriminate|].
    inversion Hr; subst. reflexivity. }
  split; [exact Hfst|].
  destruct (process_messages env s) as [r s'] eqn:Hrun. simpl in *. subst r.
  eapply process_messages_raise_keeps; eauto.
Qed.

Lemma process_messages_aborts_on_bad_row_witness :
  let env := weather_env_loose messages_malformed_ex in
  let s := weather_holding messages_malformed_ex weather_loose_ex in
  fst (process_messages env s) = Raise ValueError /\
  attrs (snd (process_messages env s)) = attrs s.
Proof.
  intros env s.
  apply (process_messages_aborts_on_bad_row env s messages_malformed_ex
           [CStr msg_none] [CStr msg_none] (CStr msg_malformed) ValueError).
  - reflexivity.
  - reflexivity.
  - constructor; [|constructor]. eexists. vm_compute. reflexivity.
  - vm_compute. reflexivity.
Defined.

Lemma zip_append_twice {A B} (f g : B -> A) (rs : list (list A)) (res : list B) :
  zip_with (fun r x => r ++ [x])
           (zip_with (fun r x => r ++ [x]) rs (f <$> res)) (g <$> res)
  = zip_with (fun r p => r ++ [f p; g p]) rs res.
Proof.
  revert res. induction rs as [|r rs IH]; intros [|p res]; simpl;
    try reflexivity.
  rewrite <- app_assoc. simpl. f_equal. apply IH.
Qed.

(** X15: on a dataset that has neither a [Measurement] nor a [Value] column,
    a successful [process_messages] appends exactly these two columns, in
    this order, and keeps every row in its place: each row of the result is
    the source row followed by the label and the value extracted from its
    message (both null when nothing matched). No row is dropped. *)
Theorem process_messages_appends_columns (env : Env)
    (s s1 : Self WeatherDataProcessor) (d : DataFrame) (r : option DataFrame) :
  weather_df (attrs s) = Some d ->
  ("Measurement" ∉ columns d) ->
  ("Value" ∉ columns d) ->
  process_messages env s = (Ok r, s1) ->
  exists msgs res d2,
    r = Some d2 /\
    getitem "Message" d = Ok msgs /\
    Forall2 (fun m p => fst (extract_measurement env m s) = Ok p) msgs res /\
    columns d2 = columns d ++ ["Measurement"; "Value"] /\
    length (rows d2) = length (rows d) /\
    rows d2 = zip_with (fun row p => row ++ [label_cell p; value_cell p])
                       (rows d) res.
Proof.
  intros Hdf Hnm Hnv Hrun.
  destruct (process_messages_ok_inv env s s1 d r Hdf Hrun)
    as (msgs & res & d1 & d2 & Hmsgs & Hall & Hset1 & Hset2 & -> & Hdf2).
  destruct (setitem_ok_inv _ _ _ _ Hset1) as [Hlen1 [(i & Hi & _)|[_ ->]]].
  { exfalso. apply Hnm. apply get_loc_lookup in Hi.
    eapply list_elem_of_lookup_2; eauto. }
  destruct (setitem_ok_inv _ _ _ _ Hset2) as [Hlen2 [(i & Hi & _)|[_ ->]]].
  { exfalso. cbn [columns] in Hi. apply get_loc_lookup in Hi.
    apply list_elem_of_lookup_2 in Hi. apply elem_of_app in Hi as [Hi|Hi].
    - now apply Hnv.
    - apply list_elem_of_singleton in Hi. discriminate. }
  exists msgs, res. eexists. split; [reflexivity|]. split; [exact Hmsgs|].
  split; [exact Hall|]. cbn [columns rows].
  split; [now rewrite <- app_assoc|].
  rewrite zip_append_twice. split; [|reflexivity].
  rewrite length_zip_with. rewrite length_fmap in Hlen1. lia.
Qed.

Lemma process_messages_appends_columns_witness :
  let env := weather_env_ex messages_ex in
  let s := weather_holding messages_ex weather_ex in
  exists msgs res d2,
    fst (process_messages env s) = Ok (Some d2) /\
    getitem "Message" messages_ex = Ok msgs /\
    Forall2 (fun m p => fst (extract_measurement env m s) = Ok p) msgs res /\
    columns d2 = columns messages_ex ++ ["Measurement"; "Value"] /\
    length (rows d2) = length (rows messages_ex) /\
    rows d2 = zip_with (fun row p => row ++ [label_cell p; value_cell p])
                       (rows messages_ex) res.
Proof.
  intros env s.
  destruct (process_messages_appends_columns env s (snd (process_messages env s))
              messages_ex
              (Some {| columns := ["Weather_station_ID"; "Message";
                                   "Measurement"; "Value"];
                       rows := [[CInt 0; CStr msg_both; CStr "Rainfall";
                                 CFloat (binary_normalize 53 1024 25 (-1) false)];
                                [CInt 0; CStr msg_pollution; CStr "Pollution_level";
                                 CFloat (S754_finite false 7205759403792794 (-54))];
                                [CInt 1; CStr msg_none; CNone; CNone]] |}))
    as (msgs & res & d2 & H1 & H2 & H3 & H4 & H5 & H6).
  - reflexivity.
  - apply (bool_decide_unpack _). vm_compute. exact I.
  - apply (bool_decide_unpack _). vm_compute. exact I.
  - vm_compute. reflexivity.
  - exists msgs, res, d2. split; [rewrite <- H1; vm_compute; reflexivity|].
    repeat split; assumption.
Defined.

Lemma process_messages_empty_run (env : Env) (s : Self WeatherDataProcessor)
    (d : DataFrame) :
  weather_df (attrs s) = Some d ->
  rows d = [] ->
  "Message" ∈ columns d ->
  process_messages env s = (Raise ValueError, s).
Proof.
  intros Hdf Hrows Hin. destruct (get_loc_of_elem _ _ Hin) as [i Hi].
  unfold process_messages, bind, gets, liftR, getitem.
  rewrite Hdf, Hi. cbn [rbind]. unfold iloc_col. rewrite Hrows. reflexivity.
Qed.

(** X16: on a dataset with a [Message] column and no row there is nothing to
    unpack into the two new columns: [process_messages] raises [ValueError]
    and leaves the instance, console included, as it was. *)
Theorem process_messages_no_rows (env : Env) (s : Self WeatherDataProcessor)
    (d : DataFrame) :
  weather_df (attrs s) = Some d ->
  rows d = [] ->
  "Message" ∈ columns d ->
  process_messages env s = (Raise ValueError, s).
Proof. apply process_messages_empty_run. Qed.

Lemma process_messages_no_rows_witness :
  process_messages (weather_env_ex header_only_ex)
    (weather_holding header_only_ex weather_ex)
  = (Raise ValueError, weather_holding header_only_ex weather_ex).
Proof.
  apply (process_messages_no_rows (weather_env_ex header_only_ex)
           (weather_holding header_only_ex weather_ex) header_only_ex).
  - reflexivity.
  - reflexivity.
  - apply (bool_decide_unpack _). vm_compute. exact I.
Defined.

(** X17: so an empty fetch does surface, one step late: when the CSV loads
    as a table with a [Message] column and no row, [process] raises
    [ValueError] out of the extraction step, with the empty table left in
    [weather_df]. *)
Theorem process_empty_fetch (env : Env) (s : Self WeatherDataProcessor)
    (d : DataFrame) :
  read_csv env (weather_station_data (attrs s)) = Ok d ->
  rows d = [] ->
  "Message" ∈ columns d ->
  fst (process env s) = Raise ValueError /\
  weather_df (attrs (snd (process env s))) = Some d.
Proof.
  intros Hcsv Hrows Hin.
  destruct (weather_station_mapping_run env s) as [Hr Ha].
  rewrite Hcsv in Hr, Ha.
  destruct (weather_station_mapping env s) as [r1 s1] eqn:Hload.
  cbn [fst snd] in Hr, Ha. subst r1.
  assert (Hdf1 : weather_df (attrs s1) = Some d) by now rewrite Ha.
  unfold process. rewrite (bind_ok _ _ _ _ _ Hload).
  rewrite (bind_raise _ _ _ _ _ (process_messages_empty_run env s1 d Hdf1 Hrows Hin)).
  split; [reflexivity|exact Hdf1].
Qed.

Lemma process_empty_fetch_witness :
  fst (process (weather_env_ex header_only_ex) weather_ex) = Raise ValueError /\
  weather_df (attrs (snd (process (weather_env_ex header_only_ex) weather_ex)))
  = Some header_only_ex.
Proof.
  apply (process_empty_fetch (weather_env_ex header_only_ex) weather_ex
           header_only_ex).
  - reflexivity.
  - reflexivity.
  - apply (bool_decide_unpack _). vm_compute. exact I.
Defined.

End MessageExtras.

(** ** calculate_means *)

Section MeansExtras.

Import Weather.

(** X18: [calculate_means] only reads.  Whatever its outcome, the attributes
    of the instance -- the dataset among them -- are as before, so a second
    call gives the same means or the same exception. *)
Theorem calculate_means_read_only (env : Env) (s : Self WeatherDataProcessor) :
  attrs (snd (calculate_means env s)) = attrs s /\
  fst (calculate_means env (snd (calculate_means env s)))
  = fst (calculate_means env s).
Proof.
  assert (Hkeep : attrs (snd (calculate_means env s)) = attrs s).
  { unfold calculate_means, bind, gets, liftR, log, ret.
    destruct (weather_df (attrs s)) as [d|]; [|reflexivity].
    destruct (groupby _ _ _ d) as [gs|e]; [|reflexivity].
    cbn [rbind]. destruct (mean env gs) as [ms|e]; [|reflexivity].
    cbn [rbind]. destruct (unstack ms); reflexivity. }
  split; [exact Hkeep|].
  apply calculate_means_data_only. exact Hkeep.
Qed.

(** X19: called on a dataset that has its station column but has not been
    through [process_messages] (there is no [Measurement] column), and that
    does not have exactly two rows, [calculate_means] raises [KeyError] for
    [Measurement], logs nothing and changes nothing.  (With exactly two rows
    pandas takes the two names for row labels, one per row.) *)
Theorem calculate_means_before_extraction (env : Env)
    (s : Self WeatherDataProcessor) (d : DataFrame) :
  weather_df (attrs s) = Some d ->
  "Weather_station_ID" ∈ columns d ->
  ("Measurement" ∉ columns d) ->
  length (rows d) <> 2 ->
  calculate_means env s = (Raise (KeyError "Measurement"), s).
Proof.
  intros Hdf Hin Hnotin Hlen. destruct (get_loc_of_elem _ _ Hin) as [i Hi].
  unfold calculate_means, bind, gets, liftR, groupby.
  rewrite Hdf. cbv beta iota zeta.
  replace (length ["Weather_station_ID"; "Measurement"] =? length (rows d))
    with false by (symmetry; apply Nat.eqb_neq; simpl; lia).
  cbn [andb]. rewrite Hi, (get_loc_not_elem _ _ Hnotin). reflexivity.
Qed.

Lemma calculate_means_before_extraction_witness :
  calculate_means (weather_env_ex messages_ex) (weather_holding messages_ex weather_ex)
  = (Raise (KeyError "Measurement"), weather_holding messages_ex weather_ex).
Proof.
  apply (calculate_means_before_extraction (weather_env_ex messages_ex)
           (weather_holding messages_ex weather_ex) messages_ex).
  - reflexivity.
  - apply (bool_decide_unpack _). vm_compute. exact I.
  - apply (bool_decide_unpack _). vm_compute. exact I.
  - vm_compute. discriminate.
Defined.

(** X20: in a dataset that has the [Measurement] and [Value] columns, a row
    whose station identifier is null ([None] or NaN) belongs to no group
    either: [calculate_means] gives the same result with that row taken out
    of the dataset. *)
Theorem null_station_in_no_group (env : Env) (s : Self WeatherDataProcessor)
    (d : DataFrame) (stations : list cell) (k : nat) (c : cell) :
  weather_df (attrs s) = Some d ->
  "Measurement" ∈ columns d ->
  "Value" ∈ columns d ->
  getitem "Weather_station_ID" d = Ok stations ->
  stations !! k = Some c ->
  notna c = false ->
  fst (calculate_means env s) = fst (calculate_means env (without_row k s)).
Proof.
  intros Hdf Hm _ Hst Hk Hnull.
  unfold getitem in Hst.
  destruct (get_loc "Weather_station_ID" d) as [i|e] eqn:Hi; [|discriminate].
  cbn [rbind] in Hst. inversion Hst; subst stations. clear Hst.
  unfold iloc_col in Hk. rewrite list_lookup_fmap in Hk.
  destruct (rows d !! k) as [r|] eqn:Hr; [|discriminate].
  simpl in Hk. inversion Hk as [Hc]. clear Hk.
  destruct (get_loc_of_elem _ _ Hm) as [j Hj].
  apply (calculate_means_drop_null_row env s d k i j r Hdf Hr Hi Hj).
  unfold key_of at 1. rewrite Hc, Hnull. reflexivity.
Qed.

Lemma null_station_in_no_group_witness :
  let env := weather_env_ex messages_null_station_ex in
  let s := weather_holding messages_null_station_ex weather_ex in
  fst (calculate_means env s) = fst (calculate_means env (without_row 1 s)).
Proof.
  intros env s.
  apply (null_station_in_no_group env s messages_null_station_ex
           [CInt 0; CFloat S754_nan] 1 (CFloat S754_nan)).
  - reflexivity.
  - apply (bool_decide_unpack _). vm_compute. exact I.
  - apply (bool_decide_unpack _). vm_compute. exact I.
  - reflexivity.
  - reflexivity.
  - reflexivity.
Defined.

(** X24: on a dataset of exactly two rows (with unique labels) that has no
    [Measurement] column but a float [Value] column, pandas groups the rows
    by the two names themselves, one label per row; the means are computed,
    the line "Mean values calculated." is logged, and [unstack] then raises
    [ValueError], the index having one level only. *)
Theorem calculate_means_two_rows (env : Env) (s : Self WeatherDataProcessor)
    (d : DataFrame) (r1 r2 : list cell) (vi : nat) (a b : spec_float) :
  weather_df (attrs s) = Some d ->
  well_formed d = true ->
  ("Measurement" ∉ columns d) ->
  rows d = [r1; r2] ->
  get_loc "Value" d = Ok vi ->
  r1 !! vi = Some (CFloat a) ->
  r2 !! vi = Some (CFloat b) ->
  fst (calculate_means env s) = Raise ValueError /\
  attrs (snd (calculate_means env s)) = attrs s /\
  stderr (snd (calculate_means env s))
  = stderr s ++ emit (logger s) INFO "Mean values calculated.".
Proof.
  intros Hdf _ Hnotin Hrows Hv H1 H2.
  unfold calculate_means, bind, gets, liftR, groupby.
  rewrite Hdf. cbv beta iota zeta. rewrite Hrows.
  rewrite (bool_decide_eq_false_2 _ Hnotin), andb_false_r.
  cbn [length Nat.eqb negb andb]. rewrite Hv. cbn [rbind].
  unfold iloc_col. rewrite Hrows. cbn [fmap list_fmap].
  rewrite H1, H2.
  cbn [default zip zip_with fold_left fst snd label_add key_eqb String.eqb
       Ascii.eqb Bool.eqb andb].
  unfold mean, rmapM, label_mean, numeric_values.
  destruct (is_nan a), (is_nan b); cbn [rbind unstack log mlog ret bind attrs stderr logger];
    repeat split; reflexivity.
Qed.

Lemma calculate_means_two_rows_witness :
  let env := weather_env_ex two_rows_ex in
  let s := weather_holding two_rows_ex weather_ex in
  fst (calculate_means env s) = Raise ValueError /\
  attrs (snd (calculate_means env s)) = attrs s /\
  stderr (snd (calculate_means env s))
  = stderr s ++ emit (logger s) INFO "Mean values calculated.".
Proof.
  intros env s.
  apply (calculate_means_two_rows env s two_rows_ex
           [CInt 0; CStr msg_both; CFloat (float_of_int 10)]
           [CInt 0; CStr msg_none; CFloat (float_of_int 20)]
           2 (float_of_int 10) (float_of_int 20)).
  - reflexivity.
  - vm_compute. reflexivity.
  - apply (bool_decide_unpack _). vm_compute. exact I.
  - reflexivity.
  - reflexivity.
  - reflexivity.
  - reflexivity.
Defined.

End MeansExtras.

(** ** initialize_logging *)

Section LoggingExtras.

(** X21: a logger switched off by [logging_level="NONE"] (in any letter
    case) is never switched on again: an instance constructed later on the
    same logger, whatever level it asks for, writes nothing through it. *)
Theorem initialize_logging_none_is_sticky (lg : Logger)
    (level1 level2 : string) (lvl : Z) (msg : string) :
  upper level1 = "NONE" ->
  emit (initialize_logging (initialize_logging lg level1) level2) lvl msg = [].
Proof.
  intros Hnone.
  assert (Hdis : disabled (initialize_logging lg level1) = true).
  { unfold initialize_logging. rewrite Hnone. reflexivity. }
  assert (Hdis2 : disabled (initialize_logging (initialize_logging lg level1) level2)
                  = true).
  { revert Hdis. generalize (initialize_logging lg level1). intros lg' Hdis.
    unfold initialize_logging.
    repeat case_bool_decide; cbn [disabled]; try reflexivity; exact Hdis. }
  unfold emit, isEnabledFor. now rewrite Hdis2.
Qed.

Lemma initialize_logging_none_is_sticky_witness :
  emit (initialize_logging (initialize_logging (fresh_logger Field.logger_name) "none")
          "DEBUG") ERROR "Failed" = [].
Proof.
  apply (initialize_logging_none_is_sticky (fresh_logger Field.logger_name)
           "none" "DEBUG" ERROR "Failed").
  reflexivity.
Defined.

Lemma initialize_logging_handlers (lg : Logger) (level : string) :
  handlers lg <= 1 -> handlers (initialize_logging lg level) <= 1.
Proof.
  intros H. unfold initialize_logging.
  repeat case_bool_decide; cbn [handlers]; try exact H;
    destruct (handlers lg =? 0); lia.
Qed.

(** X22: however many instances are constructed on a logger that started
    fresh, and whatever levels they ask for, the logger never has more than
    one handler: a logged message is written to the console once at most. *)
Theorem initialize_logging_no_duplicates (n : string) (levels : list string)
    (lvl : Z) (msg : string) :
  length (emit (fold_left initialize_logging levels (fresh_logger n)) lvl msg) <= 1.
Proof.
  assert (Hh : handlers (fold_left initialize_logging levels (fresh_logger n)) <= 1).
  { assert (H0 : handlers (fresh_logger n) <= 1) by (simpl; lia).
    revert H0. generalize (fresh_logger n).
    induction levels as [|l levels IH]; intros lg H0; simpl; [exact H0|].
    apply IH. now apply initialize_logging_handlers. }
  unfold emit.
  destruct (isEnabledFor _ lvl); [|simpl; lia].
  destruct (handlers _ =? 0) eqn:Hz.
  - destruct (propagate _); [simpl; lia|].
    destruct (WARNING <=? lvl)%Z; simpl; lia.
  - rewrite length_replicate. exact Hh.
Qed.

(** X23: the per-message lines of [extract_measurement] are DEBUG lines: on
    a logger that does not let DEBUG through (level INFO, or switched off)
    an extraction, whatever its outcome, leaves the console as it was. *)
Theorem extract_measurement_quiet_above_debug (env : Env)
    (s : Self Weather.WeatherDataProcessor) (message : cell) :
  isEnabledFor (logger s) DEBUG = false ->
  stderr (snd (Weather.extract_measurement env message s)) = stderr s.
Proof.
  intros Hoff.
  assert (Hemit : forall msg, emit (logger s) DEBUG msg = []).
  { intros msg. unfold emit. now rewrite Hoff. }
  unfold Weather.extract_measurement, bind at 1. unfold gets at 1.
  generalize (Weather.patterns (attrs s)).
  intros pats. destruct s as [o lg err]. cbn [attrs logger stderr] in *.
  induction pats as [|[key pattern] pats IH]; simpl.
  - unfold bind, log, ret. cbn [stderr logger]. rewrite Hemit. apply app_nil_r.
  - unfold bind at 1. unfold liftR at 1.
    destruct (match message with CStr text => re_search env pattern text
                               | _ => Raise TypeError end) as [[groups|]|e];
      [|exact IH|reflexivity].
    unfold bind, log, liftR, ret. cbn [stderr logger].
    destruct (Weather.first_not_none groups) as [x|];
      [destruct (float_of_str env x)|]; cbn [snd stderr];
      rewrite Hemit; apply app_nil_r.
Qed.

Lemma extract_measurement_quiet_above_debug_witness :
  stderr (snd (Weather.extract_measurement (weather_env_ex messages_ex)
                 (CStr msg_both) weather_ex))
  = stderr weather_ex.
Proof.
  apply (extract_measurement_quiet_above_debug (weather_env_ex messages_ex)
           weather_ex (CStr msg_both)).
  reflexivity.
Defined.

End LoggingExtras.
